(** * Kwork crawl engine: a shallow embedding of the core and its properties

    The development follows the Python sources of the crawl engine:
    - [utils/rate_limiter.py]  (module [RateLimiter])
    - [utils/retry.py]         (module [Retry])
    - [utils/user_agents.py]   (module [UserAgents])
    - [core/selectors.py]      (module [Selectors])
    - [core/parser.py]         (module [Parser])

    Conventions.  Python [float] quantities (delays, timestamps, rate
    ceilings) are exact rationals [Q]; rounding is not modelled.  The wall
    clock is explicit: [time.time()] reads it, [asyncio.sleep d] advances it
    by [d] when [d] is positive.  Python exceptions are values of an error
    type, and a computation that may raise returns an outcome together with
    the state it leaves behind. *)

From stdpp Require Import gmap strings list pretty sorting.
From Stdlib Require Import Ascii ZArith QArith Qminmax Lia Lqa.

Open Scope Q_scope.

(** ** Python built-ins on numbers *)

Definition Qlt_bool (a b : Q) : bool := negb (Qle_bool b a).

(** [min(a, b)]: the first argument unless the second is strictly smaller. *)
Definition py_min (a b : Q) : Q := if Qlt_bool b a then b else a.

(** [max(a, b)]: the first argument unless the second is strictly larger. *)
Definition py_max (a b : Q) : Q := if Qlt_bool a b then b else a.

(** [max(xs)] for a non-empty list [x :: xs]. *)
Fixpoint py_max_list (x : Q) (xs : list Q) : Q :=
  match xs with
  | [] => x
  | y :: ys => py_max_list (py_max x y) ys
  end.

(** [len(xs)] as a number that can be compared with a float. *)
Definition len (xs : list Q) : Q := inject_Z (Z.of_nat (length xs)).

(** ** Python built-ins on ASCII strings *)

(** [sub in s] *)
Fixpoint is_substring (sub s : string) : bool :=
  String.prefix sub s ||
  match s with
  | EmptyString => false
  | String _ s' => is_substring sub s'
  end.

(** [str.lower] on ASCII text. *)
Definition lower_ascii (c : ascii) : ascii :=
  let n := Ascii.nat_of_ascii c in
  if (65 <=? n)%nat && (n <=? 90)%nat then Ascii.ascii_of_nat (n + 32) else c.

Fixpoint str_lower (s : string) : string :=
  match s with
  | EmptyString => EmptyString
  | String c s' => String (lower_ascii c) (str_lower s')
  end.

(** The double-quote character, and a string between double quotes. *)
Definition dq : string := String (Ascii.ascii_of_nat 34) EmptyString.
Definition quoted (s : string) : string := dq +:+ s +:+ dq.

(** ** Python text: strings of Unicode code points *)

Module PyStr.

(** A Python [str] is a sequence of code points. *)
Definition pystr : Type := list N.

Fixpoint bytes_of (s : string) : list N :=
  match s with
  | EmptyString => []
  | String c s' => N_of_ascii c :: bytes_of s'
  end.

(** Decoding of UTF-8, to write literals: the bytes of a Rocq string are
    the UTF-8 encoding of the text. *)
Fixpoint utf8_decode (bs : list N) : pystr :=
  match bs with
  | [] => []
  | b :: rest =>
      if (b <? 128)%N then b :: utf8_decode rest
      else if (b <? 192)%N then utf8_decode rest
      else if (b <? 224)%N then
        match rest with
        | c1 :: rest1 => ((b - 192) * 64 + (c1 - 128))%N :: utf8_decode rest1
        | [] => []
        end
      else if (b <? 240)%N then
        match rest with
        | c1 :: c2 :: rest2 =>
            ((b - 224) * 4096 + (c1 - 128) * 64 + (c2 - 128))%N
              :: utf8_decode rest2
        | _ => []
        end
      else
        match rest with
        | c1 :: c2 :: c3 :: rest3 =>
            ((b - 240) * 262144 + (c1 - 128) * 4096 + (c2 - 128) * 64
             + (c3 - 128))%N :: utf8_decode rest3
        | _ => []
        end
  end.

(** The text of a literal. *)
Definition U (s : string) : pystr := utf8_decode (bytes_of s).

Definition str_eqb (a b : pystr) : bool :=
  if decide (a = b) then true else false.

(** [str.isspace] of one character, also the class [\s] of [re]. *)
Definition is_space (c : N) : bool :=
  ((9 <=? c) && (c <=? 13) || (28 <=? c) && (c <=? 32)
   || (c =? 133) || (c =? 160) || (c =? 5760)
   || (8192 <=? c) && (c <=? 8202)
   || (c =? 8232) || (c =? 8233) || (c =? 8239) || (c =? 8287)
   || (c =? 12288))%N.

(** The class [\d] of [re], on ASCII digits (decimal digits of other
    scripts are left out). *)
Definition is_digit (c : N) : bool := ((48 <=? c) && (c <=? 57))%N.

(** [str.lower] of one character, for Basic Latin, Latin-1 and
    Cyrillic; other characters are left as they are. *)
Definition lower_char (c : N) : N :=
  if ((65 <=? c) && (c <=? 90))%N then (c + 32)%N
  else if ((192 <=? c) && (c <=? 222) && negb (c =? 215))%N then (c + 32)%N
  else if ((1024 <=? c) && (c <=? 1039))%N then (c + 80)%N
  else if ((1040 <=? c) && (c <=? 1071))%N then (c + 32)%N
  else c.

Definition lower (s : pystr) : pystr := map lower_char s.

Fixpoint lstrip (s : pystr) : pystr :=
  match s with
  | c :: s' => if is_space c then lstrip s' else s
  | [] => []
  end.

Definition rstrip (s : pystr) : pystr := rev (lstrip (rev s)).

(** [s.strip()] *)
Definition strip (s : pystr) : pystr := rstrip (lstrip s).

(** [s.startswith(p)] *)
Fixpoint startswith (p s : pystr) : bool :=
  match p, s with
  | [], _ => true
  | a :: p', b :: s' => (a =? b)%N && startswith p' s'
  | _ :: _, [] => false
  end.

(** [sub in s] *)
Fixpoint contains (sub s : pystr) : bool :=
  startswith sub s ||
  match s with
  | [] => false
  | _ :: s' => contains sub s'
  end.

(** [s.replace(a, b)] for one-character [a]; [b] may be empty. *)
Definition replace_char (a : N) (b : pystr) (s : pystr) : pystr :=
  flat_map (fun c => if (c =? a)%N then b else [c]) s.

(** The longest prefix of characters in a class, and what follows. *)
Fixpoint span (f : N -> bool) (s : pystr) : pystr * pystr :=
  match s with
  | c :: s' =>
      if f c then let '(run, rest) := span f s' in (c :: run, rest)
      else ([], s)
  | [] => ([], [])
  end.

(** [re.search('[class]+', s)]: the leftmost, longest run of characters
    of the class, if there is one. *)
Fixpoint search_run (f : N -> bool) (s : pystr) : option pystr :=
  match s with
  | [] => None
  | c :: s' => if f c then Some (fst (span f s)) else search_run f s'
  end.

(** [re.sub(r'\s+', ' ', s)] *)
Fixpoint collapse_spaces (fuel : nat) (s : pystr) : pystr :=
  match fuel with
  | O => s
  | S fuel' =>
      match s with
      | [] => []
      | c :: s' =>
          if is_space c then 32%N :: collapse_spaces fuel' (lstrip s')
          else c :: collapse_spaces fuel' s'
      end
  end.

(** The decimal value of a run of ASCII digits. *)
Definition digits_value (ds : pystr) : Z :=
  fold_left (fun acc c => (acc * 10 + (Z.of_N c - 48))%Z) ds 0%Z.

(** [float(s)] on text made of digits, dots and white space, which is
    all that [_parse_price] passes: white space around the number is
    ignored, then the text must be digits with at most one dot and at
    least one digit.  [None] stands for [ValueError]. *)
Definition float_of_str (s : pystr) : option Q :=
  let s := strip s in
  let '(int_part, rest) := span is_digit s in
  match rest with
  | [] =>
      match int_part with
      | [] => None
      | _ => Some (inject_Z (digits_value int_part))
      end
  | c :: after =>
      if (c =? 46)%N then
        let '(frac_part, rest') := span is_digit after in
        match rest', int_part ++ frac_part with
        | [], _ :: _ =>
            Some (Qmake (digits_value (int_part ++ frac_part))
                        (Z.to_pos (10 ^ Z.of_nat (length frac_part))))
        | _, _ => None
        end
      else None
  end.

(** [int(s)] on a run of ASCII digits. *)
Definition int_of_digits (s : pystr) : Z := digits_value s.

(** [str(n)] for an integer. *)
Definition str_of_Z (n : Z) : pystr := bytes_of (pretty n).

End PyStr.

(** ** The hash of a Python string

    [hash(s)] on a [str] is SipHash-1-3 of the string's internal buffer,
    keyed with a secret that the interpreter draws when the process
    starts (CPython 3.11, [Python/pyhash.c] and [Python/bootstrap_hash.c]). *)

Module PyHash.

Local Open Scope Z_scope.

Definition u64 (x : Z) : Z := x mod 2 ^ 64.

Definition rotate (x b : Z) : Z :=
  Z.lor (u64 (Z.shiftl x b)) (Z.shiftr x (64 - b)).

Definition V : Type := (Z * Z * Z * Z)%type.

Definition half_round (a b c d s t : Z) : V :=
  let a := u64 (a + b) in
  let c := u64 (c + d) in
  let b := Z.lxor (rotate b s) a in
  let d := Z.lxor (rotate d t) c in
  let a := rotate a 32 in
  (a, b, c, d).

Definition single_round (v : V) : V :=
  let '(v0, v1, v2, v3) := v in
  let '(v0, v1, v2, v3) := half_round v0 v1 v2 v3 13 16 in
  let '(v2, v1, v0, v3) := half_round v2 v1 v0 v3 17 21 in
  (v0, v1, v2, v3).

(** Little-endian value of a list of bytes. *)
Fixpoint le_value (bs : list Z) : Z :=
  match bs with
  | [] => 0
  | b :: bs' => b + 256 * le_value bs'
  end.

(** The loop over full 8-byte words; returns the state and the bytes
    left over. *)
Fixpoint absorb (v : V) (bs : list Z) : V * list Z :=
  match bs with
  | b0 :: b1 :: b2 :: b3 :: b4 :: b5 :: b6 :: b7 :: rest =>
      let mi := le_value [b0; b1; b2; b3; b4; b5; b6; b7] in
      let '(v0, v1, v2, v3) := v in
      let '(v0, v1, v2, v3) := single_round (v0, v1, v2, Z.lxor v3 mi) in
      absorb (Z.lxor v0 mi, v1, v2, v3) rest
  | _ => (v, bs)
  end.

Definition siphash13 (k0 k1 : Z) (src : list Z) : Z :=
  let b := u64 (Z.shiftl (Z.of_nat (length src)) 56) in
  let v0 := Z.lxor k0 0x736f6d6570736575 in
  let v1 := Z.lxor k1 0x646f72616e646f6d in
  let v2 := Z.lxor k0 0x6c7967656e657261 in
  let v3 := Z.lxor k1 0x7465646279746573 in
  let '((v0, v1, v2, v3), tail) := absorb (v0, v1, v2, v3) src in
  let b := Z.lor b (le_value tail) in
  let '(v0, v1, v2, v3) := single_round (v0, v1, v2, Z.lxor v3 b) in
  let v0 := Z.lxor v0 b in
  let v2 := Z.lxor v2 0xff in
  let '(v0, v1, v2, v3) :=
    single_round (single_round (single_round (v0, v1, v2, v3))) in
  Z.lxor (Z.lxor v0 v1) (Z.lxor v2 v3).

(** The per-process secret [_Py_HashSecret.siphash]. *)
Record HashSecret := mkSecret { k0 : Z; k1 : Z }.

(** The secret for a given [PYTHONHASHSEED]: zero switches the
    randomisation off, any other seed feeds a linear congruential
    generator.  Without the variable the secret comes from the
    operating system's random source. *)
Fixpoint lcg_urandom (x0 : Z) (n : nat) : list Z :=
  match n with
  | O => []
  | S n' =>
      let x := ((x0 * 214013 + 2531011) mod 2 ^ 32)%Z in
      Z.land (Z.shiftr x 16) 255 :: lcg_urandom x n'
  end.

Definition secret_of_seed (seed : Z) : HashSecret :=
  if (seed =? 0)%Z then mkSecret 0 0
  else
    let bytes := lcg_urandom seed 24 in
    mkSecret (le_value (firstn 8 bytes)) (le_value (firstn 8 (skipn 8 bytes))).

(** The buffer of a [str] object: one, two or four bytes per character,
    little-endian, by the largest code point. *)
Definition char_bytes (kind : nat) (c : N) : list Z :=
  map (fun i => Z.land (Z.shiftr (Z.of_N c) (8 * Z.of_nat i)) 255) (seq 0 kind).

Definition str_data (s : PyStr.pystr) : list Z :=
  let m := fold_left N.max s 0%N in
  let kind := if (m <? 256)%N then 1%nat
              else if (m <? 65536)%N then 2%nat else 4%nat in
  flat_map (char_bytes kind) s.

(** [hash(s)]: the result is a signed 64-bit integer, and -1 is replaced
    by -2. *)
Definition hash (secret : HashSecret) (s : PyStr.pystr) : Z :=
  match s with
  | [] => 0
  | _ =>
      let x := siphash13 (k0 secret) (k1 secret) (str_data s) in
      let x := if (x <? 2 ^ 63)%Z then x else (x - 2 ^ 64)%Z in
      if (x =? -1)%Z then (-2)%Z else x
  end.

End PyHash.

(** ** utils/rate_limiter.py *)

Module RateLimiter.

Record RateLimitConfig := mkRateLimitConfig {
  requests_per_second : Q;
  requests_per_minute : Q;
  requests_per_hour : Q;
  burst_size : Z;
  adaptive : bool;
  backoff_factor : Q;
  recovery_time : Q;
  min_delay : Q;
  max_delay : Q
}.

(** The dataclass defaults. *)
Definition default_config : RateLimitConfig :=
  mkRateLimitConfig 1 30 1000 5 true 2 300 0.5 60.

Definition CONSERVATIVE_CONFIG : RateLimitConfig :=
  mkRateLimitConfig 0.5 20 500 5 true 2 300 2 120.

Definition STANDARD_CONFIG : RateLimitConfig :=
  mkRateLimitConfig 1 30 1000 5 true 2 300 1 60.

Definition AGGRESSIVE_CONFIG : RateLimitConfig :=
  mkRateLimitConfig 2 60 2000 5 true 2 300 0.5 30.

(** The attributes of a [RateLimiter] object.  The three deques hold
    timestamps, oldest first. *)
Record RateLimiter := mkRateLimiter {
  config : RateLimitConfig;
  second_window : list Q;
  minute_window : list Q;
  hour_window : list Q;
  current_delay : Q;
  consecutive_errors : Z;
  last_error_time : Q;
  is_blocked : bool;
  block_until : Q
}.

(** [RateLimiter.__init__] *)
Definition init (cfg : RateLimitConfig) : RateLimiter :=
  {| config := cfg;
     second_window := []; minute_window := []; hour_window := [];
     current_delay := min_delay cfg;
     consecutive_errors := 0%Z;
     last_error_time := 0;
     is_blocked := false;
     block_until := 0 |}.

Definition set_windows (s m h : list Q) (st : RateLimiter) : RateLimiter :=
  {| config := config st;
     second_window := s; minute_window := m; hour_window := h;
     current_delay := current_delay st;
     consecutive_errors := consecutive_errors st;
     last_error_time := last_error_time st;
     is_blocked := is_blocked st;
     block_until := block_until st |}.

Definition set_current_delay (d : Q) (st : RateLimiter) : RateLimiter :=
  {| config := config st;
     second_window := second_window st;
     minute_window := minute_window st;
     hour_window := hour_window st;
     current_delay := d;
     consecutive_errors := consecutive_errors st;
     last_error_time := last_error_time st;
     is_blocked := is_blocked st;
     block_until := block_until st |}.

Definition set_errors (n : Z) (t : Q) (st : RateLimiter) : RateLimiter :=
  {| config := config st;
     second_window := second_window st;
     minute_window := minute_window st;
     hour_window := hour_window st;
     current_delay := current_delay st;
     consecutive_errors := n;
     last_error_time := t;
     is_blocked := is_blocked st;
     block_until := block_until st |}.

Definition set_block (b : bool) (t : Q) (st : RateLimiter) : RateLimiter :=
  {| config := config st;
     second_window := second_window st;
     minute_window := minute_window st;
     hour_window := hour_window st;
     current_delay := current_delay st;
     consecutive_errors := consecutive_errors st;
     last_error_time := last_error_time st;
     is_blocked := b;
     block_until := t |}.

(** *** The effect monad: limiter state, wall clock, exceptions *)

Inductive PyExn := IndexError | ZeroDivisionError.

Inductive Outcome (A : Type) :=
| Returned (a : A)
| Raised (e : PyExn).
Arguments Returned {A} a.
Arguments Raised {A} e.

Record World := mkWorld { self : RateLimiter; clock : Q }.

Definition M (A : Type) : Type := World -> Outcome A * World.

Definition ret {A} (a : A) : M A := fun w => (Returned a, w).

Definition bind {A B} (c : M A) (k : A -> M B) : M B :=
  fun w =>
    match c w with
    | (Returned a, w') => k a w'
    | (Raised e, w') => (Raised e, w')
    end.

Definition raise {A} (e : PyExn) : M A := fun w => (Raised e, w).

Notation "'let*' x ':=' c 'in' k" := (bind c (fun x => k))
  (at level 10, x name, c at level 100, k at level 200).
Notation "c >> k" := (bind c (fun _ => k))
  (at level 90, right associativity).

(** [time.time()] *)
Definition time_time : M Q := fun w => (Returned (clock w), w).

(** [await asyncio.sleep(d)]: a non-positive delay returns at once. *)
Definition sleep (d : Q) : M unit :=
  fun w =>
    (Returned tt,
     if Qlt_bool 0 d then mkWorld (self w) (clock w + d) else w).

Definition get_self : M RateLimiter := fun w => (Returned (self w), w).

Definition modify (f : RateLimiter -> RateLimiter) : M unit :=
  fun w => (Returned tt, mkWorld (f (self w)) (clock w)).

(** *** Methods *)

Definition _wait_if_blocked : M unit :=
  let* st := get_self in
  let* now := time_time in
  if is_blocked st && Qlt_bool now (block_until st) then
    let* now' := time_time in
    let wait_time := block_until st - now' in
    sleep wait_time >>
    modify (fun s => set_block false (block_until s) s)
  else ret tt.

(** One [while w and now - w[0] > horizon: w.popleft()] loop. *)
Fixpoint drop_old (horizon now : Q) (w : list Q) : list Q :=
  match w with
  | [] => []
  | t :: w' => if Qlt_bool horizon (now - t) then drop_old horizon now w' else w
  end.

Definition _cleanup_windows (now : Q) : M unit :=
  modify (fun s =>
    set_windows (drop_old 1 now (second_window s))
                (drop_old 60 now (minute_window s))
                (drop_old 3600 now (hour_window s)) s).

(** One of the three limit checks of [_enforce_rate_limits]: when the
    window is at or above its ceiling, the delay until its oldest entry
    expires is appended to [delays] if positive.  [window[0]] raises
    [IndexError] on an empty deque. *)
Definition limit_delay (horizon ceiling : Q) (window : list Q) (now : Q)
    (delays : list Q) : M (list Q) :=
  if Qle_bool ceiling (len window) then
    match window with
    | [] => raise IndexError
    | oldest :: _ =>
        let delay_needed := horizon - (now - oldest) in
        ret (if Qlt_bool 0 delay_needed then delays ++ [delay_needed]
             else delays)
    end
  else ret delays.

Definition _enforce_rate_limits : M unit :=
  let* now := time_time in
  _cleanup_windows now >>
  let* st := get_self in
  let* delays := limit_delay 1 (requests_per_second (config st))
              (second_window st) now [] in
  let* delays := limit_delay 60 (requests_per_minute (config st))
              (minute_window st) now delays in
  let* delays := limit_delay 3600 (requests_per_hour (config st))
              (hour_window st) now delays in
  match delays with
  | [] => ret tt
  | d :: ds => sleep (py_max_list d ds)
  end.

Definition _add_request : M unit :=
  let* now := time_time in
  modify (fun s =>
    set_windows (second_window s ++ [now])
                (minute_window s ++ [now])
                (hour_window s ++ [now]) s).

Definition _apply_delay : M unit :=
  let* st := get_self in
  if Qlt_bool 0 (current_delay st) then sleep (current_delay st)
  else ret tt.

(** [acquire]: the lock is held for the whole body, so the four steps run
    without interleaving. *)
Definition acquire : M unit :=
  _wait_if_blocked >>
  _enforce_rate_limits >>
  _add_request >>
  _apply_delay.

Definition _increase_delay : M unit :=
  modify (fun s =>
    set_current_delay
      (py_min (current_delay s * backoff_factor (config s))
              (max_delay (config s))) s).

Definition _decrease_delay : M unit :=
  let* st := get_self in
  if Qlt_bool (min_delay (config st)) (current_delay st) then
    if Qeq_bool (backoff_factor (config st)) 0 then raise ZeroDivisionError
    else
      modify (fun s =>
        set_current_delay
          (py_max (current_delay s / backoff_factor (config s))
                  (min_delay (config s))) s)
  else ret tt.

Definition _apply_temporary_block : M unit :=
  let* st := get_self in
  let block_duration :=
    py_min (inject_Z (consecutive_errors st * 30))
           (recovery_time (config st)) in
  let* now := time_time in
  modify (set_block true (now + block_duration)).

(** [status_code in [429, 503, 521, 522, 523, 524]]; [None] is not in
    the list. *)
Definition critical_statuses : list Z := [429; 503; 521; 522; 523; 524]%Z.

Definition status_in (status_code : option Z) (l : list Z) : bool :=
  match status_code with
  | Some c => existsb (Z.eqb c) l
  | None => false
  end.

Definition status_is (status_code : option Z) (c : Z) : bool :=
  match status_code with
  | Some c' => Z.eqb c' c
  | None => false
  end.

Definition report_error (status_code : option Z) : M unit :=
  let* st := get_self in
  if negb (adaptive (config st)) then ret tt
  else
    let* now := time_time in
    modify (fun s => set_errors (consecutive_errors s + 1) now s) >>
    if status_in status_code critical_statuses then
      _increase_delay >>
      if status_is status_code 429 then _apply_temporary_block
      else ret tt
    else ret tt.

Definition report_success : M unit :=
  let* st := get_self in
  if negb (adaptive (config st)) then ret tt
  else if (0 <? consecutive_errors st)%Z then
    modify (fun s =>
      set_errors (Z.max 0 (consecutive_errors s - 1)) (last_error_time s) s) >>
    let* st' := get_self in
    if (consecutive_errors st' =? 0)%Z then _decrease_delay else ret tt
  else ret tt.

Definition reset : M unit :=
  modify (fun s =>
    set_block false 0
      (set_errors 0 (last_error_time s)
        (set_current_delay (min_delay (config s))
          (set_windows [] [] [] s)))).

(** *** Clients: sequences of calls with idle time in between *)

Inductive Op :=
| OpAcquire
| OpReportError (status_code : option Z)
| OpReportSuccess
| OpReset.

Definition run_op (o : Op) : M unit :=
  match o with
  | OpAcquire => acquire
  | OpReportError c => report_error c
  | OpReportSuccess => report_success
  | OpReset => reset
  end.

(** Time that passes outside the limiter before a call; the clock never
    runs backwards. *)
Definition idle (d : Q) (w : World) : World :=
  if Qlt_bool 0 d then mkWorld (self w) (clock w + d) else w.

(** Runs the calls in order; an exception raised by one call reaches its
    caller only, the limiter object stays in use. *)
Fixpoint run_ops (ops : list (Q * Op)) (w : World) : World :=
  match ops with
  | [] => w
  | (d, o) :: ops' => run_ops ops' (snd (run_op o (idle d w)))
  end.

(** *** [get_stats] *)

(** The dictionary that [get_stats] returns, without its constant
    ["limits"] entry. *)
Record Stats := mkStats {
  requests_in_last_second : nat;
  requests_in_last_minute : nat;
  requests_in_last_hour : nat;
  stats_current_delay : Q;
  stats_consecutive_errors : Z;
  stats_is_blocked : bool;
  block_time_remaining : Q
}.

Definition get_stats : M Stats :=
  let* now := time_time in
  _cleanup_windows now >>
  let* st := get_self in
  ret {| requests_in_last_second := length (second_window st);
         requests_in_last_minute := length (minute_window st);
         requests_in_last_hour := length (hour_window st);
         stats_current_delay := current_delay st;
         stats_consecutive_errors := consecutive_errors st;
         stats_is_blocked := is_blocked st;
         block_time_remaining :=
           if is_blocked st then py_max 0 (block_until st - now) else 0 |}.

(** *** [GlobalRateLimiter]

    The dictionary [_limiters] holds the limiter objects by domain; a
    limiter handed out for a domain is the object stored under it. *)

Definition get_limiter (domain : string) (config : option RateLimitConfig)
    (_limiters : gmap string RateLimiter)
    : RateLimiter * gmap string RateLimiter :=
  match _limiters !! domain with
  | Some limiter => (limiter, _limiters)
  | None =>
      let limiter_config :=
        match config with
        | Some c => c
        | None => default_config
        end in
      let limiter := init limiter_config in
      (limiter, <[domain := limiter]> _limiters)
  end.

(** [reset_all]: every limiter of the registry is reset. *)
Definition reset_all (now : Q) (_limiters : gmap string RateLimiter)
    : gmap string RateLimiter :=
  (fun limiter => self (snd (reset (mkWorld limiter now)))) <$> _limiters.

End RateLimiter.

(** ** utils/retry.py *)

Module Retry.

Record RetryConfig := mkRetryConfig {
  max_attempts : Z;
  base_delay : Q;
  max_delay : Q;
  exponential_base : Q;
  jitter : bool;
  backoff_multiplier : Q
}.

(** The dataclass defaults. *)
Definition default_config : RetryConfig := mkRetryConfig 3 1 60 2 true 1.
Definition FAST_RETRY : RetryConfig := mkRetryConfig 3 0.5 5 1.5 true 1.
Definition STANDARD_RETRY : RetryConfig := mkRetryConfig 3 1 30 2 true 1.
Definition AGGRESSIVE_RETRY : RetryConfig := mkRetryConfig 5 2 120 2.5 true 1.

(** *** Exceptions

    The classes that [is_retryable_exception] tells apart, with their
    direct bases in the standard library and in aiohttp
    ([ClientResponseError] derives from [ClientError];
    [ServerTimeoutError] from [ClientError] through
    [ServerConnectionError], and from [asyncio.TimeoutError]). *)
Inductive ExcClass :=
| C_Exception
| C_NonRetryableError
| C_RetryableError
| C_ClientError
| C_ClientResponseError
| C_ServerTimeoutError
| C_TimeoutError
| C_ConnectionError
| C_OSError
| C_ZeroDivisionError
| C_OverflowError
| C_ValueError
| C_RuntimeError.

Definition ExcClass_eqb (a b : ExcClass) : bool :=
  match a, b with
  | C_Exception, C_Exception
  | C_NonRetryableError, C_NonRetryableError
  | C_RetryableError, C_RetryableError
  | C_ClientError, C_ClientError
  | C_ClientResponseError, C_ClientResponseError
  | C_ServerTimeoutError, C_ServerTimeoutError
  | C_TimeoutError, C_TimeoutError
  | C_ConnectionError, C_ConnectionError
  | C_OSError, C_OSError
  | C_ZeroDivisionError, C_ZeroDivisionError
  | C_OverflowError, C_OverflowError
  | C_ValueError, C_ValueError
  | C_RuntimeError, C_RuntimeError => true
  | _, _ => false
  end.

Definition bases (c : ExcClass) : list ExcClass :=
  match c with
  | C_Exception => []
  | C_ClientResponseError => [C_ClientError]
  | C_ServerTimeoutError => [C_ClientError; C_TimeoutError]
  | C_TimeoutError => [C_OSError]
  | C_ConnectionError => [C_OSError]
  | _ => [C_Exception]
  end.

(** [issubclass(c, d)]; the hierarchy above is at most four levels deep. *)
Fixpoint issubclass_upto (depth : nat) (c d : ExcClass) : bool :=
  ExcClass_eqb c d ||
  match depth with
  | O => false
  | S depth' => existsb (fun b => issubclass_upto depth' b d) (bases c)
  end.

Definition issubclass : ExcClass -> ExcClass -> bool := issubclass_upto 4.

(** An exception object: its class, the [status] attribute (meaningful
    for [ClientResponseError]) and its message.  Only what
    [except Exception] catches is represented; [KeyboardInterrupt] or a
    task cancellation passes through [retry_async] untouched. *)
Record PyException := mkException {
  exc_class : ExcClass;
  status : Z;
  message : string
}.

Definition isinstance (e : PyException) (c : ExcClass) : bool :=
  issubclass (exc_class e) c.

(** [RETRYABLE_EXCEPTIONS]; [aiohttp.ClientTimeout] in the tuple is a
    settings class that no exception is an instance of. *)
Definition RETRYABLE_EXCEPTIONS : list ExcClass :=
  [C_ClientError; C_ServerTimeoutError; C_TimeoutError; C_ConnectionError;
   C_OSError; C_RetryableError].

Definition RETRYABLE_STATUS_CODES : list Z :=
  [429; 500; 502; 503; 504; 521; 522; 523; 524]%Z.

Definition is_retryable_http_status (status_code : Z) : bool :=
  existsb (Z.eqb status_code) RETRYABLE_STATUS_CODES.

Definition is_retryable_exception (exception : PyException) : bool :=
  if isinstance exception C_NonRetryableError then false
  else if existsb (isinstance exception) RETRYABLE_EXCEPTIONS then true
  else if isinstance exception C_ClientResponseError then
    is_retryable_http_status (status exception)
  else false.

(** *** Delays *)

(** What a computation that may raise gives: a value or an exception. *)
Inductive Result (A : Type) :=
| Ok (a : A)
| Err (e : PyException).
Arguments Ok {A} a.
Arguments Err {A} e.

(** The magnitude from which a number rounds to an infinite float: half
    an ulp above the largest float, [(2 - 2**-52) * 2**1023]. *)
Definition FLOAT_OVERFLOW : Q := inject_Z (2 ^ 1024 - 2 ^ 970).

Definition overflows (x : Q) : bool :=
  Qle_bool FLOAT_OVERFLOW x || Qle_bool x (- FLOAT_OVERFLOW).

(** [base ** e] for a float base and an int exponent.  The exponent is
    converted to a float first, which raises [OverflowError] when it is
    too large; a zero base with a negative exponent raises
    [ZeroDivisionError]; a power that leaves the range of the floats
    raises [OverflowError]. *)
Definition py_pow (base : Q) (e : Z) : Result Q :=
  if overflows (inject_Z e) then
    Err (mkException C_OverflowError 0 "int too large to convert to float")
  else if (e <? 0)%Z && Qeq_bool base 0 then
    Err (mkException C_ZeroDivisionError 0
           "0.0 cannot be raised to a negative power")
  else if overflows (Qpower base e) then
    Err (mkException C_OverflowError 0 "(34, 'Numerical result out of range')")
  else Ok (Qpower base e).

(** [random.uniform(a, b)] is [a + (b - a) * random()], where
    [u = random()] lies in [0, 1). *)
Definition uniform (a b u : Q) : Q := a + (b - a) * u.

(** [calculate_delay]; [u] is the value [random()] returns if the jitter
    branch draws one.  The power is the one step that can raise. *)
Definition calculate_delay (attempt : Z) (config : RetryConfig) (u : Q)
    : Result Q :=
  match py_pow (exponential_base config) (attempt - 1) with
  | Err e => Err e
  | Ok p =>
      let delay := base_delay config * p in
      let delay := delay * backoff_multiplier config in
      let delay := py_min delay (max_delay config) in
      let delay :=
        if jitter config then
          let jitter_range := delay * 0.1 in
          delay + uniform (- jitter_range) jitter_range u
        else delay in
      Ok (py_max 0 delay)
  end.

(** *** [retry_async] *)

(** What a run of [retry_async] does besides producing its result: how
    often it invoked the operation, the delays it slept, and the
    [on_retry(attempt, e, delay)] notifications. *)
Record Trace := mkTrace {
  calls : nat;
  slept : list Q;
  notified : list (Z * PyException * Q)
}.

Section WithOperation.
Context {A : Type}.
(** [func i] is what the [i]-th invocation of the operation does
    (counting from zero): return a value or raise. *)
Variable func : nat -> Result A.
Variable config : RetryConfig.
(** [rnd i] is the [i]-th value drawn from [random()]. *)
Variable rnd : nat -> Q.

(** The body of [for attempt in range(1, max_attempts + 1)], with
    [remaining] iterations left, followed by the statements after the
    loop. *)
Fixpoint attempts (remaining : nat) (attempt : Z) (tr : Trace)
    (last_exception : option PyException) : Result A * Trace :=
  match remaining with
  | O =>
      match last_exception with
      | Some e => (Err e, tr)
      | None =>
          (Err (mkException C_RuntimeError 0 "retry logic"), tr)
      end
  | S remaining' =>
      let outcome := func (calls tr) in
      let tr := mkTrace (S (calls tr)) (slept tr) (notified tr) in
      match outcome with
      | Ok result => (Ok result, tr)
      | Err e =>
          if negb (is_retryable_exception e) then (Err e, tr)
          else if (attempt =? max_attempts config)%Z then (Err e, tr)
          else
            match calculate_delay attempt config
                    (rnd (length (slept tr))) with
            | Err raised => (Err raised, tr)
            | Ok delay =>
                attempts remaining' (attempt + 1)
                  (mkTrace (calls tr) (slept tr ++ [delay])
                           (notified tr ++ [(attempt, e, delay)]))
                  (Some e)
            end
      end
  end.

Definition retry_async : Result A * Trace :=
  attempts (Z.to_nat (max_attempts config)) 1 (mkTrace 0 [] []) None.
End WithOperation.

(** *** [RetrySession.request] *)

(** What the HTTP session hands over for one request: the status and the
    reason of the response, and the error that reading its body raises,
    if it raises one. *)
Record Response := mkResponse {
  response_status : Z;
  reason : string;
  read : option PyException
}.

(** [_make_request], given what [session.request] does: raise, or hand
    over a response. *)
Definition _make_request (outcome : Result Response) : Result Response :=
  match outcome with
  | Err e => Err e
  | Ok response =>
      if is_retryable_http_status (response_status response) then
        Err (mkException C_ClientResponseError (response_status response)
               ("HTTP " +:+ pretty (response_status response) +:+ ": "
                +:+ reason response))
      else
        match read response with
        | Some e => Err e
        | None => Ok response
        end
  end.

(** [RetrySession(session, config).request]; [session i] is what the
    [i]-th request of the session does. *)
Definition request (session : nat -> Result Response)
    (config : option RetryConfig) (rnd : nat -> Q) : Result Response * Trace :=
  let config :=
    match config with
    | Some c => c
    | None => STANDARD_RETRY
    end in
  retry_async (fun i => _make_request (session i)) config rnd.

End Retry.

(** ** utils/user_agents.py *)

Module UserAgents.

Record UserAgentConfig := mkUserAgentConfig {
  rotation_interval : Z;
  random_rotation : bool;
  prefer_chrome : bool;
  prefer_desktop : bool;
  include_mobile : bool
}.

Definition default_config : UserAgentConfig :=
  mkUserAgentConfig 10 true true true false.
Definition STEALTH_CONFIG : UserAgentConfig :=
  mkUserAgentConfig 5 true true true false.
Definition STANDARD_CONFIG : UserAgentConfig :=
  mkUserAgentConfig 10 true true true false.
Definition DIVERSE_CONFIG : UserAgentConfig :=
  mkUserAgentConfig 15 true false true true.

Definition DESKTOP_CHROME_AGENTS : list string := [
  "Mozilla/5.0 (Windows NT 10.0; Win64; x64) AppleWebKit/537.36 (KHTML, like Gecko) Chrome/120.0.0.0 Safari/537.36";
  "Mozilla/5.0 (Windows NT 10.0; Win64; x64) AppleWebKit/537.36 (KHTML, like Gecko) Chrome/119.0.0.0 Safari/537.36";
  "Mozilla/5.0 (Windows NT 10.0; Win64; x64) AppleWebKit/537.36 (KHTML, like Gecko) Chrome/118.0.0.0 Safari/537.36";
  "Mozilla/5.0 (Macintosh; Intel Mac OS X 10_15_7) AppleWebKit/537.36 (KHTML, like Gecko) Chrome/120.0.0.0 Safari/537.36";
  "Mozilla/5.0 (Macintosh; Intel Mac OS X 10_15_7) AppleWebKit/537.36 (KHTML, like Gecko) Chrome/119.0.0.0 Safari/537.36";
  "Mozilla/5.0 (X11; Linux x86_64) AppleWebKit/537.36 (KHTML, like Gecko) Chrome/120.0.0.0 Safari/537.36";
  "Mozilla/5.0 (X11; Linux x86_64) AppleWebKit/537.36 (KHTML, like Gecko) Chrome/119.0.0.0 Safari/537.36";
  "Mozilla/5.0 (Windows NT 11.0; Win64; x64) AppleWebKit/537.36 (KHTML, like Gecko) Chrome/120.0.0.0 Safari/537.36"
]%string.

Definition DESKTOP_FIREFOX_AGENTS : list string := [
  "Mozilla/5.0 (Windows NT 10.0; Win64; x64; rv:121.0) Gecko/20100101 Firefox/121.0";
  "Mozilla/5.0 (Windows NT 10.0; Win64; x64; rv:120.0) Gecko/20100101 Firefox/120.0";
  "Mozilla/5.0 (Macintosh; Intel Mac OS X 10.15; rv:121.0) Gecko/20100101 Firefox/121.0";
  "Mozilla/5.0 (Macintosh; Intel Mac OS X 10.15; rv:120.0) Gecko/20100101 Firefox/120.0";
  "Mozilla/5.0 (X11; Linux x86_64; rv:121.0) Gecko/20100101 Firefox/121.0";
  "Mozilla/5.0 (X11; Ubuntu; Linux x86_64; rv:121.0) Gecko/20100101 Firefox/121.0"
]%string.

Definition DESKTOP_SAFARI_AGENTS : list string := [
  "Mozilla/5.0 (Macintosh; Intel Mac OS X 10_15_7) AppleWebKit/605.1.15 (KHTML, like Gecko) Version/17.2 Safari/605.1.15";
  "Mozilla/5.0 (Macintosh; Intel Mac OS X 10_15_7) AppleWebKit/605.1.15 (KHTML, like Gecko) Version/17.1 Safari/605.1.15";
  "Mozilla/5.0 (Macintosh; Intel Mac OS X 10_15_7) AppleWebKit/605.1.15 (KHTML, like Gecko) Version/16.6 Safari/605.1.15"
]%string.

Definition DESKTOP_EDGE_AGENTS : list string := [
  "Mozilla/5.0 (Windows NT 10.0; Win64; x64) AppleWebKit/537.36 (KHTML, like Gecko) Chrome/120.0.0.0 Safari/537.36 Edg/120.0.0.0";
  "Mozilla/5.0 (Windows NT 10.0; Win64; x64) AppleWebKit/537.36 (KHTML, like Gecko) Chrome/119.0.0.0 Safari/537.36 Edg/119.0.0.0";
  "Mozilla/5.0 (Macintosh; Intel Mac OS X 10_15_7) AppleWebKit/537.36 (KHTML, like Gecko) Chrome/120.0.0.0 Safari/537.36 Edg/120.0.0.0"
]%string.

Definition MOBILE_AGENTS : list string := [
  "Mozilla/5.0 (iPhone; CPU iPhone OS 17_2 like Mac OS X) AppleWebKit/605.1.15 (KHTML, like Gecko) Version/17.2 Mobile/15E148 Safari/604.1";
  "Mozilla/5.0 (iPhone; CPU iPhone OS 17_1 like Mac OS X) AppleWebKit/605.1.15 (KHTML, like Gecko) Version/17.1 Mobile/15E148 Safari/604.1";
  "Mozilla/5.0 (Linux; Android 14; SM-G998B) AppleWebKit/537.36 (KHTML, like Gecko) Chrome/120.0.0.0 Mobile Safari/537.36";
  "Mozilla/5.0 (Linux; Android 13; SM-G991B) AppleWebKit/537.36 (KHTML, like Gecko) Chrome/119.0.0.0 Mobile Safari/537.36";
  "Mozilla/5.0 (iPad; CPU OS 17_2 like Mac OS X) AppleWebKit/605.1.15 (KHTML, like Gecko) Version/17.2 Mobile/15E148 Safari/604.1"
]%string.

(** *** [UserAgentRotator] *)

Record UserAgentRotator := mkRotator {
  config : UserAgentConfig;
  current_agent : option string;
  request_count : Z;
  agents_pool : list string;
  used_agents : list string
}.

Definition _build_agents_pool (cfg : UserAgentConfig) : list string :=
  let pool := [] in
  let pool :=
    if prefer_chrome cfg || negb (prefer_desktop cfg)
    then pool ++ (DESKTOP_CHROME_AGENTS ++ DESKTOP_CHROME_AGENTS)
    else pool in
  let pool :=
    if prefer_desktop cfg
    then ((pool ++ DESKTOP_FIREFOX_AGENTS) ++ DESKTOP_SAFARI_AGENTS)
           ++ DESKTOP_EDGE_AGENTS
    else pool in
  let pool := if include_mobile cfg then pool ++ MOBILE_AGENTS else pool in
  match pool with
  | [] => DESKTOP_CHROME_AGENTS
  | _ => pool
  end.

Definition init (cfg : UserAgentConfig) : UserAgentRotator :=
  {| config := cfg;
     current_agent := None;
     request_count := 0;
     agents_pool := _build_agents_pool cfg;
     used_agents := [] |}.

Definition str_in (x : string) (l : list string) : bool :=
  existsb (String.eqb x) l.

(** [l[-n:]] *)
Definition last_n {A} (n : nat) (l : list A) : list A :=
  skipn (length l - n) l.

(** [l.index(x)] for an [x] known to be in [l]. *)
Fixpoint index_of (x : string) (l : list string) : nat :=
  match l with
  | [] => O
  | y :: l' => if String.eqb x y then O else S (index_of x l')
  end.

(** [random.choice(seq)]: the element at a random index below
    [len(seq)]; [draw] is the number the generator yields. *)
Definition random_choice (draw : nat) (seq : list string) : string :=
  nth (draw mod length seq) seq EmptyString.

Definition _rotate_agent (draw : nat) (r : UserAgentRotator) : UserAgentRotator :=
  let current :=
    if random_rotation (config r) then
      let available_agents :=
        List.filter (fun agent => negb (str_in agent (last_n 5 (used_agents r))))
                    (agents_pool r) in
      let available_agents :=
        match available_agents with
        | [] => agents_pool r
        | _ => available_agents
        end in
      random_choice draw available_agents
    else
      let current_index :=
        match current_agent r with
        | Some a => if str_in a (agents_pool r)
                    then index_of a (agents_pool r) else O
        | None => O
        end in
      let next_index := ((current_index + 1) mod length (agents_pool r))%nat in
      nth next_index (agents_pool r) EmptyString in
  let used := used_agents r ++ [current] in
  let used := if (20 <? length used)%nat then last_n 20 used else used in
  {| config := config r;
     current_agent := Some current;
     request_count := 0;
     agents_pool := agents_pool r;
     used_agents := used |}.

(** [get_user_agent] returns the active fingerprint and the updated
    rotator. *)
Definition get_user_agent (draw : nat) (r : UserAgentRotator)
    : string * UserAgentRotator :=
  let r :=
    match current_agent r with
    | None => _rotate_agent draw r
    | Some _ =>
        if (rotation_interval (config r) <=? request_count r)%Z
        then _rotate_agent draw r else r
    end in
  let r := {| config := config r;
              current_agent := current_agent r;
              request_count := request_count r + 1;
              agents_pool := agents_pool r;
              used_agents := used_agents r |} in
  (match current_agent r with Some a => a | None => EmptyString end, r).

Definition force_rotate (draw : nat) (r : UserAgentRotator)
    : string * UserAgentRotator :=
  get_user_agent draw
    {| config := config r;
       current_agent := current_agent r;
       request_count := rotation_interval (config r);
       agents_pool := agents_pool r;
       used_agents := used_agents r |}.

(** [d.update(pairs)] on a header dictionary. *)
Definition update (pairs : list (string * string)) (d : gmap string string)
    : gmap string string :=
  fold_left (fun m kv => <[fst kv := snd kv]> m) pairs d.

Definition get_headers (draw : nat) (additional_headers : option (list (string * string)))
    (r : UserAgentRotator) : gmap string string * UserAgentRotator :=
  let '(ua, r) := get_user_agent draw r in
  let headers := update [
    ("User-Agent", ua);
    ("Accept", "text/html,application/xhtml+xml,application/xml;q=0.9,image/avif,image/webp,image/apng,*/*;q=0.8,application/signed-exchange;v=b3;q=0.7");
    ("Accept-Language", "ru-RU,ru;q=0.9,en;q=0.8");
    ("Accept-Encoding", "gzip, deflate, br");
    ("DNT", "1");
    ("Connection", "keep-alive");
    ("Upgrade-Insecure-Requests", "1");
    ("Sec-Fetch-Dest", "document");
    ("Sec-Fetch-Mode", "navigate");
    ("Sec-Fetch-Site", "none");
    ("Sec-Fetch-User", "?1");
    ("Cache-Control", "max-age=0")
  ]%string ∅ in
  let headers :=
    if is_substring "Chrome" ua then
      update [
        ("sec-ch-ua",
         quoted "Not_A Brand" +:+ ";v=" +:+ quoted "8" +:+ ", "
         +:+ quoted "Chromium" +:+ ";v=" +:+ quoted "120" +:+ ", "
         +:+ quoted "Google Chrome" +:+ ";v=" +:+ quoted "120");
        ("sec-ch-ua-mobile", "?0");
        ("sec-ch-ua-platform", quoted "Windows")
      ]%string headers
    else headers in
  let headers :=
    match additional_headers with
    | Some extra => update extra headers
    | None => headers
    end in
  (headers, r).

(** *** [BrowserProfile] *)

Inductive BrowserType := chrome | firefox | safari | edge | unknown_browser.
Inductive OsType := windows | macos | linux | ios | android | unknown_os.

Record BrowserProfile := mkProfile {
  user_agent : string;
  _browser_type : BrowserType;
  _os_type : OsType
}.

Definition _detect_browser_type (user_agent : string) : BrowserType :=
  let ua := str_lower user_agent in
  if is_substring "chrome" ua && negb (is_substring "edg" ua) then chrome
  else if is_substring "firefox" ua then firefox
  else if is_substring "safari" ua && negb (is_substring "chrome" ua) then safari
  else if is_substring "edg" ua then edge
  else unknown_browser.

Definition _detect_os_type (user_agent : string) : OsType :=
  let ua := str_lower user_agent in
  if is_substring "windows" ua then windows
  else if is_substring "mac os x" ua || is_substring "macos" ua then macos
  else if is_substring "linux" ua then linux
  else if is_substring "iphone" ua || is_substring "ipad" ua then ios
  else if is_substring "android" ua then android
  else unknown_os.

Definition profile (user_agent : string) : BrowserProfile :=
  mkProfile user_agent (_detect_browser_type user_agent)
            (_detect_os_type user_agent).

Definition profile_get_headers (p : BrowserProfile) : gmap string string :=
  let base_headers := update [
    ("User-Agent", user_agent p);
    ("Accept", "text/html,application/xhtml+xml,application/xml;q=0.9,*/*;q=0.8");
    ("Accept-Language", "ru-RU,ru;q=0.9,en;q=0.8");
    ("Accept-Encoding", "gzip, deflate, br");
    ("DNT", "1");
    ("Connection", "keep-alive");
    ("Upgrade-Insecure-Requests", "1")
  ]%string ∅ in
  match _browser_type p with
  | chrome | edge =>
      let base_headers := update [
        ("Accept", "text/html,application/xhtml+xml,application/xml;q=0.9,image/avif,image/webp,image/apng,*/*;q=0.8,application/signed-exchange;v=b3;q=0.7");
        ("Sec-Fetch-Dest", "document");
        ("Sec-Fetch-Mode", "navigate");
        ("Sec-Fetch-Site", "none");
        ("Sec-Fetch-User", "?1");
        ("sec-ch-ua",
         quoted "Not_A Brand" +:+ ";v=" +:+ quoted "8" +:+ ", "
         +:+ quoted "Chromium" +:+ ";v=" +:+ quoted "120");
        ("sec-ch-ua-mobile", "?0")
      ]%string base_headers in
      match _os_type p with
      | windows => <["sec-ch-ua-platform"%string := quoted "Windows"]> base_headers
      | macos => <["sec-ch-ua-platform"%string := quoted "macOS"]> base_headers
      | linux => <["sec-ch-ua-platform"%string := quoted "Linux"]> base_headers
      | _ => base_headers
      end
  | firefox =>
      update [
        ("Accept", "text/html,application/xhtml+xml,application/xml;q=0.9,image/avif,image/webp,*/*;q=0.8")
      ]%string base_headers
  | _ => base_headers
  end.

(** [get_random_agent] leaves the rotator as it is. *)
Definition get_random_agent (draw : nat) (r : UserAgentRotator) : string :=
  random_choice draw (agents_pool r).

(** *** [generate_dynamic_user_agent] *)

Definition WINDOWS_VERSIONS : list string := [
  "Windows NT 10.0; Win64; x64";
  "Windows NT 11.0; Win64; x64";
  "Windows NT 10.0; WOW64"
]%string.

Definition MACOS_VERSIONS : list string := [
  "Macintosh; Intel Mac OS X 10_15_7";
  "Macintosh; Intel Mac OS X 10_15_6";
  "Macintosh; Apple M1 Mac OS X 10_15_7";
  "Macintosh; Apple M2 Mac OS X 10_15_7"
]%string.

Definition LINUX_VERSIONS : list string := [
  "X11; Linux x86_64";
  "X11; Ubuntu; Linux x86_64";
  "X11; Linux i686"
]%string.

Definition chrome_versions : list string :=
  ["120.0.0.0"; "119.0.0.0"; "118.0.0.0"; "121.0.0.0"]%string.

Definition firefox_versions : list string :=
  ["121.0"; "120.0"; "119.0"]%string.

(** [version or random.choice(versions)]: a missing or empty version is
    drawn. *)
Definition version_or_choice (version : option string) (draw : nat)
    (versions : list string) : string :=
  match version with
  | Some (String c v) => String c v
  | _ => random_choice draw versions
  end.

(** [draw_version] and [draw_os] are the numbers the generator yields for
    the version and for the operating-system string, where one is drawn. *)
Definition generate_dynamic_user_agent (browser os_type : string)
    (version : option string) (draw_version draw_os : nat) : string :=
  if String.eqb browser "chrome" then
    let version := version_or_choice version draw_version chrome_versions in
    let os_string :=
      if String.eqb os_type "windows" then random_choice draw_os WINDOWS_VERSIONS
      else if String.eqb os_type "macos" then random_choice draw_os MACOS_VERSIONS
      else random_choice draw_os LINUX_VERSIONS in
    "Mozilla/5.0 (" +:+ os_string
      +:+ ") AppleWebKit/537.36 (KHTML, like Gecko) Chrome/" +:+ version
      +:+ " Safari/537.36"
  else if String.eqb browser "firefox" then
    let version := version_or_choice version draw_version firefox_versions in
    if String.eqb os_type "windows" then
      "Mozilla/5.0 (Windows NT 10.0; Win64; x64; rv:" +:+ version
        +:+ ") Gecko/20100101 Firefox/" +:+ version
    else if String.eqb os_type "macos" then
      "Mozilla/5.0 (Macintosh; Intel Mac OS X 10.15; rv:" +:+ version
        +:+ ") Gecko/20100101 Firefox/" +:+ version
    else
      "Mozilla/5.0 (X11; Linux x86_64; rv:" +:+ version
        +:+ ") Gecko/20100101 Firefox/" +:+ version
  else random_choice draw_version DESKTOP_CHROME_AGENTS.

(** *** Clients: a sequence of requests, some of them forcing a rotation *)

Fixpoint serve (requests : list (bool * nat)) (r : UserAgentRotator)
    : list string * UserAgentRotator :=
  match requests with
  | [] => ([], r)
  | (force, draw) :: rest =>
      let '(agent, r) :=
        if force : bool then force_rotate draw r else get_user_agent draw r in
      let '(agents, r) := serve rest r in
      (agent :: agents, r)
  end.

End UserAgents.

(** ** Documents

    A BeautifulSoup node as the parser sees it: the identity of the Python
    object, its attributes, its text and the answer of [select] to a CSS
    selector.  [id(obj)] is the address of the object; Python guarantees
    that it is unique among the objects alive at the same time, and
    nothing more. *)

Module Dom.

#[local] Unset Elimination Schemes.
Inductive Tag := mkTag {
  obj_id : Z;
  attrs : list (string * PyStr.pystr);
  text : PyStr.pystr;
  select : string -> list Tag
}.
#[local] Set Elimination Schemes.

(** [tag.get(name)] *)
Fixpoint lookup_attr (name : string) (l : list (string * PyStr.pystr))
    : option PyStr.pystr :=
  match l with
  | [] => None
  | (k, v) :: l' => if String.eqb k name then Some v else lookup_attr name l'
  end.

Definition get (t : Tag) (name : string) : option PyStr.pystr :=
  lookup_attr name (attrs t).

(** [tag.select_one(selector)] *)
Definition select_one (t : Tag) (selector : string) : option Tag :=
  head (select t selector).

End Dom.

(** ** core/selectors.py *)

Module Selectors.

(** The fields of the dataclass [KworkSelectors]. *)
Definition KworkSelectors : list (string * string) := [
  ("projects_container", ".wants-list");
  ("project_card", ".want-card");
  ("project_title", ".wants-card__header-title a");
  ("project_link", ".wants-card__header-title a");
  ("price_container", ".wants-card__price");
  ("price_value", ".wants-card__price .kwork-text-money");
  ("price_currency", ".wants-card__price .currency");
  ("price_type", ".wants-card__price .price-type");
  ("description", ".wants-card__description-text");
  ("description_short", ".wants-card__description-text p");
  ("author_name", ".wants-card__header-username");
  ("author_link", ".wants-card__header-username a");
  ("author_avatar", ".wants-card__header-user img");
  ("category", ".wants-card__category");
  ("category_link", ".wants-card__category a");
  ("tags", ".wants-card__tags .tag");
  ("skills", ".wants-card__skills .skill");
  ("responses_count", ".wants-card__responses");
  ("views_count", ".wants-card__views");
  ("time_posted", ".wants-card__time");
  ("deadline", ".wants-card__deadline");
  ("project_type", ".wants-card__type");
  ("experience_level", ".wants-card__experience");
  ("rating", ".wants-card__rating");
  ("location", ".wants-card__location");
  ("pagination_container", ".pagination");
  ("pagination_next", ".pagination .next");
  ("pagination_pages", ".pagination .page-numbers");
  ("pagination_current", ".pagination .current");
  ("total_projects", ".wants-found-count");
  ("projects_per_page", ".wants-per-page")
]%string.

(** The fields of the dataclass [KworkSelectorsAlt]. *)
Definition KworkSelectorsAlt : list (string * string) := [
  ("project_card", "[data-want-id]");
  ("project_title", "h3 a, .title a, .project-title a");
  ("project_link", "a[href*='/project/']");
  ("price_container", ".price, .cost, .amount, [class*='price']");
  ("price_value", ".price-value, .amount-value, [class*='money']");
  ("description", ".description, .content, .text, p");
  ("author_name", ".author, .username, .user-name, [class*='user']");
  ("responses_count", "[class*='response'], [class*='offer'], [class*='bid']");
  ("views_count", "[class*='view'], [class*='visit']");
  ("time_posted", "[class*='time'], [class*='date'], .timestamp")
]%string.

(** [getattr(selectors, field_name)] when [hasattr] holds. *)
Fixpoint getattr (selectors : list (string * string)) (field_name : string)
    : option string :=
  match selectors with
  | [] => None
  | (k, v) :: rest =>
      if String.eqb k field_name then Some v else getattr rest field_name
  end.

(** [get_selector]; [None] stands for the [ValueError]. *)
Definition get_selector (field_name : string) (use_fallback : bool)
    : option string :=
  getattr (if use_fallback then KworkSelectorsAlt else KworkSelectors)
          field_name.

Definition get_all_selectors (field_name : string) : list string :=
  let selectors := [] in
  let selectors :=
    match get_selector field_name false with
    | Some primary_selector => selectors ++ [primary_selector]
    | None => selectors
    end in
  match get_selector field_name true with
  | Some fallback_selector =>
      if existsb (String.eqb fallback_selector) selectors then selectors
      else selectors ++ [fallback_selector]
  | None => selectors
  end.

(** The f-string [f"{field_name}_{id(soup)}"]. *)
Definition cache_key (field_name : string) (soup : Dom.Tag) : string :=
  field_name +:+ "_" +:+ pretty (Dom.obj_id soup).

(** The [for selector in selectors] loop of [test_selector].  The
    selectors tried are the constants above, all of them valid CSS, so
    [select] does not raise and the [except] branch is not taken. *)
Fixpoint first_matching (soup : Dom.Tag) (selectors : list string)
    : option string :=
  match selectors with
  | [] => None
  | selector :: rest =>
      match Dom.select soup selector with
      | _ :: _ => Some selector
      | [] => first_matching soup rest
      end
  end.

(** [SelectorMatcher.test_selector], on the dictionary
    [_cached_selectors] of the matcher. *)
Definition test_selector (_cached_selectors : gmap string string)
    (soup : Dom.Tag) (field_name : string)
    : option string * gmap string string :=
  let key := cache_key field_name soup in
  match _cached_selectors !! key with
  | Some selector => (Some selector, _cached_selectors)
  | None =>
      match first_matching soup (get_all_selectors field_name) with
      | Some selector => (Some selector, <[key := selector]> _cached_selectors)
      | None => (None, _cached_selectors)
      end
  end.

Definition NAVIGATION_next_page : list string :=
  [".pagination .next"; ".next-page"; "[rel='next']"]%string.

End Selectors.

(** ** core/parser.py *)

Module Parser.
Import PyStr.

Inductive PriceType := FIXED | NEGOTIABLE | HOURLY | RANGE.

(** *** [Project] of core/models.py

    The fields that [extract_project_data] sets, [currency] and [status]
    apart, which it sets to constants.  A date is counted in microseconds
    from [datetime.min].  The fields it does not set keep their defaults. *)
Record Project := mkProject {
  external_id : pystr;
  title : pystr;
  description : pystr;
  price : option Q;
  price_type : PriceType;
  author : pystr;
  category : pystr;
  date_created : Z;
  responses_count : Z;
  views_count : Z;
  link : pystr;
  tags : list pystr;
  skills_required : list pystr
}.

(** [Field(min_length=a)] and [Field(max_length=b)] on a [str]. *)
Definition min_length (a : nat) (v : pystr) : bool := (a <=? length v)%nat.
Definition max_length (b : nat) (v : pystr) : bool := (length v <=? b)%nat.

(** The validators; [None] stands for the [ValueError] they raise. *)
Definition validate_external_id (v : pystr) : option pystr :=
  match v with
  | [] => None
  | _ => if (length (strip v) =? 0)%nat then None else Some (strip v)
  end.

Definition validate_title (v : pystr) : option pystr :=
  let v := strip v in
  if (length v <? 3)%nat then None else Some v.

Definition validate_description (v : pystr) : option pystr :=
  let v := strip v in
  if (length v <? 10)%nat then None else Some v.

(** [validate_price] on what [_parse_price] gives: [None] stays, a float
    becomes the [Decimal] of its text, the same number. *)
Definition validate_price (v : option Q) : option Q := v.

Definition validate_author (v : pystr) : option pystr :=
  let v := strip v in
  if (length v <? 2)%nat then None else Some v.

(** [validate_lists] on a list of [str]. *)
Definition validate_lists (v : list pystr) : list pystr :=
  map strip
      (List.filter (fun item => negb (length (strip item) =? 0)%nat) v).

Section WithHttpUrl.
(** The validation of pydantic's [HttpUrl] type: the URL it keeps for a
    text, or [None] when it rejects the text. *)
Variable HttpUrl : pystr -> option pystr.

(** [Project(...)] as [extract_project_data] calls it: the constraints of
    the fields, then the validators.  [None] stands for the
    [ValidationError] that any failure raises. *)
Definition Project_new (external_id title description : pystr)
    (price : option Q) (price_type : PriceType) (author category : pystr)
    (date_created responses_count views_count : Z) (link : pystr)
    (tags skills_required : list pystr) : option Project :=
  match validate_external_id external_id with
  | None => None
  | Some external_id =>
  match (if min_length 1 title && max_length 500 title
         then validate_title title else None) with
  | None => None
  | Some title =>
  match (if min_length 1 description
         then validate_description description else None) with
  | None => None
  | Some description =>
  match (if max_length 255 author then validate_author author else None) with
  | None => None
  | Some author =>
  match HttpUrl link with
  | None => None
  | Some link =>
      if max_length 255 category
         && (0 <=? responses_count)%Z && (0 <=? views_count)%Z
      then Some (mkProject external_id title description
                   (validate_price price) price_type author category
                   date_created responses_count views_count link
                   (validate_lists tags) (validate_lists skills_required))
      else None
  end end end end end.
End WithHttpUrl.

(** What a parser object and the module-level [selector_matcher] keep
    between calls: the two selector caches. *)
Record ParserState := mkParserState {
  _selector_cache : gmap string string;
  _cached_selectors : gmap string string
}.

(** [KworkParser.__init__], in a process that has just imported
    [core.selectors]. *)
Definition init : ParserState := mkParserState ∅ ∅.

Definition base_url : pystr := U "https://kwork.ru".

Definition _get_working_selector (soup : Dom.Tag) (field_name : string)
    (st : ParserState) : option string * ParserState :=
  let cache_key := Selectors.cache_key field_name soup in
  match _selector_cache st !! cache_key with
  | Some selector => (Some selector, st)
  | None =>
      let '(working_selector, matcher_cache) :=
        Selectors.test_selector (_cached_selectors st) soup field_name in
      match working_selector with
      | Some selector =>
          if String.eqb selector EmptyString then
            (working_selector, mkParserState (_selector_cache st) matcher_cache)
          else
            (working_selector,
             mkParserState (<[cache_key := selector]> (_selector_cache st))
                           matcher_cache)
      | None => (None, mkParserState (_selector_cache st) matcher_cache)
      end
  end.

Definition _extract_text_safe (element : option Dom.Tag) (default : pystr)
    : pystr :=
  match element with
  | None => default
  | Some e =>
      let text := Dom.text e in
      let text := strip (collapse_spaces (length text) text) in
      match text with
      | [] => default
      | _ => text
      end
  end.

Section WithUrljoin.
(** [urllib.parse.urljoin] *)
Variable urljoin : pystr -> pystr -> pystr.

Definition _extract_link_safe (element : option Dom.Tag)
    (base_url : option pystr) : option pystr :=
  match element with
  | None => None
  | Some e =>
      match Dom.get e "href" with
      | None | Some [] => None
      | Some href =>
          match base_url with
          | Some (c :: base) =>
              if negb (startswith (U "http://") href
                       || startswith (U "https://") href)
              then Some (urljoin (c :: base) href)
              else Some href
          | _ => Some href
          end
      end
  end.
End WithUrljoin.

Definition negotiable_keywords : list pystr :=
  [U "договорная"; U "по договоренности"; U "договор";
   U "negotiable"; U "tbd"; U "обсуждается"].

(** The character class of the pattern [[\d\s,\.]+]. *)
Definition price_char (c : N) : bool :=
  (is_digit c || is_space c || (c =? 44) || (c =? 46))%N.

Definition _parse_price (price_text : pystr) : option Q * PriceType :=
  match price_text with
  | [] => (None, NEGOTIABLE)
  | _ =>
      let price_text := strip (lower price_text) in
      if existsb (fun keyword => contains keyword price_text)
                 negotiable_keywords
      then (None, NEGOTIABLE)
      else
        match search_run price_char price_text with
        | None => (None, NEGOTIABLE)
        | Some price_match =>
            let price_str :=
              replace_char 44 [46%N] (replace_char 32 [] price_match) in
            match float_of_str price_str with
            | None => (None, NEGOTIABLE)
            | Some price =>
                if contains (U "час") price_text
                   || contains (U "hour") price_text
                then (Some price, HOURLY)
                else if contains (U "-") price_text
                        || contains (U "от") price_text
                        || contains (U "до") price_text
                then (Some price, RANGE)
                else (Some price, FIXED)
            end
        end
  end.

Definition _parse_number (text : pystr) : Z :=
  match text with
  | [] => 0%Z
  | _ =>
      match search_run is_digit (replace_char 32 [] text) with
      | Some number_match => int_of_digits number_match
      | None => 0%Z
      end
  end.

(** The first match of [/(\d+)] in a link: the digits after the first
    slash that is followed by a digit. *)
Fixpoint search_slash_digits (s : pystr) : option pystr :=
  match s with
  | [] => None
  | c :: s' =>
      if (c =? 47)%N then
        match span is_digit s' with
        | ([], _) => search_slash_digits s'
        | (digits, _) => Some digits
        end
      else search_slash_digits s'
  end.

(** *** Dates *)

(** [datetime.utcnow() - timedelta(...)] for a span of [n] units of
    [unit] microseconds; [None] stands for the [OverflowError] of a span
    of more than 999999999 days or of a date before [datetime.min]. *)
Definition utcnow_minus (utcnow unit n : Z) : option Z :=
  let delta := (n * unit)%Z in
  if (999999999 <? delta / 86400000000)%Z then None
  else if (utcnow - delta <? 0)%Z then None
  else Some (utcnow - delta)%Z.

(** [_parse_datetime]; [utcnow] is what [datetime.utcnow()] returns.  An
    exception inside is caught and gives [None], as does a text that has
    no relative date: the patterns for absolute dates set nothing. *)
Definition _parse_datetime (utcnow : Z) (time_text : pystr) : option Z :=
  match time_text with
  | [] => None
  | _ =>
      let time_text := strip (lower time_text) in
      if contains (U "минут") time_text then
        match search_run is_digit time_text with
        | Some minutes => utcnow_minus utcnow 60000000 (int_of_digits minutes)
        | None => None
        end
      else if contains (U "час") time_text then
        match search_run is_digit time_text with
        | Some hours => utcnow_minus utcnow 3600000000 (int_of_digits hours)
        | None => None
        end
      else if contains (U "день") time_text || contains (U "дня") time_text then
        match search_run is_digit time_text with
        | Some days => utcnow_minus utcnow 86400000000 (int_of_digits days)
        | None => None
        end
      else if contains (U "вчера") time_text then
        utcnow_minus utcnow 86400000000 1
      else if contains (U "сегодня") time_text then Some utcnow
      else None
  end.

(** *** [extract_project_data] *)

(** [project_element.select_one(selector) if selector else None] *)
Definition select_one_if (project_element : Dom.Tag)
    (selector : option string) : option Dom.Tag :=
  match selector with
  | Some (String c sel) => Dom.select_one project_element (String c sel)
  | _ => None
  end.

(** [[self._extract_text_safe(t) for t in elements
      if self._extract_text_safe(t)]] *)
Definition texts_of (elements : list Dom.Tag) : list pystr :=
  List.filter (fun text => negb (length text =? 0)%nat)
    (map (fun element => _extract_text_safe (Some element) []) elements).

Section WithProcess.
(** The hash secret of the running interpreter. *)
Variable secret : PyHash.HashSecret.
Variable urljoin : pystr -> pystr -> pystr.
Variable HttpUrl : pystr -> option pystr.
(** What [datetime.utcnow()] returns during the call. *)
Variable utcnow : Z.

(** [extract_project_data]; [None] is [return None], be it one of the two
    early ones or the one of the handler, which a [ValidationError] of
    [Project(...)] reaches. *)
Definition extract_project_data (project_element : Dom.Tag)
    (page_url : pystr) (st : ParserState) : option Project * ParserState :=
  let external_id :=
    match Dom.get project_element "data-want-id" with
    | Some (c :: cs) => Some (c :: cs)
    | _ => None
    end in
  let '(title_selector, st) :=
    _get_working_selector project_element "project_title" st in
  let title_element := select_one_if project_element title_selector in
  match title_element with
  | None => (None, st)
  | Some _ =>
      let title := _extract_text_safe title_element [] in
      match _extract_link_safe urljoin title_element (Some base_url) with
      | None => (None, st)
      | Some project_link =>
          let external_id :=
            match external_id with
            | Some id => id
            | None =>
                match search_slash_digits project_link with
                | Some digits => digits
                | None => str_of_Z (PyHash.hash secret project_link)
                end
            end in
          let '(desc_selector, st) :=
            _get_working_selector project_element "description" st in
          let desc_element := select_one_if project_element desc_selector in
          let description :=
            _extract_text_safe desc_element (U "Описание отсутствует") in
          let '(price_selector, st) :=
            _get_working_selector project_element "price_container" st in
          let price_element := select_one_if project_element price_selector in
          let price_text := _extract_text_safe price_element [] in
          let '(price, price_type) := _parse_price price_text in
          let '(author_selector, st) :=
            _get_working_selector project_element "author_name" st in
          let author_element := select_one_if project_element author_selector in
          let author := _extract_text_safe author_element (U "Аноним") in
          let '(category_selector, st) :=
            _get_working_selector project_element "category" st in
          let category_element :=
            select_one_if project_element category_selector in
          let category := _extract_text_safe category_element [] in
          let '(responses_selector, st) :=
            _get_working_selector project_element "responses_count" st in
          let responses_element :=
            select_one_if project_element responses_selector in
          let responses_count :=
            _parse_number (_extract_text_safe responses_element []) in
          let '(views_selector, st) :=
            _get_working_selector project_element "views_count" st in
          let views_element := select_one_if project_element views_selector in
          let views_count :=
            _parse_number (_extract_text_safe views_element []) in
          let '(time_selector, st) :=
            _get_working_selector project_element "time_posted" st in
          let time_element := select_one_if project_element time_selector in
          let time_text := _extract_text_safe time_element [] in
          let date_created :=
            match _parse_datetime utcnow time_text with
            | Some date => date
            | None => utcnow
            end in
          let '(tags_selector, st) :=
            _get_working_selector project_element "tags" st in
          let tags :=
            match tags_selector with
            | Some (String c sel) =>
                texts_of (Dom.select project_element (String c sel))
            | _ => []
            end in
          let '(skills_selector, st) :=
            _get_working_selector project_element "skills" st in
          let skills :=
            match skills_selector with
            | Some (String c sel) =>
                texts_of (Dom.select project_element (String c sel))
            | _ => []
            end in
          (Project_new HttpUrl external_id title description price price_type
             author category date_created responses_count views_count
             project_link tags skills,
           st)
      end
  end.
End WithProcess.

(** *** Pagination *)

Record PaginationInfo := mkPagination {
  current_page : Z;
  total_pages : Z;
  has_next : bool;
  next_page_url : option pystr;
  total_projects : Z
}.

(** The loops of [_extract_pagination_info] that take the first selector
    whose element carries a positive number. *)
Fixpoint first_positive_number (soup : Dom.Tag) (selectors : list string)
    : option Z :=
  match selectors with
  | [] => None
  | selector :: rest =>
      match Dom.select_one soup selector with
      | Some element =>
          let n := _parse_number (_extract_text_safe (Some element) []) in
          if (0 <? n)%Z then Some n else first_positive_number soup rest
      | None => first_positive_number soup rest
      end
  end.

Fixpoint first_page_count (soup : Dom.Tag) (selectors : list string)
    : option Z :=
  match selectors with
  | [] => None
  | selector :: rest =>
      match Dom.select soup selector with
      | [] => first_page_count soup rest
      | page_elements =>
          let page_numbers :=
            List.filter (fun n => (0 <? n)%Z)
              (map (fun el => _parse_number (_extract_text_safe (Some el) []))
                   page_elements) in
          match page_numbers with
          | [] => first_page_count soup rest
          | n :: ns => Some (fold_left Z.max ns n)
          end
      end
  end.

Section WithUrljoin2.
Variable urljoin : pystr -> pystr -> pystr.

Fixpoint first_next_link (soup : Dom.Tag) (selectors : list string)
    : option pystr :=
  match selectors with
  | [] => None
  | selector :: rest =>
      match Dom.select_one soup selector with
      | Some next_element =>
          match _extract_link_safe urljoin (Some next_element)
                  (Some base_url) with
          | Some next_url => Some next_url
          | None => first_next_link soup rest
          end
      | None => first_next_link soup rest
      end
  end.

Definition _extract_pagination_info (soup : Dom.Tag) : PaginationInfo :=
  let current :=
    match first_positive_number soup
            [".pagination .current"; ".active"; ".page-current"]%string with
    | Some n => n
    | None => 1%Z
    end in
  let total :=
    match first_page_count soup
            [".pagination .page-numbers"; ".pagination a"; ".page-link"]%string with
    | Some n => n
    | None => 1%Z
    end in
  let next_url := first_next_link soup Selectors.NAVIGATION_next_page in
  let has_next :=
    match next_url with
    | Some _ => true
    | None => (current <? total)%Z
    end in
  let total_count :=
    match first_positive_number soup
            [".wants-found-count"; ".total-count"; ".results-count"]%string with
    | Some n => n
    | None => 0%Z
    end in
  mkPagination current total has_next next_url total_count.
End WithUrljoin2.

(** *** The pagination walker *)

Section Walker.
(** [max_pages] *)
Variable max_pages : option Z.
(** What [parse_single_page] returns for a page number: the projects
    and the pagination dictionary, which is empty ([None]) when the
    page could not be fetched or parsed. *)
Variable parse_single_page : Z -> list Project * option PaginationInfo.
(** [project_repository.exists_project], which catches its own
    errors and so always answers. *)
Variable project_repository : option (pystr -> bool).

(** [max_pages and current_page > max_pages] *)
Definition limit_reached (current_page : Z) : bool :=
  match max_pages with
  | Some n => negb (n =? 0)%Z && (n <? current_page)%Z
  | None => false
  end.

(** [pagination_info.get("has_next", False)] *)
Definition get_has_next (pagination_info : option PaginationInfo) : bool :=
  match pagination_info with
  | Some info => has_next info
  | None => false
  end.

Definition filter_new (projects : list Project) : list Project :=
  match project_repository with
  | Some exists_project =>
      List.filter (fun project => negb (exists_project (external_id project)))
                  projects
  | None => projects
  end.

(** The stream of batches that [parse_all_pages] yields from
    [current_page] on, to a consumer that reads it to the end, and
    whether the generator has ended within [fuel] iterations of its
    [while True] loop. *)
Fixpoint parse_all_pages_from (fuel : nat) (current_page : Z)
    : list (list Project) * bool :=
  match fuel with
  | O => ([], false)
  | S fuel' =>
      if limit_reached current_page then ([], true)
      else
        let '(projects, pagination_info) := parse_single_page current_page in
        match projects, (current_page =? 1)%Z with
        | [], true => ([], true)
        | _, _ =>
            let projects := filter_new projects in
            if negb (get_has_next pagination_info) then ([projects], true)
            else
              let '(batches, ended) :=
                parse_all_pages_from fuel' (current_page + 1) in
              (projects :: batches, ended)
        end
  end.

Definition parse_all_pages (fuel : nat) : list (list Project) * bool :=
  parse_all_pages_from fuel 1.
End Walker.

End Parser.

(** * Specification vocabulary and sample inputs *)

Import RateLimiter.

(** [c] keeps the property [P] of the world, whether it returns or raises. *)
Definition preserves (P : World -> Prop) {A} (c : M A) : Prop :=
  forall w, P w -> P (snd (c w)).

Definition delay_inv (st : RateLimiter) : Prop :=
  min_delay (config st) <= current_delay st /\
  current_delay st <= max_delay (config st).

(** What the adaptive feedback needs from a configuration. *)
Definition backoff_sane (cfg : RateLimitConfig) : Prop :=
  adaptive cfg = true -> 0 <= min_delay cfg /\ 1 <= backoff_factor cfg.

Definition delay_world (cfg : RateLimitConfig) (w : World) : Prop :=
  config (self w) = cfg /\ delay_inv (self w).

(** A configuration whose backoff factor is below one. *)
Definition halving_config : RateLimitConfig :=
  mkRateLimitConfig 1 30 1000 5 true 0.5 300 1 60.

(** The timestamps of [w] that are at most [horizon] old at time [now]. *)
Definition calls_within (horizon now : Q) (w : list Q) : list Q :=
  List.filter (fun t => Qle_bool (now - t) horizon) w.

(** What every reachable world satisfies: each window is the tail of the
    next larger one, timestamps are recorded in clock order and none lies
    in the future. *)
Definition timeline (w : World) : Prop :=
  second_window (self w) `suffix_of` minute_window (self w) /\
  minute_window (self w) `suffix_of` hour_window (self w) /\
  StronglySorted Qle (hour_window (self w)) /\
  Forall (fun t => t <= clock w) (hour_window (self w)).

(** The final [if delays: await asyncio.sleep(max(delays))]. *)
Definition sleep_longest (delays : list Q) : M unit :=
  match delays with
  | [] => ret tt
  | d :: ds => sleep (py_max_list d ds)
  end.

(** The windows as [_cleanup_windows] leaves them. *)
Definition cleaned (now : Q) (st : RateLimiter) : RateLimiter :=
  set_windows (drop_old 1 now (second_window st))
              (drop_old 60 now (minute_window st))
              (drop_old 3600 now (hour_window st)) st.

(** Thirty calls, one every two seconds, on a fresh limiter with the
    default configuration (one call per second, thirty per minute). *)
Definition busy_minute : list (Q * Op) :=
  (0, OpAcquire) :: repeat (1.5, OpAcquire) 29.

(** Two calls per second, pacing of a tenth of a second. *)
Definition burst_config : RateLimitConfig :=
  mkRateLimitConfig 2 60 2000 5 true 2 300 0.1 30.


(** A number within the range of the floats: it does not round to an
    infinity. *)
Definition in_float_range (x : Q) : Prop :=
  - Retry.FLOAT_OVERFLOW < x /\ x < Retry.FLOAT_OVERFLOW.

(** The power that the delay of attempt [k] takes can be computed: the
    exponent converts to a float and the power is within the range of the
    floats. *)
Definition power_in_range (cfg : Retry.RetryConfig) (k : Z) : Prop :=
  in_float_range (inject_Z (k - 1)) /\
  in_float_range (Retry.exponential_base cfg ^ (k - 1)).



(** An operation that always fails with the status it is given. *)
Definition always_status (c : Z) : nat -> Retry.Result unit :=
  fun _ => Retry.Err (Retry.mkException Retry.C_ClientResponseError c "HTTP error").

Definition always_invalid : nat -> Retry.Result unit :=
  fun _ => Retry.Err (Retry.mkException Retry.C_ValueError 0 "invalid").

(** The platform hint that belongs to an operating-system family, as
    [BrowserProfile.get_headers] assigns it. *)
Definition platform_hint (os : UserAgents.OsType) : option string :=
  match os with
  | UserAgents.windows => Some (quoted "Windows")
  | UserAgents.macos => Some (quoted "macOS")
  | UserAgents.linux => Some (quoted "Linux")
  | _ => None
  end.

Definition mac_chrome_120 : string :=
  "Mozilla/5.0 (Macintosh; Intel Mac OS X 10_15_7) AppleWebKit/537.36 (KHTML, like Gecko) Chrome/120.0.0.0 Safari/537.36".

Definition sample_project (id : string) : Parser.Project :=
  Parser.mkProject (PyStr.U id) (PyStr.U "Landing page")
    (PyStr.U "A landing page for a bakery") None Parser.NEGOTIABLE
    (PyStr.U "baker") [] 0 0 0
    (PyStr.U "https://kwork.ru/projects/" ++ PyStr.U id) [] [].

(** A site with one page of two listings and no next page. *)
Definition single_page_site (page : Z)
    : list Parser.Project * option Parser.PaginationInfo :=
  if (page =? 1)%Z then
    ([sample_project "101"; sample_project "102"],
     Some (Parser.mkPagination 1 1 false None 2))
  else ([], None).

Definition leaf (id : Z) (attrs : list (string * PyStr.pystr)) (text : PyStr.pystr)
    : Dom.Tag :=
  Dom.mkTag id attrs text (fun _ => []).

(** A listing card without [data-want-id] whose title links to a page
    that has no number in its path. *)
Definition slug_link : PyStr.pystr :=
  PyStr.U "https://kwork.ru/projects/view/landing-page".

Definition slug_card : Dom.Tag :=
  Dom.mkTag 4302 [] (PyStr.U "Landing page")
    (fun selector =>
       if String.eqb selector ".wants-card__header-title a"
       then [leaf 4303 [("href"%string, slug_link)] (PyStr.U "Landing page")]
       else []).

(** A validation of links that keeps the [https] links as they are and
    rejects every other text. *)
Definition accepts_https (url : PyStr.pystr) : option PyStr.pystr :=
  if PyStr.startswith (PyStr.U "https://") url then Some url else None.

(** The page container of a first document, whose cards carry the primary
    class, and of a later document of a changed layout, whose cards are
    only found by the fallback selector.  The first object has been freed
    when the second is created, at the same address. *)
Definition old_layout_container : Dom.Tag :=
  Dom.mkTag 140230 [] (PyStr.U "Landing page")
    (fun selector =>
       if String.eqb selector ".want-card"
       then [leaf 140231 [] (PyStr.U "Landing page")]
       else []).

Definition new_layout_container : Dom.Tag :=
  Dom.mkTag 140230 [] (PyStr.U "Logo design")
    (fun selector =>
       if String.eqb selector "[data-want-id]"
       then [leaf 140232 [("data-want-id"%string, PyStr.U "77")] (PyStr.U "Logo design")]
       else []).

(** [self.is_blocked and time.time() < self.block_until] *)
Definition blocked (st : RateLimiter) (now : Q) : bool :=
  is_blocked st && Qlt_bool now (block_until st).

(** The baseline delay that [_apply_delay] sleeps. *)
Definition pacing (st : RateLimiter) : Q :=
  if Qlt_bool 0 (current_delay st) then current_delay st else 0.

(** [c] returns, in whatever world it is started. *)
Definition returns {A} (c : M A) : Prop :=
  forall w, exists a, fst (c w) = Returned a.

(** A limiter that takes no feedback. *)
Definition fixed_pace_config : RateLimitConfig :=
  mkRateLimitConfig 1 30 1000 5 false 2 300 1 60.

(** A limiter without per-second budget. *)
Definition zero_rate_config : RateLimitConfig :=
  mkRateLimitConfig 0 30 1000 5 true 2 300 0.5 60.

(** What a limiter that ignores feedback keeps for ever. *)
Definition fixed_pace (cfg : RateLimitConfig) (w : World) : Prop :=
  config (self w) = cfg /\
  current_delay (self w) = min_delay cfg /\
  consecutive_errors (self w) = 0%Z /\
  is_blocked (self w) = false.

(** An operation that fails twice with a gateway error and then returns. *)
Definition third_time_lucky : nat -> Retry.Result Z :=
  fun i =>
    if (i <? 2)%nat
    then Retry.Err (Retry.mkException Retry.C_ClientResponseError 502 "Bad Gateway")
    else Retry.Ok 200%Z.

(** A configuration that allows no attempt. *)
Definition no_attempt_config : Retry.RetryConfig :=
  Retry.mkRetryConfig 0 1 60 2 true 1.

(** A delay that [retry_async] may sleep under a configuration. *)
Definition delay_in_range (cfg : Retry.RetryConfig) (d : Q) : Prop :=
  0 <= d /\ d <= 1.1 * Retry.max_delay cfg.

(** A rotator in use: it has a pool, and its active agent is from it. *)
Definition rotator_ok (pool : list string) (r : UserAgents.UserAgentRotator)
    : Prop :=
  UserAgents.agents_pool r = pool /\ pool <> [] /\
  forall a, UserAgents.current_agent r = Some a -> In a pool.

(** A rotator that changes its agent every three requests. *)
Definition three_request_config : UserAgents.UserAgentConfig :=
  UserAgents.mkUserAgentConfig 3 true true true false.

(** Requests that do not force a rotation. *)
Definition plain_requests (draws : list nat) : list (bool * nat) :=
  map (fun draw => (false, draw)) draws.

(** The operating-system family that [generate_dynamic_user_agent] writes
    for the name it is given. *)
Definition requested_os (os_type : string) : UserAgents.OsType :=
  if String.eqb os_type "windows" then UserAgents.windows
  else if String.eqb os_type "macos" then UserAgents.macos
  else UserAgents.linux.

(** A rotator of configuration [cfg] at some point of its use: the agent
    it serves is the one it used last. *)
Definition rotator_of (cfg : UserAgents.UserAgentConfig)
    (r : UserAgents.UserAgentRotator) : Prop :=
  UserAgents.config r = cfg /\
  UserAgents.agents_pool r = UserAgents._build_agents_pool cfg /\
  forall a, UserAgents.current_agent r = Some a ->
            exists l, UserAgents.used_agents r = l ++ [a].

(** A sequential rotator whose pool starts with the Chrome agents. *)
Definition sequential_config : UserAgents.UserAgentConfig :=
  UserAgents.mkUserAgentConfig 1 false true true true.

(** The browsers for which a profile sends client hints. *)
Definition sends_client_hints (b : UserAgents.BrowserType) : bool :=
  match b with
  | UserAgents.chrome | UserAgents.edge => true
  | _ => false
  end.

(** The browser that [generate_dynamic_user_agent] writes for the name it
    is given. *)
Definition requested_browser (browser : string) : UserAgents.BrowserType :=
  if String.eqb browser "firefox" then UserAgents.firefox
  else UserAgents.chrome.

(** A site whose every page has one listing and announces a next page. *)
Definition endless_site (page : Z)
    : list Parser.Project * option Parser.PaginationInfo :=
  ([sample_project "101"],
   Some (Parser.mkPagination page (page + 1) true None 0)).

(** A server that is down for the first request and has no such page
    afterwards. *)
Definition recovering_server : nat -> Retry.Result Retry.Response :=
  fun i =>
    if (i <? 1)%nat
    then Retry.Ok (Retry.mkResponse 503 "Service Unavailable" None)
    else Retry.Ok (Retry.mkResponse 404 "Not Found" None).

(** * Properties *)

(** ** Comparisons and the Python [min]/[max] *)

Lemma Qlt_bool_true (a b : Q) : Qlt_bool a b = true <-> a < b.
Proof.
  unfold Qlt_bool. rewrite negb_true_iff.
  split; intros H.
  - apply Qnot_le_lt. intros Hle. apply Qle_bool_iff in Hle. congruence.
  - destruct (Qle_bool b a) eqn:E; [|reflexivity].
    apply Qle_bool_iff in E. lra.
Qed.

Lemma Qlt_bool_false (a b : Q) : Qlt_bool a b = false <-> b <= a.
Proof.
  unfold Qlt_bool. rewrite negb_false_iff. apply Qle_bool_iff.
Qed.

Lemma Qle_bool_false (a b : Q) : Qle_bool a b = false <-> b < a.
Proof.
  split; intros H.
  - apply Qnot_le_lt. intros Hle. apply Qle_bool_iff in Hle. congruence.
  - destruct (Qle_bool a b) eqn:E; [|reflexivity].
    apply Qle_bool_iff in E. lra.
Qed.

Ltac case_Qlt a b :=
  let E := fresh "E" in
  destruct (Qlt_bool a b) eqn:E;
  [apply Qlt_bool_true in E | apply Qlt_bool_false in E].

Ltac case_Qle a b :=
  let E := fresh "E" in
  destruct (Qle_bool a b) eqn:E;
  [apply Qle_bool_iff in E | apply Qle_bool_false in E].

Lemma py_min_Qmin (a b : Q) : py_min a b == Qmin a b.
Proof.
  unfold py_min. case_Qlt b a.
  - rewrite Q.min_r; lra.
  - rewrite Q.min_l; lra.
Qed.


Lemma py_min_le_l (a b : Q) : py_min a b <= a.
Proof. unfold py_min. case_Qlt b a; lra. Qed.

Lemma py_min_le_r (a b : Q) : py_min a b <= b.
Proof. unfold py_min. case_Qlt b a; lra. Qed.

Lemma py_min_glb (a b c : Q) : c <= a -> c <= b -> c <= py_min a b.
Proof. unfold py_min. case_Qlt b a; lra. Qed.

Lemma py_max_ge_l (a b : Q) : a <= py_max a b.
Proof. unfold py_max. case_Qlt a b; lra. Qed.

Lemma py_max_ge_r (a b : Q) : b <= py_max a b.
Proof. unfold py_max. case_Qlt a b; lra. Qed.

Lemma py_max_lub (a b c : Q) : a <= c -> b <= c -> py_max a b <= c.
Proof. unfold py_max. case_Qlt a b; lra. Qed.

Lemma py_max_list_ge_head (xs : list Q) : forall x, x <= py_max_list x xs.
Proof.
  induction xs as [|y ys IH]; intros x; simpl.
  - lra.
  - specialize (IH (py_max x y)). pose proof (py_max_ge_l x y). lra.
Qed.

Lemma py_max_list_ge (xs : list Q) :
  forall x y, In y (x :: xs) -> y <= py_max_list x xs.
Proof.
  induction xs as [|z zs IH]; intros x y Hin; simpl.
  - destruct Hin as [->|[]]. lra.
  - pose proof (py_max_list_ge_head zs (py_max x z)) as Hhead.
    destruct Hin as [->|[->|Hin]].
    + pose proof (py_max_ge_l y z). lra.
    + pose proof (py_max_ge_r x y). lra.
    + apply IH. right. exact Hin.
Qed.

(** ** RateLimiter: invariants of the world *)

Lemma preserves_ret P {A} (a : A) : preserves P (ret a).
Proof. intros w H. exact H. Qed.

Lemma preserves_raise P {A} (e : PyExn) : preserves P (@raise A e).
Proof. intros w H. exact H. Qed.

Lemma preserves_bind P {A B} (c : M A) (k : A -> M B) :
  preserves P c -> (forall a, preserves P (k a)) -> preserves P (bind c k).
Proof.
  intros Hc Hk w H. unfold bind.
  specialize (Hc w H). destruct (c w) as [[a|e] w']; simpl in *.
  - apply Hk. exact Hc.
  - exact Hc.
Qed.

Lemma preserves_time_time P : preserves P time_time.
Proof. intros w H. exact H. Qed.

Lemma preserves_get_self P : preserves P get_self.
Proof. intros w H. exact H. Qed.

Lemma preserves_if P {A} (b : bool) (c1 c2 : M A) :
  preserves P c1 -> preserves P c2 -> preserves P (if b then c1 else c2).
Proof. destruct b; auto. Qed.

Create HintDb preserves.
#[local] Hint Resolve preserves_ret preserves_raise preserves_time_time
  preserves_get_self : preserves.

Ltac step_preserves :=
  repeat first
    [ solve [auto with preserves]
    | apply preserves_bind; [|intros ?]
    | apply preserves_if
    | match goal with
      | |- preserves _ (match ?d with [] => _ | _ :: _ => _ end) => destruct d
      end ].

(** *** The adaptive delay stays between its floor and its ceiling *)

Lemma Qmult_ge_self (c b : Q) : 0 <= c -> 1 <= b -> c <= c * b.
Proof.
  intros Hc Hb.
  assert (0 <= c * (b - 1)) by (apply Qmult_le_0_compat; lra).
  lra.
Qed.

Lemma Qdiv_le_self (c b : Q) : 0 <= c -> 1 <= b -> c / b <= c.
Proof.
  intros Hc Hb. apply Qle_shift_div_r; [lra|].
  apply Qmult_ge_self; assumption.
Qed.

Lemma Qdiv_nonneg (c b : Q) : 0 <= c -> 1 <= b -> 0 <= c / b.
Proof.
  intros Hc Hb. apply Qle_shift_div_l; [lra|]. lra.
Qed.

Lemma delay_world_sleep cfg d : preserves (delay_world cfg) (sleep d).
Proof. intros w H. unfold sleep; simpl. destruct (Qlt_bool 0 d); exact H. Qed.

Lemma delay_world_modify cfg (f : RateLimiter -> RateLimiter) :
  (forall s, config (f s) = config s) ->
  (forall s, current_delay (f s) = current_delay s) ->
  preserves (delay_world cfg) (modify f).
Proof.
  intros Hc Hd [st t] [Hcfg [Hlo Hhi]]. unfold delay_world, delay_inv in *.
  simpl in *. rewrite Hc, Hd. auto.
Qed.

#[local] Hint Resolve delay_world_sleep : preserves.
#[local] Hint Extern 2 (preserves (delay_world _) (modify _)) =>
  (apply delay_world_modify; intros; reflexivity) : preserves.

Lemma delay_world_wait_if_blocked cfg : preserves (delay_world cfg) _wait_if_blocked.
Proof. unfold _wait_if_blocked. step_preserves. Qed.

Lemma delay_world_limit_delay cfg h c win now ds :
  preserves (delay_world cfg) (limit_delay h c win now ds).
Proof.
  unfold limit_delay. destruct (Qle_bool c (len win)); [|auto with preserves].
  destruct win; auto with preserves.
Qed.

#[local] Hint Resolve delay_world_limit_delay : preserves.

Lemma delay_world_enforce cfg : preserves (delay_world cfg) _enforce_rate_limits.
Proof.
  unfold _enforce_rate_limits, _cleanup_windows. step_preserves.
Qed.

Lemma delay_world_acquire cfg : preserves (delay_world cfg) acquire.
Proof.
  unfold acquire, _add_request, _apply_delay.
  pose proof (delay_world_wait_if_blocked cfg).
  pose proof (delay_world_enforce cfg).
  step_preserves.
Qed.

Lemma delay_world_increase cfg :
  0 <= min_delay cfg -> 1 <= backoff_factor cfg ->
  preserves (delay_world cfg) _increase_delay.
Proof.
  intros Hmin Hbf [st t] [Hcfg [Hlo Hhi]].
  unfold delay_world, delay_inv in *. simpl in *. subst cfg.
  split; [reflexivity|]. split.
  - apply py_min_glb; [|lra].
    pose proof (Qmult_ge_self (current_delay st) (backoff_factor (config st))).
    lra.
  - apply py_min_le_r.
Qed.

Lemma delay_world_decrease cfg :
  0 <= min_delay cfg -> 1 <= backoff_factor cfg ->
  preserves (delay_world cfg) _decrease_delay.
Proof.
  intros Hmin Hbf [st t] [Hcfg [Hlo Hhi]].
  unfold delay_world, delay_inv, _decrease_delay, bind, get_self in *.
  simpl in *. subst cfg.
  destruct (Qlt_bool (min_delay (config st)) (current_delay st)); simpl; [|auto].
  destruct (Qeq_bool (backoff_factor (config st)) 0); simpl; [auto|].
  split; [reflexivity|]. split.
  - apply py_max_ge_r.
  - apply py_max_lub; [|lra].
    pose proof (Qdiv_le_self (current_delay st) (backoff_factor (config st))).
    lra.
Qed.

(** Reduces a goal about the world after [c w] to [preserves P c]. *)
Ltac by_preserves w H :=
  match goal with
  | |- ?P (snd (?c w)) =>
      let Hc := fresh "Hc" in
      assert (preserves P c) as Hc; [|exact (Hc w H)]
  end.

Lemma delay_world_report_error cfg status :
  backoff_sane cfg -> preserves (delay_world cfg) (report_error status).
Proof.
  intros Hsane w H. unfold report_error.
  unfold bind at 1. unfold get_self at 1. cbv beta iota.
  destruct (adaptive (config (self w))) eqn:Ead; cbn [negb]; [|exact H].
  destruct H as [Hcfg Hinv]. rewrite Hcfg in Ead.
  destruct (Hsane Ead) as [Hmin Hbf].
  assert (delay_world cfg w) as H by (split; assumption).
  by_preserves w H.
  unfold _apply_temporary_block.
  pose proof (delay_world_increase cfg Hmin Hbf).
  step_preserves.
Qed.

Lemma delay_world_report_success cfg :
  backoff_sane cfg -> preserves (delay_world cfg) report_success.
Proof.
  intros Hsane w H. unfold report_success.
  unfold bind at 1. unfold get_self at 1. cbv beta iota.
  destruct (adaptive (config (self w))) eqn:Ead; cbn [negb]; [|exact H].
  destruct H as [Hcfg Hinv]. rewrite Hcfg in Ead.
  destruct (Hsane Ead) as [Hmin Hbf].
  assert (delay_world cfg w) as H by (split; assumption).
  by_preserves w H.
  pose proof (delay_world_decrease cfg Hmin Hbf).
  step_preserves.
Qed.

Lemma delay_world_reset cfg :
  min_delay cfg <= max_delay cfg -> preserves (delay_world cfg) reset.
Proof.
  intros Hle [st t] [Hcfg _]. unfold delay_world, delay_inv. simpl in *.
  subst cfg. split; [reflexivity|]. split; lra.
Qed.

Lemma delay_world_run_op cfg o :
  min_delay cfg <= max_delay cfg -> backoff_sane cfg ->
  preserves (delay_world cfg) (run_op o).
Proof.
  intros Hle Hsane. destruct o; simpl.
  - apply delay_world_acquire.
  - apply delay_world_report_error. exact Hsane.
  - apply delay_world_report_success. exact Hsane.
  - apply delay_world_reset. exact Hle.
Qed.

Lemma delay_world_idle cfg d w : delay_world cfg w -> delay_world cfg (idle d w).
Proof. unfold idle. destruct (Qlt_bool 0 d); auto. Qed.

Lemma delay_world_run_ops cfg ops :
  min_delay cfg <= max_delay cfg -> backoff_sane cfg ->
  forall w, delay_world cfg w -> delay_world cfg (run_ops ops w).
Proof.
  intros Hle Hsane. induction ops as [|[d o] ops IH]; intros w H; simpl.
  - exact H.
  - apply IH. apply delay_world_run_op; [assumption..|].
    apply delay_world_idle. exact H.
Qed.

(** C10, as stated, fails: with [min_delay <= max_delay] alone a backoff
    factor of 1/2 makes one [report_error(429)] push [current_delay] below
    the floor. *)
Lemma delay_invariant_needs_backoff :
  min_delay halving_config <= max_delay halving_config /\
  ~ delay_inv
      (self (run_ops [(0, OpReportError (Some 429%Z))]
               (mkWorld (init halving_config) 0))).
Proof.
  split.
  - vm_compute. discriminate.
  - intros [Hlo _]. vm_compute in Hlo. apply Hlo. reflexivity.
Qed.

(** C10 (amended): for every configuration with
    [min_delay <= max_delay] that, when adaptive, also has
    [0 <= min_delay] and [1 <= backoff_factor], the invariant
    [min_delay <= current_delay <= max_delay] holds after construction and
    after every sequence of [acquire], [report_error], [report_success]
    and [reset] calls, whatever time passes in between and whether or not
    a call raises. *)
Theorem delay_invariant (cfg : RateLimitConfig) (t0 : Q) (ops : list (Q * Op)) :
  min_delay cfg <= max_delay cfg ->
  backoff_sane cfg ->
  delay_inv (init cfg) /\
  delay_inv (self (run_ops ops (mkWorld (init cfg) t0))).
Proof.
  intros Hle Hsane.
  assert (delay_world cfg (mkWorld (init cfg) t0)) as H0.
  { split; [reflexivity|]. unfold delay_inv; simpl. split; lra. }
  split; [apply H0|].
  apply (delay_world_run_ops cfg ops Hle Hsane _ H0).
Qed.

Lemma delay_invariant_witness :
  delay_inv
    (self (run_ops
       [(0, OpAcquire); (1, OpReportError (Some 429%Z));
        (0.5, OpReportError None); (2, OpReportSuccess);
        (0, OpReportSuccess); (3, OpAcquire); (0, OpReset)]
       (mkWorld (init default_config) 0))).
Proof.
  apply (delay_invariant default_config 0).
  - vm_compute. discriminate.
  - intros _. split; vm_compute; discriminate.
Defined.

(** *** [report_error] *)

Lemma status_in_critical (c : Z) :
  status_in (Some c) critical_statuses = true <->
  In c [429; 503; 521; 522; 523; 524]%Z.
Proof.
  unfold status_in, critical_statuses. rewrite existsb_exists. split.
  - intros [x [Hin Heq]]. apply Z.eqb_eq in Heq. subst x. exact Hin.
  - intros Hin. exists c. split; [exact Hin|apply Z.eqb_refl].
Qed.

Lemma status_is_spec (s : option Z) (c : Z) :
  status_is s c = true <-> s = Some c.
Proof.
  destruct s as [c'|]; simpl.
  - rewrite Z.eqb_eq. split; congruence.
  - split; discriminate.
Qed.

(** C2, as stated, fails for a missing status code: [None] is not a member
    of the critical list, so a transport failure reported without a status
    leaves [current_delay] as it was (here 1/2, not min(1/2 * 2, 60) = 1). *)
Lemma report_error_without_status_keeps_delay :
  let w := mkWorld (init default_config) 0 in
  let st' := self (snd (report_error None w)) in
  adaptive (config (self w)) = true /\
  current_delay st' == current_delay (self w) /\
  ~ current_delay st' ==
      Qmin (current_delay (self w) * backoff_factor default_config)
           (max_delay default_config).
Proof.
  simpl. split; [reflexivity|]. split; [reflexivity|].
  intros H. vm_compute in H. discriminate.
Qed.

(** C2 (amended): in adaptive mode [report_error] returns after adding one
    to the consecutive-error count; when the status code is one of 429, 503,
    521, 522, 523, 524 the delay becomes
    min(current_delay * backoff_factor, max_delay), and for any other code
    and for a missing code it is unchanged; when the code is 429 a block
    lasting min(consecutive_errors * 30, recovery_time) from now is set
    (with the incremented count), and otherwise the block state is
    untouched. *)
Theorem report_error_adaptive (st : RateLimiter) (now : Q) (status_code : option Z) :
  adaptive (config st) = true ->
  let r := report_error status_code (mkWorld st now) in
  let st' := self (snd r) in
  fst r = Returned tt /\
  clock (snd r) = now /\
  consecutive_errors st' = (consecutive_errors st + 1)%Z /\
  (forall c, status_code = Some c -> In c [429; 503; 521; 522; 523; 524]%Z ->
     current_delay st' ==
       Qmin (current_delay st * backoff_factor (config st))
            (max_delay (config st))) /\
  ((status_code = None \/
    exists c, status_code = Some c /\ ~ In c [429; 503; 521; 522; 523; 524]%Z) ->
     current_delay st' = current_delay st) /\
  (status_code = Some 429%Z ->
     is_blocked st' = true /\
     block_until st' ==
       now + Qmin (inject_Z ((consecutive_errors st + 1) * 30))
                  (recovery_time (config st))) /\
  (status_code <> Some 429%Z ->
     is_blocked st' = is_blocked st /\ block_until st' = block_until st).
Proof.
  intros Had r st'. subst st' r.
  unfold report_error.
  pose proof (status_is_spec status_code 429) as H429.
  assert (status_is status_code 429 = true ->
          status_in status_code critical_statuses = true) as Hsub.
  { intros H. apply H429 in H. subst status_code. reflexivity. }
  assert (forall c, status_code = Some c ->
            (status_in status_code critical_statuses = true <->
             In c [429; 503; 521; 522; 523; 524]%Z)) as Hcrit.
  { intros c ->. apply status_in_critical. }
  assert (status_code = None ->
          status_in status_code critical_statuses = false) as Hnone.
  { intros ->. reflexivity. }
  destruct (status_in status_code critical_statuses) eqn:Ecrit;
    destruct (status_is status_code 429) eqn:E429;
    try (specialize (Hsub eq_refl); discriminate);
    unfold bind, get_self, time_time, modify, _increase_delay,
      _apply_temporary_block, ret;
    cbn [self clock fst snd config set_errors set_current_delay set_block
         current_delay consecutive_errors is_blocked block_until
         backoff_factor max_delay recovery_time negb];
    rewrite Had; cbn [negb self clock fst snd config set_errors
         set_current_delay set_block current_delay consecutive_errors
         is_blocked block_until];
    repeat apply conj; try reflexivity.
  - intros c Hc _. apply py_min_Qmin.
  - intros [Hn|[c [Hc Hnin]]].
    + specialize (Hnone Hn). discriminate.
    + exfalso. apply Hnin. apply (Hcrit c Hc). reflexivity.
  - intros _. split; [reflexivity|].
    apply Qplus_inj_l. apply py_min_Qmin.
  - intros Hc. exfalso. apply Hc. apply H429. reflexivity.
  - intros c Hc _. apply py_min_Qmin.
  - intros [Hn|[c [Hc Hnin]]].
    + specialize (Hnone Hn). discriminate.
    + exfalso. apply Hnin. apply (Hcrit c Hc). reflexivity.
  - intros Hc. apply H429 in Hc. discriminate.
  - intros _. split; reflexivity.
  - intros c Hc Hin. apply (Hcrit c Hc) in Hin. discriminate.
  - intros Hc. apply H429 in Hc. discriminate.
  - intros _. split; reflexivity.
Qed.

Lemma report_error_adaptive_witness :
  let r := report_error (Some 429%Z) (mkWorld (init default_config) 10) in
  consecutive_errors (self (snd r)) = 1%Z /\
  is_blocked (self (snd r)) = true /\
  block_until (self (snd r)) == 40 /\
  current_delay (self (snd r)) == 1.
Proof.
  pose proof (report_error_adaptive (init default_config) 10 (Some 429%Z)
                eq_refl) as H.
  cbv zeta in H.
  destruct H as (_ & _ & Hce & Hcd & _ & Hblk & _).
  destruct (Hblk eq_refl) as [Hb Hu].
  split; [exact Hce|]. split; [exact Hb|]. split.
  - rewrite Hu. vm_compute. reflexivity.
  - rewrite (Hcd 429%Z eq_refl); [|simpl; auto]. vm_compute. reflexivity.
Defined.

(** *** The sliding windows *)

Lemma drop_old_suffix (h now : Q) (w : list Q) : drop_old h now w `suffix_of` w.
Proof.
  induction w as [|t w IH]; simpl.
  - reflexivity.
  - destruct (Qlt_bool h (now - t)).
    + apply suffix_cons_r. exact IH.
    + reflexivity.
Qed.

Lemma drop_old_mono (h1 h2 now : Q) (w : list Q) :
  h1 <= h2 -> drop_old h1 now w `suffix_of` drop_old h2 now w.
Proof.
  intros Hle. induction w as [|t w IH]; simpl.
  - reflexivity.
  - case_Qlt h2 (now - t).
    + assert (Qlt_bool h1 (now - t) = true) as -> by (apply Qlt_bool_true; lra).
      exact IH.
    + destruct (Qlt_bool h1 (now - t)).
      * apply suffix_cons_r. apply drop_old_suffix.
      * reflexivity.
Qed.

Lemma drop_old_nested (h1 h2 now : Q) (s m : list Q) :
  h1 <= h2 -> s `suffix_of` m ->
  drop_old h1 now s `suffix_of` drop_old h2 now m.
Proof.
  intros Hle [k ->]. induction k as [|t k IH]; simpl.
  - apply drop_old_mono. exact Hle.
  - destruct (Qlt_bool h2 (now - t)).
    + exact IH.
    + apply suffix_cons_r. apply suffix_app_r. apply drop_old_suffix.
Qed.

Lemma filter_keeps_all (f : Q -> bool) (w : list Q) :
  Forall (fun t => f t = true) w -> List.filter f w = w.
Proof.
  induction 1 as [|t w Ht _ IH]; simpl.
  - reflexivity.
  - rewrite Ht, IH. reflexivity.
Qed.

(** On a window in clock order the purge keeps exactly the timestamps
    that are still inside the horizon. *)
Lemma drop_old_sorted (h now : Q) (w : list Q) :
  StronglySorted Qle w -> drop_old h now w = calls_within h now w.
Proof.
  unfold calls_within. induction 1 as [|t w Hs IH Hall]; simpl.
  - reflexivity.
  - unfold Qlt_bool. case_Qle (now - t) h; simpl.
    + f_equal. symmetry. apply filter_keeps_all.
      eapply Forall_impl; [exact Hall|]. intros t' Ht'. simpl in Ht'.
      apply Qle_bool_iff. lra.
    + exact IH.
Qed.

Lemma suffix_sorted (s m : list Q) :
  s `suffix_of` m -> StronglySorted Qle m -> StronglySorted Qle s.
Proof. intros [k ->] H. eapply StronglySorted_app_1_r. exact H. Qed.

Lemma suffix_Forall (P : Q -> Prop) (s m : list Q) :
  s `suffix_of` m -> Forall P m -> Forall P s.
Proof. intros [k ->] H. apply Forall_app in H. apply H. Qed.

Lemma timeline_init cfg t0 : timeline (mkWorld (init cfg) t0).
Proof.
  unfold timeline; simpl. repeat split; try reflexivity; constructor.
Qed.

Lemma timeline_later (st : RateLimiter) (t t' : Q) :
  t <= t' -> timeline (mkWorld st t) -> timeline (mkWorld st t').
Proof.
  intros Hle (H1 & H2 & H3 & H4). unfold timeline in *; simpl in *.
  repeat split; try assumption.
  eapply Forall_impl; [exact H4|]. intros x Hx. simpl in Hx. lra.
Qed.

Lemma timeline_sleep d : preserves timeline (sleep d).
Proof.
  intros [st t] H. unfold sleep; simpl. case_Qlt 0 d; [|exact H].
  apply (timeline_later st t); [lra|exact H].
Qed.

Lemma timeline_idle d w : timeline w -> timeline (idle d w).
Proof.
  destruct w as [st t]. intros H. unfold idle. simpl.
  case_Qlt 0 d; [|exact H].
  apply (timeline_later st t); [lra|exact H].
Qed.

(** Updates that leave the three windows alone. *)
Lemma timeline_modify (f : RateLimiter -> RateLimiter) :
  (forall s, second_window (f s) = second_window s) ->
  (forall s, minute_window (f s) = minute_window s) ->
  (forall s, hour_window (f s) = hour_window s) ->
  preserves timeline (modify f).
Proof.
  intros Hs Hm Hh [st t] H. unfold timeline in *. simpl in *.
  rewrite Hs, Hm, Hh. exact H.
Qed.

Lemma timeline_cleanup now : preserves timeline (_cleanup_windows now).
Proof.
  intros [st t] (H1 & H2 & H3 & H4). unfold timeline in *; simpl in *.
  repeat split.
  - apply drop_old_nested; [lra|exact H1].
  - apply drop_old_nested; [lra|exact H2].
  - eapply suffix_sorted; [apply drop_old_suffix|exact H3].
  - eapply suffix_Forall; [apply drop_old_suffix|exact H4].
Qed.

Lemma timeline_add_request : preserves timeline _add_request.
Proof.
  intros [st t] (H1 & H2 & H3 & H4). unfold timeline in *; simpl in *.
  repeat split.
  - apply suffix_snoc. exact H1.
  - apply suffix_snoc. exact H2.
  - apply StronglySorted_app_2.
    + intros x1 x2 Hx1 Hx2. apply list_elem_of_singleton in Hx2. subst x2.
      rewrite Forall_forall in H4. apply H4. exact Hx1.
    + exact H3.
    + repeat constructor.
  - apply Forall_app. split; [exact H4|].
    constructor; [lra|constructor].
Qed.

#[local] Hint Resolve timeline_sleep timeline_cleanup timeline_add_request : preserves.
#[local] Hint Extern 2 (preserves timeline (modify _)) =>
  (apply timeline_modify; intros; reflexivity) : preserves.

Lemma timeline_limit_delay h c win now ds :
  preserves timeline (limit_delay h c win now ds).
Proof.
  unfold limit_delay. destruct (Qle_bool c (len win)); [|auto with preserves].
  destruct win; auto with preserves.
Qed.

#[local] Hint Resolve timeline_limit_delay : preserves.

Lemma timeline_run_op o : preserves timeline (run_op o).
Proof.
  destruct o; simpl.
  - unfold acquire, _wait_if_blocked, _enforce_rate_limits, _apply_delay.
    step_preserves.
  - unfold report_error, _increase_delay, _apply_temporary_block.
    step_preserves.
  - unfold report_success, _decrease_delay. step_preserves.
  - intros [st t] _. unfold timeline; simpl.
    repeat split; try reflexivity; constructor.
Qed.

(** Every world reached from a fresh limiter satisfies [timeline]. *)
Lemma timeline_reachable cfg t0 ops :
  timeline (run_ops ops (mkWorld (init cfg) t0)).
Proof.
  generalize (timeline_init cfg t0). generalize (mkWorld (init cfg) t0).
  induction ops as [|[d o] ops IH]; intros w H; simpl.
  - exact H.
  - apply IH. apply timeline_run_op. apply timeline_idle. exact H.
Qed.

(** *** [_enforce_rate_limits] *)

Lemma limit_delay_below h c win now ds w :
  len win < c -> limit_delay h c win now ds w = (Returned ds, w).
Proof.
  intros Hlt. unfold limit_delay. case_Qle c (len win); [lra|reflexivity].
Qed.

Lemma limit_delay_reached h c o win now ds w :
  c <= len (o :: win) ->
  limit_delay h c (o :: win) now ds w =
  (Returned (if Qlt_bool 0 (h - (now - o)) then ds ++ [h - (now - o)] else ds), w).
Proof.
  intros Hle. unfold limit_delay.
  case_Qle c (len (o :: win)); [reflexivity|lra].
Qed.

(** On a non-empty window the check returns, adding at most one positive
    delay at the end. *)
Lemma limit_delay_nonempty h c o win now ds w :
  exists ds', limit_delay h c (o :: win) now ds w = (Returned ds', w) /\
    (ds' = ds \/ exists d, 0 < d /\ ds' = ds ++ [d]).
Proof.
  unfold limit_delay. destruct (Qle_bool c (len (o :: win))).
  - case_Qlt 0 (h - (now - o)).
    + eexists. split; [reflexivity|]. right. eexists. split; [exact E|reflexivity].
    + eexists. split; [reflexivity|]. left. reflexivity.
  - eexists. split; [reflexivity|]. left. reflexivity.
Qed.

Lemma sleep_longest_returns delays w : fst (sleep_longest delays w) = Returned tt.
Proof. destruct delays; reflexivity. Qed.

Lemma sleep_longest_self delays w : self (snd (sleep_longest delays w)) = self w.
Proof.
  destruct delays as [|d ds]; simpl; [reflexivity|].
  unfold sleep; simpl. destruct (Qlt_bool 0 (py_max_list d ds)); reflexivity.
Qed.

Lemma sleep_longest_monotone delays w : clock w <= clock (snd (sleep_longest delays w)).
Proof.
  destruct delays as [|d ds]; simpl; [lra|].
  unfold sleep; simpl. case_Qlt 0 (py_max_list d ds); simpl; lra.
Qed.

Lemma sleep_longest_covers delays w x :
  Forall (Qlt 0) delays -> In x delays ->
  clock w + x <= clock (snd (sleep_longest delays w)).
Proof.
  intros Hpos Hin. destruct delays as [|d ds]; [destruct Hin|].
  pose proof (py_max_list_ge ds d x Hin) as Hx.
  pose proof (py_max_list_ge_head ds d) as Hd.
  apply Forall_cons in Hpos. destruct Hpos as [Hd0 _].
  simpl. unfold sleep; simpl.
  case_Qlt 0 (py_max_list d ds); simpl; lra.
Qed.

Lemma enforce_unfold (st : RateLimiter) (now : Q) :
  _enforce_rate_limits (mkWorld st now) =
  bind (limit_delay 1 (requests_per_second (config st))
          (second_window (cleaned now st)) now [])
    (fun d1 =>
       bind (limit_delay 60 (requests_per_minute (config st))
               (minute_window (cleaned now st)) now d1)
         (fun d2 =>
            bind (limit_delay 3600 (requests_per_hour (config st))
                    (hour_window (cleaned now st)) now d2)
              sleep_longest))
    (mkWorld (cleaned now st) now).
Proof. reflexivity. Qed.

Lemma suffix_of_cons_nonempty (o : Q) (rest m : list Q) :
  (o :: rest) `suffix_of` m -> exists o' m', m = o' :: m'.
Proof.
  intros [k ->]. destruct k as [|o' k]; simpl; eauto.
Qed.

Lemma cleaned_windows (st : RateLimiter) (now : Q) :
  timeline (mkWorld st now) ->
  second_window (cleaned now st) = calls_within 1 now (second_window st) /\
  minute_window (cleaned now st) = calls_within 60 now (minute_window st) /\
  hour_window (cleaned now st) = calls_within 3600 now (hour_window st).
Proof.
  intros (H1 & H2 & H3 & _). simpl in *.
  assert (StronglySorted Qle (minute_window st)) as Hm
    by (eapply suffix_sorted; eassumption).
  assert (StronglySorted Qle (second_window st)) as Hs
    by (eapply suffix_sorted; eassumption).
  repeat split; apply drop_old_sorted; assumption.
Qed.

(** The rate check in a reachable state.  With fewer than N recorded calls
    in the last second the per-second window adds no delay, and with the
    other two windows below their ceilings the check does not sleep; with N
    or more it returns once the oldest of them is a full second old. *)
Lemma enforce_rate_limits_spec (st : RateLimiter) (now : Q) :
  timeline (mkWorld st now) ->
  let N := requests_per_second (config st) in
  let recent := calls_within 1 now (second_window st) in
  let r := _enforce_rate_limits (mkWorld st now) in
  (len recent < N ->
     (forall w, limit_delay 1 N recent now [] w = (Returned [], w)) /\
     (len (calls_within 60 now (minute_window st)) < requests_per_minute (config st) ->
      len (calls_within 3600 now (hour_window st)) < requests_per_hour (config st) ->
      r = (Returned tt, mkWorld (cleaned now st) now))) /\
  (forall oldest rest,
     recent = oldest :: rest -> N <= len recent ->
     fst r = Returned tt /\ self (snd r) = cleaned now st /\
     oldest + 1 <= clock (snd r)).
Proof.
  intros Htl N recent r.
  destruct (cleaned_windows st now Htl) as (Hs & Hm & Hh).
  pose proof (timeline_cleanup now _ Htl) as Hcl.
  change (snd (_cleanup_windows now (mkWorld st now)))
    with (mkWorld (cleaned now st) now) in Hcl.
  destruct Hcl as (Hsm & Hmh & _ & _). cbn [self] in Hsm, Hmh.
  subst r. rewrite enforce_unfold. fold N. rewrite Hs. fold recent.
  split.
  - intros Hlt. split.
    + intros w. apply limit_delay_below. exact Hlt.
    + intros Hmin Hhour. unfold bind.
      rewrite limit_delay_below by exact Hlt.
      rewrite Hm, limit_delay_below by exact Hmin.
      rewrite Hh, limit_delay_below by exact Hhour.
      reflexivity.
  - intros oldest rest Hrec Hge.
    rewrite Hs in Hsm. fold recent in Hsm. rewrite Hrec in *.
    destruct (suffix_of_cons_nonempty _ _ _ Hsm) as (om & m' & Em).
    rewrite Em in Hmh.
    destruct (suffix_of_cons_nonempty _ _ _ Hmh) as (oh & h' & Eh).
    unfold bind. rewrite limit_delay_reached by exact Hge.
    set (dn := 1 - (now - oldest)).
    set (d1 := if Qlt_bool 0 dn then [] ++ [dn] else []).
    assert (Forall (Qlt 0) d1 /\ (0 < dn -> In dn d1)) as [Hp1 Hin1].
    { subst d1. case_Qlt 0 dn; simpl.
      - split; [repeat constructor; exact E|auto].
      - split; [constructor|lra]. }
    rewrite Em.
    destruct (limit_delay_nonempty 60 (requests_per_minute (config st))
                om m' now d1 (mkWorld (cleaned now st) now))
      as (d2 & -> & Hd2).
    assert (Forall (Qlt 0) d2 /\ (0 < dn -> In dn d2)) as [Hp2 Hin2].
    { destruct Hd2 as [->|(d & Hd & ->)]; [auto|].
      split.
      - apply Forall_app. split; [exact Hp1|repeat constructor; exact Hd].
      - intros H. apply in_or_app. left. auto. }
    rewrite Eh.
    destruct (limit_delay_nonempty 3600 (requests_per_hour (config st))
                oh h' now d2 (mkWorld (cleaned now st) now))
      as (d3 & -> & Hd3).
    assert (Forall (Qlt 0) d3 /\ (0 < dn -> In dn d3)) as [Hp3 Hin3].
    { destruct Hd3 as [->|(d & Hd & ->)]; [auto|].
      split.
      - apply Forall_app. split; [exact Hp2|repeat constructor; exact Hd].
      - intros H. apply in_or_app. left. auto. }
    split; [apply sleep_longest_returns|].
    split; [apply sleep_longest_self|].
    destruct (Qlt_le_dec 0 dn) as [Hpos|Hnonpos].
    + pose proof (sleep_longest_covers d3 (mkWorld (cleaned now st) now) dn
                    Hp3 (Hin3 Hpos)) as Hc.
      simpl in Hc. subst dn. lra.
    + pose proof (sleep_longest_monotone d3 (mkWorld (cleaned now st) now)) as Hc.
      simpl in Hc. subst dn. lra.
Qed.

Lemma wait_if_not_blocked (st : RateLimiter) (now : Q) :
  blocked st now = false ->
  _wait_if_blocked (mkWorld st now) = (Returned tt, mkWorld st now).
Proof.
  unfold blocked, _wait_if_blocked, bind, get_self, time_time. simpl.
  intros ->. reflexivity.
Qed.

(** What [acquire] does once the rate check has returned in world [w1]:
    it records the time of [w1] in the three windows and sleeps the
    baseline delay. *)
Lemma acquire_after_enforce (st : RateLimiter) (now : Q) (w1 : World) :
  blocked st now = false ->
  _enforce_rate_limits (mkWorld st now) = (Returned tt, w1) ->
  let r := acquire (mkWorld st now) in
  fst r = Returned tt /\
  second_window (self (snd r)) = second_window (self w1) ++ [clock w1] /\
  clock (snd r) == clock w1 + pacing (self w1).
Proof.
  intros Hnb He r. subst r. unfold acquire, bind.
  rewrite (wait_if_not_blocked st now Hnb). rewrite He.
  destruct w1 as [st1 t1]. unfold _add_request, _apply_delay, bind, time_time,
    modify, get_self, sleep, pacing, ret. simpl.
  case_Qlt 0 (current_delay st1); simpl.
  - repeat split; reflexivity.
  - repeat split; try reflexivity. lra.
Qed.

(** C3 (amended): let N be the per-second ceiling and consider an
    [acquire] on a limiter that is not blocked, in a reachable state, at
    time [now].  If fewer than N recorded calls lie within the last second
    (the call is at most the N-th of its second), the per-second window
    contributes no delay; when the minute and hour windows are below their
    ceilings as well, the call is recorded at [now] and returns after the
    baseline delay alone.  If N or more recorded calls lie within the last
    second (the call is the (N+1)-th or later), the call is recorded, and
    so let through, no earlier than one second after the oldest of them. *)
Theorem acquire_second_window (st : RateLimiter) (now : Q) :
  timeline (mkWorld st now) ->
  blocked st now = false ->
  let N := requests_per_second (config st) in
  let recent := calls_within 1 now (second_window st) in
  let r := acquire (mkWorld st now) in
  (len recent < N ->
     (forall w, limit_delay 1 N recent now [] w = (Returned [], w)) /\
     (len (calls_within 60 now (minute_window st)) < requests_per_minute (config st) ->
      len (calls_within 3600 now (hour_window st)) < requests_per_hour (config st) ->
      fst r = Returned tt /\
      second_window (self (snd r)) = recent ++ [now] /\
      clock (snd r) == now + pacing st)) /\
  (forall oldest rest,
     recent = oldest :: rest -> N <= len recent ->
     fst r = Returned tt /\
     exists t,
       second_window (self (snd r)) = recent ++ [t] /\
       oldest + 1 <= t /\
       clock (snd r) == t + pacing st).
Proof.
  intros Htl Hnb N recent r.
  destruct (enforce_rate_limits_spec st now Htl) as [Ha Hb].
  destruct (cleaned_windows st now Htl) as (Hs & _ & _).
  fold recent in Hs.
  split.
  - intros Hlt. destruct (Ha Hlt) as [Hsec Hall]. split; [exact Hsec|].
    intros Hmin Hhour. specialize (Hall Hmin Hhour).
    destruct (acquire_after_enforce st now _ Hnb Hall) as (Hret & Hwin & Hclk).
    fold r in Hret, Hwin, Hclk. cbn [self clock] in Hwin, Hclk.
    rewrite Hs in Hwin. repeat split; assumption.
  - intros oldest rest Hrec Hge.
    destruct (Hb oldest rest Hrec Hge) as (Hret & Hself & Hold).
    destruct (_enforce_rate_limits (mkWorld st now)) as [o w1] eqn:He.
    simpl in Hret, Hself, Hold. subst o.
    destruct (acquire_after_enforce st now w1 Hnb He) as (Hret' & Hwin & Hclk).
    fold r in Hret', Hwin, Hclk.
    split; [exact Hret'|]. exists (clock w1).
    rewrite Hself in Hwin, Hclk. rewrite Hs in Hwin.
    repeat split; assumption.
Qed.

(** C3, as stated, fails: at time 59.5 no call lies within the last second,
    so the next call is the first (N = 1) of its second, yet it is held
    back for half a second in the rate check, because the minute window
    is at its ceiling, and only then recorded and paced. *)
Lemma lone_call_delayed_by_minute_window :
  let w := idle 1 (run_ops busy_minute (mkWorld (init default_config) 0)) in
  let r := acquire w in
  clock w == 59.5 /\
  blocked (self w) (clock w) = false /\
  calls_within 1 (clock w) (second_window (self w)) = [] /\
  requests_per_second (config (self w)) == 1 /\
  fst r = Returned tt /\
  clock (snd (_enforce_rate_limits w)) == clock w + 0.5 /\
  ~ clock (snd r) == clock w + pacing (self w).
Proof.
  vm_compute. repeat split; try reflexivity.
  intros H. discriminate.
Qed.

Lemma acquire_second_window_witness :
  let w := run_ops [(0, OpAcquire); (0, OpAcquire)]
             (mkWorld (init burst_config) 0) in
  let r := acquire w in
  clock w == 0.2 /\
  fst r = Returned tt /\
  exists t, second_window (self (snd r)) = [0 # 1; 1 # 10; t] /\
            1 <= t /\ clock (snd r) == t + 0.1.
Proof.
  intros w r. split; [vm_compute; reflexivity|].
  assert (timeline (mkWorld (self w) (clock w))) as Htl.
  { pose proof (timeline_reachable burst_config 0
                  [(0, OpAcquire); (0, OpAcquire)]) as H.
    fold w in H. destruct w. exact H. }
  assert (blocked (self w) (clock w) = false) as Hnb by (vm_compute; reflexivity).
  pose proof (acquire_second_window (self w) (clock w) Htl Hnb) as H.
  cbv zeta in H. destruct H as [_ H].
  assert (calls_within 1 (clock w) (second_window (self w))
          = [0 # 1; 1 # 10]) as Hrec by (vm_compute; reflexivity).
  specialize (H (0 # 1) [1 # 10] Hrec).
  assert (mkWorld (self w) (clock w) = w) as Hw by (destruct w; reflexivity).
  rewrite Hw in H. fold r in H.
  destruct H as [Hret (t & Hwin & Hold & Hclk)].
  - rewrite Hrec. vm_compute. discriminate.
  - split; [exact Hret|]. exists t. rewrite Hrec in Hwin.
    split; [exact Hwin|]. split; [lra|].
    rewrite Hclk. apply Qplus_inj_l. vm_compute. reflexivity.
Defined.

(** ** Retry: delays *)


Lemma overflows_false (x : Q) :
  Retry.overflows x = false <-> in_float_range x.
Proof.
  unfold Retry.overflows, in_float_range. rewrite orb_false_iff.
  rewrite !Qle_bool_false. tauto.
Qed.

Lemma py_pow_in_range (b : Q) (e : Z) :
  (0 <= e)%Z -> in_float_range (inject_Z e) -> in_float_range (b ^ e) ->
  Retry.py_pow b e = Retry.Ok (b ^ e).
Proof.
  intros He H1 H2. unfold Retry.py_pow.
  rewrite (proj2 (overflows_false _) H1), (proj2 (overflows_false _) H2).
  destruct (e <? 0)%Z eqn:E; [apply Z.ltb_lt in E; lia|reflexivity].
Qed.


Lemma Qmult_unit_interval_nonneg (d u : Q) :
  0 <= d -> 0 <= u -> u < 1 -> 0 <= d * u /\ d * u <= d.
Proof.
  intros Hd Hu0 Hu1. split.
  - apply Qmult_le_0_compat; assumption.
  - assert (0 <= d * (1 - u)) by (apply Qmult_le_0_compat; lra). lra.
Qed.

Lemma Qmult_unit_interval_neg (d u : Q) :
  d < 0 -> 0 <= u -> u < 1 -> d * u <= 0 /\ d <= d * u.
Proof.
  intros Hd Hu0 Hu1.
  destruct (Qmult_unit_interval_nonneg (- d) u) as [H1 H2]; [lra..|].
  split; lra.
Qed.



(** ** Retry: the attempt loop *)

Lemma calculate_delay_returns (k : Z) (cfg : Retry.RetryConfig) (u : Q) :
  (1 <= k)%Z -> power_in_range cfg k ->
  exists d, Retry.calculate_delay k cfg u = Retry.Ok d.
Proof.
  intros Hk [Hexp Hpow]. unfold Retry.calculate_delay.
  rewrite py_pow_in_range by (lia || assumption). eexists. reflexivity.
Qed.

(** One failed attempt that is neither fatal nor the last: the loop sleeps
    and goes on with the next attempt. *)
Lemma attempts_retry {A} (func : nat -> Retry.Result A) cfg rnd n k tr last e :
  func (Retry.calls tr) = Retry.Err e ->
  Retry.is_retryable_exception e = true ->
  (1 <= k)%Z -> power_in_range cfg k -> k <> Retry.max_attempts cfg ->
  exists d,
    Retry.attempts func cfg rnd (S n) k tr last =
    Retry.attempts func cfg rnd n (k + 1)
      (Retry.mkTrace (S (Retry.calls tr)) (Retry.slept tr ++ [d])
                     (Retry.notified tr ++ [(k, e, d)]))
      (Some e).
Proof.
  intros Hf Hr Hk Hpow Hne.
  destruct (calculate_delay_returns k cfg (rnd (length (Retry.slept tr))) Hk Hpow)
    as [d Hd].
  exists d. simpl. rewrite Hf, Hr. simpl.
  rewrite (proj2 (Z.eqb_neq k (Retry.max_attempts cfg)) Hne).
  rewrite Hd. reflexivity.
Qed.

(** The attempt that ends the loop: a fatal error, or the last attempt. *)
Lemma attempts_raise {A} (func : nat -> Retry.Result A) cfg rnd n k tr last e :
  func (Retry.calls tr) = Retry.Err e ->
  Retry.is_retryable_exception e = false \/ k = Retry.max_attempts cfg ->
  Retry.attempts func cfg rnd (S n) k tr last =
  (Retry.Err e,
   Retry.mkTrace (S (Retry.calls tr)) (Retry.slept tr) (Retry.notified tr)).
Proof.
  intros Hf Hstop. simpl. rewrite Hf.
  destruct (Retry.is_retryable_exception e); simpl; [|reflexivity].
  destruct Hstop as [Hstop| ->]; [discriminate|].
  rewrite Z.eqb_refl. reflexivity.
Qed.

(** C4 fails on the code: an HTTP error with status 404 is fatal, its
    status is none of the statuses that call for a retry, and yet
    [is_retryable_exception] accepts it, because it tests the class
    against [RETRYABLE_EXCEPTIONS] (where [ClientError] is) before it
    looks at the status.  With [max_attempts = 3], [base_delay = 1] and
    [exponential_base = 2], an operation that fails with it every time is
    invoked three times, with two sleeps in between, not once. *)
Theorem not_found_error_is_retried (rnd : nat -> Q) :
  let out := Retry.retry_async (always_status 404) Retry.default_config rnd in
  Retry.is_retryable_http_status 404 = false /\
  fst out
  = Retry.Err (Retry.mkException Retry.C_ClientResponseError 404 "HTTP error") /\
  Retry.calls (snd out) = 3%nat /\
  length (Retry.slept (snd out)) = 2%nat.
Proof.
  intros out. subst out. split; [reflexivity|].
  unfold Retry.retry_async.
  change (Z.to_nat (Retry.max_attempts Retry.default_config)) with 3%nat.
  destruct (attempts_retry (always_status 404) Retry.default_config rnd 2 1
              (Retry.mkTrace 0 [] []) None
              (Retry.mkException Retry.C_ClientResponseError 404 "HTTP error"))
    as [d1 ->];
    [reflexivity|reflexivity|lia|split; split; vm_compute; reflexivity
    |discriminate|].
  cbn [Retry.calls Retry.slept Retry.notified].
  destruct (attempts_retry (always_status 404) Retry.default_config rnd 1 (1 + 1)
              (Retry.mkTrace 1 ([] ++ [d1])
                 ([] ++ [(1%Z, Retry.mkException Retry.C_ClientResponseError
                                 404 "HTTP error", d1)]))
              (Some (Retry.mkException Retry.C_ClientResponseError 404
                       "HTTP error"))
              (Retry.mkException Retry.C_ClientResponseError 404 "HTTP error"))
    as [d2 ->];
    [reflexivity|reflexivity|lia|split; split; vm_compute; reflexivity
    |discriminate|].
  cbn [Retry.calls Retry.slept Retry.notified].
  rewrite (attempts_raise (always_status 404) Retry.default_config rnd 0
             (1 + 1 + 1) _ _
             (Retry.mkException Retry.C_ClientResponseError 404 "HTTP error"));
    [|reflexivity|right; reflexivity].
  cbn. repeat split.
Qed.

(** ** User agents: coherence of the header set *)

(** Whatever fingerprint is active, a user agent that mentions Chrome gets
    the Windows platform hint from the rotator. *)
Lemma rotator_platform_hint_is_constant (draw : nat) (r : UserAgents.UserAgentRotator) :
  let ua := fst (UserAgents.get_user_agent draw r) in
  is_substring "Chrome" ua = true ->
  fst (UserAgents.get_headers draw None r) !! "sec-ch-ua-platform"%string
  = Some (quoted "Windows").
Proof.
  intros ua Hchrome. unfold UserAgents.get_headers.
  destruct (UserAgents.get_user_agent draw r) as [ua' r'] eqn:E.
  simpl in ua. subst ua. rewrite Hchrome.
  unfold UserAgents.update. cbn [fold_left fst snd].
  apply lookup_insert_eq.
Qed.

(** C9 fails on the code.  The rotator of the parser (standard
    configuration) can make the macOS Chrome 120 fingerprint active (pool
    index 3); [UserAgentRotator.get_headers] then sends the platform hint
    of Windows, while the user agent states macOS and
    [BrowserProfile.get_headers] gives the macOS hint for the same user
    agent. *)
Theorem rotator_headers_incoherent_for_macos_chrome :
  let r0 := UserAgents.init UserAgents.STANDARD_CONFIG in
  let headers := fst (UserAgents.get_headers 3 None r0) in
  let ua := mac_chrome_120 in
  UserAgents.current_agent (snd (UserAgents.get_headers 3 None r0)) = Some ua /\
  headers !! "User-Agent"%string = Some ua /\
  UserAgents._detect_browser_type ua = UserAgents.chrome /\
  UserAgents._detect_os_type ua = UserAgents.macos /\
  headers !! "sec-ch-ua-platform"%string = Some (quoted "Windows") /\
  headers !! "sec-ch-ua-platform"%string
    <> platform_hint (UserAgents._detect_os_type ua) /\
  UserAgents.profile_get_headers (UserAgents.profile ua)
    !! "sec-ch-ua-platform"%string = Some (quoted "macOS").
Proof.
  cbv zeta.
  assert (UserAgents.get_user_agent 3
            (UserAgents.init UserAgents.STANDARD_CONFIG)
          = (mac_chrome_120,
             snd (UserAgents.get_user_agent 3
                    (UserAgents.init UserAgents.STANDARD_CONFIG)))) as Hua
    by (vm_compute; reflexivity).
  assert (is_substring "Chrome" mac_chrome_120 = true) as Hchrome
    by (vm_compute; reflexivity).
  assert (UserAgents._detect_os_type mac_chrome_120 = UserAgents.macos) as Hos
    by (vm_compute; reflexivity).
  assert (fst (UserAgents.get_headers 3 None
                 (UserAgents.init UserAgents.STANDARD_CONFIG))
            !! "sec-ch-ua-platform"%string = Some (quoted "Windows")) as Hplat.
  { apply rotator_platform_hint_is_constant. rewrite Hua. exact Hchrome. }
  repeat apply conj.
  - unfold UserAgents.get_headers. rewrite Hua. rewrite Hchrome.
    vm_compute. reflexivity.
  - unfold UserAgents.get_headers. rewrite Hua. rewrite Hchrome.
    unfold UserAgents.update. cbn [fold_left fst snd].
    repeat (rewrite lookup_insert_ne by discriminate).
    apply lookup_insert_eq.
  - vm_compute. reflexivity.
  - exact Hos.
  - exact Hplat.
  - rewrite Hplat, Hos. simpl. intros H. vm_compute in H. discriminate.
  - unfold UserAgents.profile_get_headers, UserAgents.profile.
    cbn [UserAgents._browser_type UserAgents._os_type].
    rewrite Hos.
    assert (UserAgents._detect_browser_type mac_chrome_120 = UserAgents.chrome)
      as -> by (vm_compute; reflexivity).
    apply lookup_insert_eq.
Qed.

(** ** Parser: prices *)

(** C6: the five literal cases of the price parser. *)
Theorem parse_price_literal_cases :
  Parser._parse_price (PyStr.U "50000 руб.") = (Some 50000, Parser.FIXED) /\
  Parser._parse_price (PyStr.U "договорная") = (None, Parser.NEGOTIABLE) /\
  Parser._parse_price (PyStr.U "1500 руб/час") = (Some 1500, Parser.HOURLY) /\
  Parser._parse_price (PyStr.U "от 10000 до 20000") = (Some 10000, Parser.RANGE) /\
  Parser._parse_price (PyStr.U "not a price") = (None, Parser.NEGOTIABLE).
Proof.
  repeat split; vm_compute; reflexivity.
Qed.

(** How the last two cases come about: the first run of the pattern in
    "от 10000 до 20000" starts at the blank before the number, and in
    "not a price" it is a single blank, which [float] rejects. *)
Lemma parse_price_first_run :
  PyStr.search_run Parser.price_char (PyStr.U "от 10000 до 20000")
    = Some (PyStr.U " 10000 ") /\
  PyStr.search_run Parser.price_char (PyStr.U "not a price")
    = Some (PyStr.U " ") /\
  PyStr.float_of_str [] = None.
Proof.
  repeat split; vm_compute; reflexivity.
Qed.

(** ** Parser: the pagination walker *)

(** C7: when the walker processes a page whose pagination metadata says
    there is no next page, it yields the batch of that page (after the
    duplicate filter) and the stream ends there, unless the page is the
    first one and has no listings; so a single-page site gives exactly one
    batch.  When the first page has no listings the stream ends with no
    batch at all. *)
Theorem parse_all_pages_last_page
    (max_pages : option Z)
    (parse_single_page : Z -> list Parser.Project * option Parser.PaginationInfo)
    (project_repository : option (PyStr.pystr -> bool)) (fuel : nat) :
  (forall current_page projects pagination_info,
     Parser.limit_reached max_pages current_page = false ->
     parse_single_page current_page = (projects, pagination_info) ->
     Parser.get_has_next pagination_info = false ->
     projects <> [] \/ current_page <> 1%Z ->
     Parser.parse_all_pages_from max_pages parse_single_page project_repository
       (S fuel) current_page
     = ([Parser.filter_new project_repository projects], true)) /\
  (forall projects pagination_info,
     Parser.limit_reached max_pages 1 = false ->
     parse_single_page 1%Z = (projects, pagination_info) ->
     Parser.get_has_next pagination_info = false ->
     projects <> [] ->
     Parser.parse_all_pages max_pages parse_single_page project_repository (S fuel)
     = ([Parser.filter_new project_repository projects], true)) /\
  (forall pagination_info,
     parse_single_page 1%Z = ([], pagination_info) ->
     Parser.parse_all_pages max_pages parse_single_page project_repository (S fuel)
     = ([], true)).
Proof.
  assert (forall current_page projects pagination_info,
     Parser.limit_reached max_pages current_page = false ->
     parse_single_page current_page = (projects, pagination_info) ->
     Parser.get_has_next pagination_info = false ->
     projects <> [] \/ current_page <> 1%Z ->
     Parser.parse_all_pages_from max_pages parse_single_page project_repository
       (S fuel) current_page
     = ([Parser.filter_new project_repository projects], true)) as Hlast.
  { intros current_page projects pagination_info Hlim Hpage Hnext Hne.
    simpl. rewrite Hlim, Hpage, Hnext. simpl.
    destruct projects as [|p ps].
    - destruct Hne as [Hne|Hne]; [congruence|].
      rewrite (proj2 (Z.eqb_neq current_page 1) Hne). reflexivity.
    - reflexivity. }
  split; [exact Hlast|]. split.
  - intros projects pagination_info Hlim Hpage Hnext Hne.
    unfold Parser.parse_all_pages. eapply Hlast; eauto.
  - intros pagination_info Hpage.
    unfold Parser.parse_all_pages. simpl. rewrite Hpage.
    destruct (Parser.limit_reached max_pages 1); reflexivity.
Qed.

Lemma parse_all_pages_last_page_witness :
  Parser.parse_all_pages None single_page_site
    (Some (fun id => PyStr.str_eqb id (PyStr.U "101"))) 5
  = ([[sample_project "102"]], true).
Proof.
  destruct (parse_all_pages_last_page None single_page_site
              (Some (fun id => PyStr.str_eqb id (PyStr.U "101"))) 4)
    as (_ & H & _).
  rewrite (H [sample_project "101"; sample_project "102"]
             (Some (Parser.mkPagination 1 1 false None 2))).
  - vm_compute. reflexivity.
  - reflexivity.
  - reflexivity.
  - reflexivity.
  - discriminate.
Defined.

(** ** Parser: the external id of a listing *)

Lemma lstrip_no_space (s : PyStr.pystr) :
  Forall (fun c => PyStr.is_space c = false) s -> PyStr.lstrip s = s.
Proof.
  intros H. destruct H as [|c s Hc _]; [reflexivity|].
  cbn [PyStr.lstrip]. rewrite Hc. reflexivity.
Qed.

Lemma strip_no_space (s : PyStr.pystr) :
  Forall (fun c => PyStr.is_space c = false) s -> PyStr.strip s = s.
Proof.
  intros H. unfold PyStr.strip, PyStr.rstrip.
  rewrite (lstrip_no_space s H).
  rewrite lstrip_no_space by (apply List.Forall_rev; exact H).
  apply rev_involutive.
Qed.

Lemma pretty_N_char_no_space (x : N) :
  PyStr.is_space (N_of_ascii (pretty_N_char x)) = false.
Proof.
  destruct x as [|p]; [reflexivity|].
  do 4 (destruct p as [p|p|]; try reflexivity).
Qed.

(** The decimal text of a number has no white space, and it is not
    empty. *)
Lemma pretty_N_go_no_space (x : N) :
  forall s,
    Forall (fun c => PyStr.is_space c = false) (PyStr.bytes_of s) ->
    Forall (fun c => PyStr.is_space c = false)
           (PyStr.bytes_of (pretty_N_go x s)) /\
    (length (PyStr.bytes_of s)
     <= length (PyStr.bytes_of (pretty_N_go x s)))%nat /\
    ((0 < x)%N -> PyStr.bytes_of (pretty_N_go x s) <> []).
Proof.
  induction (N.lt_wf_0 x) as [x _ IH]; intros s Hs.
  destruct (N.eq_dec x 0) as [->|Hx].
  - rewrite pretty_N_go_0. repeat split; [exact Hs|lia|lia].
  - rewrite pretty_N_go_step by lia.
    destruct (IH (x / 10)%N ltac:(apply N.div_lt; lia)
                (String (pretty_N_char (x mod 10)) s)) as (H1 & H2 & _).
    { cbn [PyStr.bytes_of]. constructor; [apply pretty_N_char_no_space|exact Hs]. }
    cbn [PyStr.bytes_of length] in H2.
    repeat split; [exact H1|lia|].
    intros _ E. rewrite E in H2. cbn [length] in H2. lia.
Qed.

Lemma str_of_Z_no_space (z : Z) :
  Forall (fun c => PyStr.is_space c = false) (PyStr.str_of_Z z) /\
  PyStr.str_of_Z z <> [].
Proof.
  assert (forall p : positive,
            Forall (fun c => PyStr.is_space c = false)
                   (PyStr.bytes_of (pretty p)) /\
            PyStr.bytes_of (pretty p) <> []) as Hpos.
  { intros p. unfold pretty, pretty_positive, pretty, pretty_N.
    destruct (decide (N.pos p = 0%N)) as [E|_]; [discriminate E|].
    destruct (pretty_N_go_no_space (N.pos p) EmptyString) as (H1 & _ & H3);
      [constructor|].
    split; [exact H1|apply H3; lia]. }
  unfold PyStr.str_of_Z, pretty, pretty_Z. destruct z as [|p|p].
  - split; [repeat constructor|discriminate].
  - apply Hpos.
  - change (PyStr.bytes_of ("-" +:+ pretty p))
      with (45%N :: PyStr.bytes_of (pretty p)).
    split; [constructor; [reflexivity|apply Hpos]|discriminate].
Qed.

Lemma validate_external_id_str_of_Z (z : Z) :
  Parser.validate_external_id (PyStr.str_of_Z z) = Some (PyStr.str_of_Z z).
Proof.
  destruct (str_of_Z_no_space z) as [Hall Hne].
  unfold Parser.validate_external_id.
  rewrite (strip_no_space _ Hall).
  destruct (PyStr.str_of_Z z) as [|c s]; [congruence|reflexivity].
Qed.

(** One lookup of a working selector on a document and a state that are
    both known. *)
Ltac known_selector field :=
  match goal with
  | |- context [Parser._get_working_selector ?el field ?st] =>
      let r := eval vm_compute in (Parser._get_working_selector el field st) in
      replace (Parser._get_working_selector el field st) with r
        by (vm_compute; reflexivity)
  end.

(** When the id comes neither from the attribute nor from the link, it is
    the decimal text of the hash of the link under the secret of the
    running process. *)
Lemma fallback_external_id (secret : PyHash.HashSecret)
    (urljoin : PyStr.pystr -> PyStr.pystr -> PyStr.pystr)
    (HttpUrl : PyStr.pystr -> option PyStr.pystr) (utcnow : Z)
    (page_url : PyStr.pystr) :
  HttpUrl slug_link <> None ->
  option_map Parser.external_id
    (fst (Parser.extract_project_data secret urljoin HttpUrl utcnow slug_card
            page_url Parser.init))
  = Some (PyStr.str_of_Z (PyHash.hash secret slug_link)).
Proof.
  intros Hurl. unfold Parser.extract_project_data.
  known_selector "project_title"%string.
  assert (Dom.get slug_card "data-want-id" = None) as -> by reflexivity.
  cbn [Parser.select_one_if].
  assert (Dom.select_one slug_card ".wants-card__header-title a"
          = Some (leaf 4303 [("href"%string, slug_link)] (PyStr.U "Landing page")))
    as -> by reflexivity.
  assert (Parser._extract_link_safe urljoin
            (Some (leaf 4303 [("href"%string, slug_link)] (PyStr.U "Landing page")))
            (Some Parser.base_url) = Some slug_link) as ->
    by (vm_compute; reflexivity).
  assert (Parser.search_slash_digits slug_link = None) as ->
    by (vm_compute; reflexivity).
  generalize (PyHash.hash secret slug_link). intros h.
  known_selector "description"%string.
  known_selector "price_container"%string.
  known_selector "author_name"%string.
  known_selector "category"%string.
  known_selector "responses_count"%string.
  known_selector "views_count"%string.
  known_selector "time_posted"%string.
  known_selector "tags"%string.
  known_selector "skills"%string.
  cbn [Parser.select_one_if].
  unfold Parser.Project_new. rewrite validate_external_id_str_of_Z.
  destruct (HttpUrl slug_link) as [url|]; [|congruence].
  vm_compute. reflexivity.
Qed.

(** C1 fails on the code: the fallback id is [str(hash(link))], and the
    hash of a string depends on the secret of the process.  For the same
    card, whose link passes the validation of [Project], a process started
    with hash seed 1 and one started with hash seed 2 extract different
    external ids. *)
Theorem fallback_external_id_differs_between_processes
    (urljoin : PyStr.pystr -> PyStr.pystr -> PyStr.pystr)
    (HttpUrl : PyStr.pystr -> option PyStr.pystr) (utcnow : Z)
    (page_url : PyStr.pystr) :
  HttpUrl slug_link <> None ->
  let run seed :=
    option_map Parser.external_id
      (fst (Parser.extract_project_data (PyHash.secret_of_seed seed) urljoin
              HttpUrl utcnow slug_card page_url Parser.init)) in
  run 1%Z = Some (PyStr.U "3307438790648402515") /\
  run 2%Z = Some (PyStr.U "8178354936713056290") /\
  run 1%Z <> run 2%Z.
Proof.
  intros Hurl. cbv beta zeta. rewrite !fallback_external_id by exact Hurl.
  assert (PyStr.str_of_Z (PyHash.hash (PyHash.secret_of_seed 1) slug_link)
          = PyStr.U "3307438790648402515") as -> by (vm_compute; reflexivity).
  assert (PyStr.str_of_Z (PyHash.hash (PyHash.secret_of_seed 2) slug_link)
          = PyStr.U "8178354936713056290") as -> by (vm_compute; reflexivity).
  repeat split. vm_compute. discriminate.
Qed.

Lemma fallback_external_id_differs_between_processes_witness :
  option_map Parser.external_id
    (fst (Parser.extract_project_data (PyHash.secret_of_seed 1)
            (fun base url => url) accepts_https 0 slug_card [] Parser.init))
  = Some (PyStr.U "3307438790648402515") /\
  option_map Parser.external_id
    (fst (Parser.extract_project_data (PyHash.secret_of_seed 2)
            (fun base url => url) accepts_https 0 slug_card [] Parser.init))
  = Some (PyStr.U "8178354936713056290").
Proof.
  destruct (fallback_external_id_differs_between_processes
              (fun base url => url) accepts_https 0 []) as (H1 & H2 & _).
  - vm_compute. discriminate.
  - split; [exact H1|exact H2].
Defined.

(** ** Selectors: the resolution cache *)

(** Keys of one field differ exactly when the documents have different
    object identities. *)
Lemma cache_key_inj (field_name : string) (soup1 soup2 : Dom.Tag) :
  Selectors.cache_key field_name soup1 = Selectors.cache_key field_name soup2 ->
  Dom.obj_id soup1 = Dom.obj_id soup2.
Proof.
  unfold Selectors.cache_key. intros H.
  apply String.app_inj in H. apply String.app_inj in H.
  apply pretty_Z_inj in H. exact H.
Qed.

(** Between documents that are alive together, and so have different
    identities, nothing leaks: an entry recorded for one is not looked up
    for the other. *)
Lemma test_selector_distinct_documents
    (cache : gmap string string) (soup1 soup2 : Dom.Tag) (field_name : string) :
  Dom.obj_id soup1 <> Dom.obj_id soup2 ->
  let cache1 := snd (Selectors.test_selector cache soup1 field_name) in
  cache1 !! Selectors.cache_key field_name soup2
  = cache !! Selectors.cache_key field_name soup2.
Proof.
  intros Hne. unfold Selectors.test_selector.
  destruct (cache !! Selectors.cache_key field_name soup1); simpl; [reflexivity|].
  destruct (Selectors.first_matching soup1 _); simpl; [|reflexivity].
  apply lookup_insert_ne. intros H. apply Hne. eapply cache_key_inj. exact H.
Qed.

(** An entry stays in the dictionary for the life of the process, and a
    later document whose object has the same identity gets it back without
    any of its own markup being looked at. *)
Lemma test_selector_same_identity
    (cache : gmap string string) (soup1 soup2 : Dom.Tag)
    (field_name selector : string) :
  Dom.obj_id soup1 = Dom.obj_id soup2 ->
  fst (Selectors.test_selector cache soup1 field_name) = Some selector ->
  fst (Selectors.test_selector
         (snd (Selectors.test_selector cache soup1 field_name)) soup2 field_name)
  = Some selector.
Proof.
  intros Hid H1.
  assert (Selectors.cache_key field_name soup2 = Selectors.cache_key field_name soup1)
    as Hkey by (unfold Selectors.cache_key; rewrite Hid; reflexivity).
  unfold Selectors.test_selector in *. rewrite Hkey.
  destruct (cache !! Selectors.cache_key field_name soup1) as [sel|] eqn:E; simpl in *.
  - rewrite E. simpl. exact H1.
  - destruct (Selectors.first_matching soup1 _) as [sel|]; simpl in *; [|discriminate].
    rewrite lookup_insert_eq. simpl. exact H1.
Qed.

(** C8 fails on the code: the caches are never emptied, and their keys are
    built from [id(soup)].  After the card selector has been resolved on the
    first document, resolving it on the second one returns the selector
    cached for the first, which selects nothing in the second; a parser
    with empty caches finds the fallback selector. *)
Theorem selector_cache_leaks_across_documents :
  let st1 := snd (Parser._get_working_selector old_layout_container
                    "project_card" Parser.init) in
  fst (Parser._get_working_selector old_layout_container "project_card" Parser.init)
    = Some ".want-card"%string /\
  fst (Parser._get_working_selector new_layout_container "project_card" st1)
    = Some ".want-card"%string /\
  Dom.select new_layout_container ".want-card" = [] /\
  fst (Parser._get_working_selector new_layout_container "project_card" Parser.init)
    = Some "[data-want-id]"%string /\
  fst (Selectors.test_selector (Parser._cached_selectors st1)
         new_layout_container "project_card")
    = Some ".want-card"%string.
Proof.
  repeat split; vm_compute; reflexivity.
Qed.

(** * Further properties of the code *)

(** ** RateLimiter *)

Lemma returns_ret {A} (a : A) : returns (ret a).
Proof. intros w. exists a. reflexivity. Qed.

Lemma returns_bind {A B} (c : M A) (k : A -> M B) :
  returns c -> (forall a, returns (k a)) -> returns (bind c k).
Proof.
  intros Hc Hk w. unfold bind. destruct (Hc w) as [a Ha].
  destruct (c w) as [o w']. simpl in Ha. subst o. apply Hk.
Qed.

Lemma returns_if {A} (b : bool) (c1 c2 : M A) :
  returns c1 -> returns c2 -> returns (if b then c1 else c2).
Proof. destruct b; auto. Qed.

Lemma returns_sleep d : returns (sleep d).
Proof. intros w. exists tt. reflexivity. Qed.

Lemma returns_modify f : returns (modify f).
Proof. intros w. exists tt. reflexivity. Qed.

Lemma returns_time_time : returns time_time.
Proof. intros w. eexists. reflexivity. Qed.

Lemma returns_get_self : returns get_self.
Proof. intros w. eexists. reflexivity. Qed.

Create HintDb returns.
#[local] Hint Resolve returns_ret returns_sleep returns_modify
  returns_time_time returns_get_self : returns.

Ltac step_returns :=
  repeat first
    [ solve [auto with returns]
    | apply returns_bind; [|intros ?]
    | apply returns_if
    | match goal with
      | |- returns (match ?d with [] => _ | _ :: _ => _ end) => destruct d
      end ].

Lemma len_nil_le (c : Q) : c <= len [] -> c <= 0.
Proof. unfold len. simpl. intros H. exact H. Qed.

(** With a positive ceiling, a window that has reached it is not empty. *)
Lemma returns_limit_delay h c win now ds :
  0 < c -> returns (limit_delay h c win now ds).
Proof.
  intros Hc. unfold limit_delay. case_Qle c (len win); [|auto with returns].
  destruct win as [|o win]; [|auto with returns].
  apply len_nil_le in E. lra.
Qed.

Lemma wait_if_blocked_returns (w : World) :
  fst (_wait_if_blocked w) = Returned tt.
Proof.
  destruct w as [st t].
  unfold _wait_if_blocked, bind, get_self, time_time, sleep, modify, ret. simpl.
  destruct (is_blocked st && Qlt_bool t (block_until st)); reflexivity.
Qed.

(** [_wait_if_blocked] touches the block flag and the clock only. *)
Lemma wait_if_blocked_self (w : World) :
  self (snd (_wait_if_blocked w))
  = set_block (is_blocked (self w) && negb (blocked (self w) (clock w)))
              (block_until (self w)) (self w).
Proof.
  destruct w as [st t]. destruct st.
  unfold _wait_if_blocked, blocked, bind, get_self, time_time, sleep, modify, ret.
  simpl.
  destruct is_blocked0; simpl; [|reflexivity].
  destruct (Qlt_bool t block_until0); simpl; [|reflexivity].
  destruct (Qlt_bool 0 (block_until0 - t)); reflexivity.
Qed.

Lemma enforce_returns_with_positive_ceilings (w : World) :
  0 < requests_per_second (config (self w)) ->
  0 < requests_per_minute (config (self w)) ->
  0 < requests_per_hour (config (self w)) ->
  fst (_enforce_rate_limits w) = Returned tt.
Proof.
  intros Hs Hm Hh. destruct w as [st t]. simpl in *.
  rewrite enforce_unfold.
  assert (returns
    (bind (limit_delay 1 (requests_per_second (config st))
             (second_window (cleaned t st)) t [])
       (fun d1 =>
          bind (limit_delay 60 (requests_per_minute (config st))
                  (minute_window (cleaned t st)) t d1)
            (fun d2 =>
               bind (limit_delay 3600 (requests_per_hour (config st))
                       (hour_window (cleaned t st)) t d2)
                 sleep_longest)))) as H.
  { repeat (apply returns_bind;
            [apply returns_limit_delay; assumption|intros ?]).
    intros w0. exists tt. apply sleep_longest_returns. }
  destruct (H (mkWorld (cleaned t st) t)) as [[] Ha]. exact Ha.
Qed.

(** What [acquire] does after a rate check that has returned. *)
Lemma acquire_unfold (w w1 w2 : World) :
  snd (_wait_if_blocked w) = w1 ->
  _enforce_rate_limits w1 = (Returned tt, w2) ->
  acquire w =
  (Returned tt,
   mkWorld (set_windows (second_window (self w2) ++ [clock w2])
                        (minute_window (self w2) ++ [clock w2])
                        (hour_window (self w2) ++ [clock w2]) (self w2))
           (if Qlt_bool 0 (current_delay (self w2))
            then clock w2 + current_delay (self w2) else clock w2)).
Proof.
  intros Hw He. unfold acquire, bind.
  pose proof (wait_if_blocked_returns w) as Hr.
  destruct (_wait_if_blocked w) as [o1 w1']. simpl in *. subst o1 w1'.
  rewrite He. destruct w2 as [st2 t2].
  unfold _add_request, _apply_delay, bind, time_time, modify, get_self, ret,
    sleep. simpl.
  destruct (Qlt_bool 0 (current_delay st2)); reflexivity.
Qed.

(** X2: with positive per-second, per-minute and per-hour ceilings
    [acquire] returns in every state: it only delays, it does not raise. *)
Theorem acquire_returns_with_positive_ceilings (w : World) :
  0 < requests_per_second (config (self w)) ->
  0 < requests_per_minute (config (self w)) ->
  0 < requests_per_hour (config (self w)) ->
  fst (acquire w) = Returned tt.
Proof.
  intros Hs Hm Hh.
  pose proof (wait_if_blocked_self w) as Hself.
  destruct (_wait_if_blocked w) as [o1 w1] eqn:Ew. simpl in Hself.
  assert (config (self w1) = config (self w)) as Hc
    by (rewrite Hself; reflexivity).
  pose proof (enforce_returns_with_positive_ceilings w1) as He.
  rewrite Hc in He. specialize (He Hs Hm Hh).
  destruct (_enforce_rate_limits w1) as [o2 w2] eqn:Ee. simpl in He. subst o2.
  rewrite (acquire_unfold w w1 w2); [reflexivity| |exact Ee].
  rewrite Ew. reflexivity.
Qed.

Lemma acquire_returns_with_positive_ceilings_witness :
  fst (acquire (run_ops busy_minute (mkWorld (init default_config) 0)))
  = Returned tt.
Proof.
  apply acquire_returns_with_positive_ceilings; vm_compute; reflexivity.
Defined.

(** X3: without per-second budget (a ceiling of zero or less) an [acquire]
    that finds no call within the last second raises [IndexError] in the
    rate check, on the head of the empty window, and records nothing. *)
Theorem acquire_raises_without_per_second_budget (st : RateLimiter) (now : Q) :
  requests_per_second (config st) <= 0 ->
  blocked st now = false ->
  drop_old 1 now (second_window st) = [] ->
  acquire (mkWorld st now) = (Raised IndexError, mkWorld (cleaned now st) now).
Proof.
  intros Hc Hnb Hempty. unfold acquire, bind.
  rewrite (wait_if_not_blocked st now Hnb). rewrite enforce_unfold.
  unfold bind, limit_delay. cbn [second_window cleaned set_windows].
  rewrite Hempty.
  case_Qle (requests_per_second (config st)) (len []); [reflexivity|].
  change (len []) with (0 # 1) in E. lra.
Qed.

Lemma acquire_raises_without_per_second_budget_witness :
  acquire (mkWorld (init zero_rate_config) 5)
  = (Raised IndexError, mkWorld (init zero_rate_config) 5).
Proof.
  apply (acquire_raises_without_per_second_budget (init zero_rate_config) 5).
  - vm_compute. discriminate.
  - reflexivity.
  - reflexivity.
Defined.

Lemma get_stats_unfold (st : RateLimiter) (t : Q) :
  get_stats (mkWorld st t) =
  (Returned
     {| requests_in_last_second := length (second_window (cleaned t st));
        requests_in_last_minute := length (minute_window (cleaned t st));
        requests_in_last_hour := length (hour_window (cleaned t st));
        stats_current_delay := current_delay st;
        stats_consecutive_errors := consecutive_errors st;
        stats_is_blocked := is_blocked st;
        block_time_remaining :=
          if is_blocked st then py_max 0 (block_until st - t) else 0 |},
   mkWorld (cleaned t st) t).
Proof. reflexivity. Qed.

(** X1: in every state reached from a fresh limiter, [get_stats] returns,
    its three counters are the numbers of recorded requests that are at
    most 1, 60 and 3600 seconds old, they are nested (second <= minute <=
    hour), and the remaining block time is never negative. *)
Theorem get_stats_counts (cfg : RateLimitConfig) (t0 : Q) (ops : list (Q * Op)) :
  let w := run_ops ops (mkWorld (init cfg) t0) in
  exists s,
    fst (get_stats w) = Returned s /\
    requests_in_last_second s
      = length (calls_within 1 (clock w) (second_window (self w))) /\
    requests_in_last_minute s
      = length (calls_within 60 (clock w) (minute_window (self w))) /\
    requests_in_last_hour s
      = length (calls_within 3600 (clock w) (hour_window (self w))) /\
    (requests_in_last_second s <= requests_in_last_minute s)%nat /\
    (requests_in_last_minute s <= requests_in_last_hour s)%nat /\
    0 <= block_time_remaining s.
Proof.
  intros w. pose proof (timeline_reachable cfg t0 ops) as Htl. fold w in Htl.
  destruct w as [st t].
  destruct (cleaned_windows st t Htl) as (Hs & Hm & Hh).
  pose proof (timeline_cleanup t _ Htl) as Hcl.
  change (snd (_cleanup_windows t (mkWorld st t)))
    with (mkWorld (cleaned t st) t) in Hcl.
  destruct Hcl as (Hsm & Hmh & _ & _). cbn [self] in Hsm, Hmh.
  rewrite get_stats_unfold. eexists. split; [reflexivity|].
  cbn [requests_in_last_second requests_in_last_minute requests_in_last_hour
       block_time_remaining self clock].
  repeat apply conj.
  - rewrite Hs. reflexivity.
  - rewrite Hm. reflexivity.
  - rewrite Hh. reflexivity.
  - apply suffix_length. exact Hsm.
  - apply suffix_length. exact Hmh.
  - destruct (is_blocked st); [apply py_max_ge_l|lra].
Qed.

(** Bounds on the clock are kept by the rate check. *)
Lemma enforce_clock_lower_bound (b : Q) :
  preserves (fun w => b <= clock w) _enforce_rate_limits.
Proof.
  assert (forall d, preserves (fun w => b <= clock w) (sleep d)) as Hsleep.
  { intros d [st t] H. unfold sleep. simpl in *. case_Qlt 0 d; simpl; lra. }
  assert (forall f, preserves (fun w => b <= clock w) (modify f)) as Hmod.
  { intros f [st t] H. exact H. }
  assert (forall h c win now ds,
            preserves (fun w => b <= clock w) (limit_delay h c win now ds)) as Hlim.
  { intros. unfold limit_delay. destruct (Qle_bool c (len win)); [|auto with preserves].
    destruct win; auto with preserves. }
  unfold _enforce_rate_limits, _cleanup_windows. step_preserves.
Qed.

Lemma wait_if_blocked_clock (st : RateLimiter) (t : Q) :
  is_blocked st = true ->
  block_until st <= clock (snd (_wait_if_blocked (mkWorld st t))).
Proof.
  intros Hb.
  unfold _wait_if_blocked, bind, get_self, time_time, sleep, modify, ret.
  simpl. rewrite Hb. simpl.
  case_Qlt t (block_until st); simpl.
  - case_Qlt 0 (block_until st - t); simpl; lra.
  - exact E.
Qed.

(** A blocked limiter lets a request through only when the block is over. *)
Lemma acquire_honours_block (w : World) :
  is_blocked (self w) = true ->
  fst (acquire w) = Returned tt ->
  exists ws t,
    second_window (self (snd (acquire w))) = ws ++ [t] /\
    block_until (self w) <= t.
Proof.
  intros Hb Hret. destruct w as [st t0]. simpl in Hb.
  pose proof (wait_if_blocked_clock st t0 Hb) as Hclk.
  destruct (_wait_if_blocked (mkWorld st t0)) as [o1 w1] eqn:Ew.
  simpl in Hclk.
  pose proof (enforce_clock_lower_bound (block_until st) w1 Hclk) as Hclk2.
  destruct (_enforce_rate_limits w1) as [[[]|e] w2] eqn:Ee.
  - rewrite (acquire_unfold (mkWorld st t0) w1 w2);
      [|rewrite Ew; reflexivity|exact Ee].
    simpl. eexists. eexists. split; [reflexivity|exact Hclk2].
  - exfalso. revert Hret. unfold acquire, bind.
    pose proof (wait_if_blocked_returns (mkWorld st t0)) as Hr.
    rewrite Ew in *. simpl in Hr. subst o1. rewrite Ee. simpl. discriminate.
Qed.

Lemma report_error_429_blocks (st : RateLimiter) (t0 : Q) :
  adaptive (config st) = true ->
  let st' := self (snd (report_error (Some 429%Z) (mkWorld st t0))) in
  is_blocked st' = true /\
  block_until st'
  = t0 + py_min (inject_Z ((consecutive_errors st + 1) * 30))
                (recovery_time (config st)).
Proof.
  intros Had.
  unfold report_error, bind, get_self, time_time, modify, _increase_delay,
    _apply_temporary_block, ret. simpl. rewrite Had. simpl.
  split; reflexivity.
Qed.

(** X4: after [report_error(429)] at time [t0] on an adaptive limiter, the
    next [acquire] that returns, whenever it is called, records its request
    no earlier than [t0 + min(consecutive_errors * 30, recovery_time)],
    with the count as incremented by the report. *)
Theorem request_after_429_waits_for_block (st : RateLimiter) (t0 d : Q) :
  adaptive (config st) = true ->
  let w1 := snd (report_error (Some 429%Z) (mkWorld st t0)) in
  let r := acquire (idle d w1) in
  fst r = Returned tt ->
  exists ws t,
    second_window (self (snd r)) = ws ++ [t] /\
    t0 + Qmin (inject_Z ((consecutive_errors st + 1) * 30))
              (recovery_time (config st)) <= t.
Proof.
  intros Had w1 r Hret.
  destruct (report_error_429_blocks st t0 Had) as [Hb Hu].
  fold w1 in Hb, Hu.
  assert (self (idle d w1) = self w1) as Hself
    by (unfold idle; destruct (Qlt_bool 0 d); reflexivity).
  destruct (acquire_honours_block (idle d w1)) as (ws & t & Hwin & Hle).
  - rewrite Hself. exact Hb.
  - exact Hret.
  - exists ws, t. split; [exact Hwin|].
    rewrite Hself, Hu in Hle. rewrite <- py_min_Qmin. exact Hle.
Qed.

Lemma request_after_429_waits_for_block_witness :
  let w1 := snd (report_error (Some 429%Z) (mkWorld (init default_config) 100)) in
  exists ws t,
    second_window (self (snd (acquire (idle 2 w1)))) = ws ++ [t] /\ 130 <= t.
Proof.
  intros w1.
  destruct (request_after_429_waits_for_block (init default_config) 100 2 eq_refl)
    as (ws & t & Hwin & Hle).
  - vm_compute. reflexivity.
  - exists ws, t. split; [exact Hwin|].
    assert (100 + Qmin (inject_Z ((consecutive_errors (init default_config) + 1) * 30))
                       (recovery_time (config (init default_config))) == 130) as He
      by (vm_compute; reflexivity).
    rewrite He in Hle. exact Hle.
Defined.

Lemma fixed_pace_sleep cfg d : preserves (fixed_pace cfg) (sleep d).
Proof. intros w H. unfold sleep; simpl. destruct (Qlt_bool 0 d); exact H. Qed.

Lemma fixed_pace_modify cfg (f : RateLimiter -> RateLimiter) :
  (forall s, config (f s) = config s) ->
  (forall s, current_delay (f s) = current_delay s) ->
  (forall s, consecutive_errors (f s) = consecutive_errors s) ->
  (forall s, is_blocked (f s) = false \/ is_blocked (f s) = is_blocked s) ->
  preserves (fixed_pace cfg) (modify f).
Proof.
  intros Hc Hd He Hb [st t] (H1 & H2 & H3 & H4). unfold fixed_pace in *.
  simpl in *. rewrite Hc, Hd, He. repeat split; try assumption.
  destruct (Hb st) as [->| ->]; [reflexivity|assumption].
Qed.

#[local] Hint Resolve fixed_pace_sleep : preserves.
#[local] Hint Extern 2 (preserves (fixed_pace _) (modify _)) =>
  (apply fixed_pace_modify; intros; auto) : preserves.

Lemma fixed_pace_limit_delay cfg h c win now ds :
  preserves (fixed_pace cfg) (limit_delay h c win now ds).
Proof.
  unfold limit_delay. destruct (Qle_bool c (len win)); [|auto with preserves].
  destruct win; auto with preserves.
Qed.

#[local] Hint Resolve fixed_pace_limit_delay : preserves.

Lemma fixed_pace_run_op cfg o :
  adaptive cfg = false -> preserves (fixed_pace cfg) (run_op o).
Proof.
  intros Hna. destruct o; simpl.
  - unfold acquire, _wait_if_blocked, _enforce_rate_limits, _cleanup_windows,
      _add_request, _apply_delay.
    step_preserves.
  - intros w H. unfold report_error, bind, get_self. simpl.
    destruct H as (Hc & H). rewrite Hc, Hna. simpl. split; assumption.
  - intros w H. unfold report_success, bind, get_self. simpl.
    destruct H as (Hc & H). rewrite Hc, Hna. simpl. split; assumption.
  - intros [st t] (Hc & _). unfold fixed_pace. simpl in *. subst cfg.
    repeat split; reflexivity.
Qed.

(** X5: a limiter that is not adaptive ignores all feedback: after any
    sequence of calls its delay is still [min_delay], its error count is
    zero and it is not blocked, whatever statuses were reported. *)
Theorem non_adaptive_limiter_keeps_pace (cfg : RateLimitConfig) (t0 : Q)
    (ops : list (Q * Op)) :
  adaptive cfg = false ->
  let st := self (run_ops ops (mkWorld (init cfg) t0)) in
  current_delay st = min_delay cfg /\
  consecutive_errors st = 0%Z /\
  is_blocked st = false.
Proof.
  intros Hna st.
  assert (fixed_pace cfg (run_ops ops (mkWorld (init cfg) t0))) as H.
  { assert (fixed_pace cfg (mkWorld (init cfg) t0)) as H0
      by (repeat split; reflexivity).
    revert H0. generalize (mkWorld (init cfg) t0).
    induction ops as [|[d o] ops IH]; intros w H; simpl; [exact H|].
    apply IH. apply fixed_pace_run_op; [exact Hna|].
    unfold idle. destruct (Qlt_bool 0 d); exact H. }
  destruct H as (_ & H). exact H.
Qed.

Lemma non_adaptive_limiter_keeps_pace_witness :
  let st := self (run_ops [(0, OpAcquire); (1, OpReportError (Some 429%Z));
                           (1, OpReportError None); (0, OpReportSuccess)]
                          (mkWorld (init fixed_pace_config) 0)) in
  current_delay st = 1 /\ consecutive_errors st = 0%Z /\ is_blocked st = false.
Proof.
  apply (non_adaptive_limiter_keeps_pace fixed_pace_config 0). reflexivity.
Defined.



(** X7: the registry creates a limiter for a domain once; a later
    [get_limiter] for the same domain returns the stored limiter and
    ignores the configuration it is given, and limiters of other domains
    are not affected. *)
Theorem get_limiter_first_config_wins (domain : string)
    (c1 c2 : option RateLimitConfig) (_limiters : gmap string RateLimiter) :
  _limiters !! domain = None ->
  let r1 := get_limiter domain c1 _limiters in
  let r2 := get_limiter domain c2 (snd r1) in
  fst r2 = fst r1 /\
  snd r2 = snd r1 /\
  config (fst r2) = match c1 with Some c => c | None => default_config end /\
  (forall other, other <> domain -> snd r2 !! other = _limiters !! other).
Proof.
  intros Hnew r1 r2. subst r2 r1. unfold get_limiter.
  rewrite Hnew. simpl. rewrite lookup_insert_eq. simpl.
  repeat split.
  intros other Hne. apply lookup_insert_ne. congruence.
Qed.

Lemma get_limiter_first_config_wins_witness :
  config (fst (get_limiter "kwork.ru" (Some AGGRESSIVE_CONFIG)
                 (snd (get_limiter "kwork.ru" (Some STANDARD_CONFIG) ∅))))
  = STANDARD_CONFIG.
Proof.
  destruct (get_limiter_first_config_wins "kwork.ru" (Some STANDARD_CONFIG)
              (Some AGGRESSIVE_CONFIG) ∅) as (_ & _ & H & _).
  - apply lookup_empty.
  - exact H.
Defined.

(** ** Retry *)

(** X8: the classification of an exception depends on its class alone.
    A [ClientResponseError] derives from [ClientError], so it is retryable
    whatever its status (a 404 as much as a 503); the status test of
    [is_retryable_exception] is never reached for it. *)
Theorem retryability_ignores_status (c : Retry.ExcClass) (s1 s2 : Z)
    (m1 m2 : string) :
  Retry.is_retryable_exception (Retry.mkException c s1 m1)
  = Retry.is_retryable_exception (Retry.mkException c s2 m2) /\
  Retry.is_retryable_exception
    (Retry.mkException Retry.C_ClientResponseError s1 m1) = true /\
  Retry.is_retryable_exception
    (Retry.mkException Retry.C_NonRetryableError s1 m1) = false.
Proof.
  split; [|split; reflexivity].
  destruct c; reflexivity.
Qed.

(** One turn of the loop. *)
Lemma attempts_step (A : Type) (func : nat -> Retry.Result A)
    (cfg : Retry.RetryConfig) (rnd : nat -> Q) (n : nat) (a : Z)
    (tr : Retry.Trace) (last : option Retry.PyException) :
  Retry.attempts func cfg rnd (S n) a tr last =
  match func (Retry.calls tr) with
  | Retry.Ok result =>
      (Retry.Ok result,
       Retry.mkTrace (S (Retry.calls tr)) (Retry.slept tr) (Retry.notified tr))
  | Retry.Err e =>
      if negb (Retry.is_retryable_exception e) then
        (Retry.Err e,
         Retry.mkTrace (S (Retry.calls tr)) (Retry.slept tr) (Retry.notified tr))
      else if (a =? Retry.max_attempts cfg)%Z then
        (Retry.Err e,
         Retry.mkTrace (S (Retry.calls tr)) (Retry.slept tr) (Retry.notified tr))
      else
        match Retry.calculate_delay a cfg (rnd (length (Retry.slept tr))) with
        | Retry.Err raised =>
            (Retry.Err raised,
             Retry.mkTrace (S (Retry.calls tr)) (Retry.slept tr)
                           (Retry.notified tr))
        | Retry.Ok delay =>
            Retry.attempts func cfg rnd n (a + 1)
              (Retry.mkTrace (S (Retry.calls tr)) (Retry.slept tr ++ [delay])
                             (Retry.notified tr ++ [(a, e, delay)]))
              (Some e)
        end
  end.
Proof. reflexivity. Qed.

(** What the loop does from a given attempt on, when the attempts that are
    left are the last ones of the configuration. *)
Lemma attempts_trace (A : Type) (func : nat -> Retry.Result A)
    (cfg : Retry.RetryConfig) (rnd : nat -> Q) (n : nat) :
  forall (a : Z) (tr : Retry.Trace) (last : option Retry.PyException),
    (1 <= a)%Z ->
    (a + Z.of_nat (S n) = Retry.max_attempts cfg + 1)%Z ->
    let tr' := snd (Retry.attempts func cfg rnd (S n) a tr last) in
    (Retry.calls tr < Retry.calls tr')%nat /\
    (Retry.calls tr' <= Retry.calls tr + S n)%nat /\
    (length (Retry.slept tr') + Retry.calls tr + 1
     = length (Retry.slept tr) + Retry.calls tr')%nat /\
    (length (Retry.notified tr') + Retry.calls tr + 1
     = length (Retry.notified tr) + Retry.calls tr')%nat.
Proof.
  induction n as [|n IH]; intros a tr last Ha Hsum tr'.
  - subst tr'. simpl.
    destruct (func (Retry.calls tr)) as [v|e]; simpl; [lia|].
    destruct (Retry.is_retryable_exception e); simpl; [|lia].
    assert (a = Retry.max_attempts cfg) as -> by lia.
    rewrite Z.eqb_refl. simpl. lia.
  - subst tr'. rewrite attempts_step.
    destruct (func (Retry.calls tr)) as [v|e] eqn:Hf;
      [cbn [snd Retry.calls Retry.slept Retry.notified]; lia|].
    destruct (negb (Retry.is_retryable_exception e));
      [cbn [snd Retry.calls Retry.slept Retry.notified]; lia|].
    destruct (a =? Retry.max_attempts cfg)%Z;
      [cbn [snd Retry.calls Retry.slept Retry.notified]; lia|].
    cbn [Retry.calls Retry.slept Retry.notified].
    destruct (Retry.calculate_delay a cfg (rnd (length (Retry.slept tr))))
      as [d|raised];
      [|cbn [snd Retry.calls Retry.slept Retry.notified]; lia].
    specialize (IH (a + 1)%Z
      (Retry.mkTrace (S (Retry.calls tr)) (Retry.slept tr ++ [d])
                     (Retry.notified tr ++ [(a, e, d)])) (Some e)).
    cbv zeta in IH.
    destruct (Retry.attempts func cfg rnd (S n) (a + 1) _ (Some e))
      as [res tr2].
    cbn [snd Retry.calls Retry.slept Retry.notified] in *.
    rewrite !length_app in IH. cbn [length] in IH.
    destruct IH as (H1 & H2 & H3 & H4); [lia|lia|]. lia.
Qed.

(** X9: whatever the operation does, [retry_async] invokes it at most
    [max_attempts] times, and when [max_attempts >= 1] at least once; it
    sleeps exactly once between two consecutive invocations and notifies
    [on_retry] once per sleep. *)
Theorem retry_async_call_budget {A : Type} (func : nat -> Retry.Result A)
    (cfg : Retry.RetryConfig) (rnd : nat -> Q) :
  let tr := snd (Retry.retry_async func cfg rnd) in
  (Retry.calls tr <= Z.to_nat (Retry.max_attempts cfg))%nat /\
  ((1 <= Retry.max_attempts cfg)%Z ->
   (1 <= Retry.calls tr)%nat /\
   (length (Retry.slept tr) + 1 = Retry.calls tr)%nat /\
   length (Retry.notified tr) = length (Retry.slept tr)).
Proof.
  intros tr. subst tr. unfold Retry.retry_async.
  destruct (Z.to_nat (Retry.max_attempts cfg)) as [|n] eqn:En.
  - simpl. split; [lia|]. intros H. lia.
  - pose proof (attempts_trace A func cfg rnd n 1 (Retry.mkTrace 0 [] []) None) as H.
    cbv zeta in H.
    destruct (Retry.attempts func cfg rnd (S n) 1 _ None) as [res tr'].
    cbn [snd Retry.calls Retry.slept Retry.notified length] in *.
    destruct H as (H1 & H2 & H3 & H4); [lia|lia|].
    split; [lia|]. intros _. lia.
Qed.

Lemma retry_async_call_budget_witness :
  (1 <= Retry.calls (snd (Retry.retry_async third_time_lucky
                            Retry.default_config (fun _ => 0%Q))) <= 3)%nat.
Proof.
  destruct (retry_async_call_budget third_time_lucky Retry.default_config
              (fun _ => 0)) as [H1 H2].
  split; [apply H2; cbn; lia|exact H1].
Defined.

(** X10: with [max_attempts <= 0] the loop body never runs: the operation
    is not invoked at all and [retry_async] raises [RuntimeError]. *)
Theorem retry_async_without_attempts {A : Type} (func : nat -> Retry.Result A)
    (cfg : Retry.RetryConfig) (rnd : nat -> Q) :
  (Retry.max_attempts cfg <= 0)%Z ->
  exists e,
    fst (Retry.retry_async func cfg rnd) = Retry.Err e /\
    Retry.exc_class e = Retry.C_RuntimeError /\
    Retry.calls (snd (Retry.retry_async func cfg rnd)) = 0%nat.
Proof.
  intros Hmax. unfold Retry.retry_async.
  assert (Z.to_nat (Retry.max_attempts cfg) = 0%nat) as -> by lia.
  simpl. eexists. repeat split.
Qed.

Lemma retry_async_without_attempts_witness :
  exists e,
    fst (Retry.retry_async third_time_lucky no_attempt_config (fun _ => 0))
      = Retry.Err e /\
    Retry.exc_class e = Retry.C_RuntimeError /\
    Retry.calls (snd (Retry.retry_async third_time_lucky no_attempt_config
                        (fun _ => 0))) = 0%nat.
Proof.
  apply retry_async_without_attempts. vm_compute. discriminate.
Defined.

Lemma attempts_until_success (A : Type) (func : nat -> Retry.Result A)
    (cfg : Retry.RetryConfig) (rnd : nat -> Q) (v : A) (k : nat) :
  forall (n : nat) (a : Z) (tr : Retry.Trace) (last : option Retry.PyException),
    (1 <= a)%Z ->
    (a + Z.of_nat n = Retry.max_attempts cfg + 1)%Z ->
    (k < n)%nat ->
    (forall i, (i < k)%nat ->
       exists e, func (Retry.calls tr + i)%nat = Retry.Err e /\
                 Retry.is_retryable_exception e = true) ->
    (forall i, (i < k)%nat -> power_in_range cfg (a + Z.of_nat i)) ->
    func (Retry.calls tr + k)%nat = Retry.Ok v ->
    let r := Retry.attempts func cfg rnd n a tr last in
    fst r = Retry.Ok v /\
    Retry.calls (snd r) = (Retry.calls tr + k + 1)%nat /\
    length (Retry.slept (snd r)) = (length (Retry.slept tr) + k)%nat.
Proof.
  induction k as [|k IH]; intros n a tr last Ha Hsum Hk Hfail Hpow Hok r;
    subst r.
  - destruct n as [|n]; [lia|]. simpl.
    rewrite Nat.add_0_r in Hok. rewrite Hok. simpl.
    repeat split; lia.
  - destruct n as [|n]; [lia|].
    destruct (Hfail 0%nat) as (e & Hf & Hr); [lia|].
    rewrite Nat.add_0_r in Hf.
    assert (power_in_range cfg a) as Hpa.
    { specialize (Hpow 0%nat ltac:(lia)).
      replace (a + Z.of_nat 0)%Z with a in Hpow by lia. exact Hpow. }
    destruct (attempts_retry func cfg rnd n a tr last e Hf Hr Ha Hpa)
      as [d ->]; [lia|].
    specialize (IH n (a + 1)%Z
      (Retry.mkTrace (S (Retry.calls tr)) (Retry.slept tr ++ [d])
                     (Retry.notified tr ++ [(a, e, d)])) (Some e)).
    cbv zeta in IH.
    destruct (Retry.attempts func cfg rnd n (a + 1) _ (Some e)) as [res tr2].
    cbn [fst snd Retry.calls Retry.slept] in *.
    rewrite length_app in IH. cbn [length] in IH.
    destruct IH as (H1 & H2 & H3); [lia|lia|lia| | | |].
    + intros i Hi. replace (S (Retry.calls tr) + i)%nat
        with (Retry.calls tr + S i)%nat by lia.
      apply Hfail. lia.
    + intros i Hi. replace (a + 1 + Z.of_nat i)%Z
        with (a + Z.of_nat (S i))%Z by lia.
      apply Hpow. lia.
    + replace (S (Retry.calls tr) + k)%nat
        with (Retry.calls tr + S k)%nat by lia.
      exact Hok.
    + repeat split; [exact H1|lia|lia].
Qed.

(** X11: if the first [k] invocations fail with retryable errors,
    invocation [k + 1] returns a value, with [k + 1 <= max_attempts], and
    the delays of the first [k] attempts can be computed (their powers
    are within the range of the floats), then [retry_async] returns that
    value after exactly [k + 1] invocations and [k] sleeps. *)
Theorem retry_async_returns_first_success {A : Type}
    (func : nat -> Retry.Result A) (cfg : Retry.RetryConfig) (rnd : nat -> Q)
    (k : nat) (v : A) :
  (Z.of_nat k < Retry.max_attempts cfg)%Z ->
  (forall i, (i < k)%nat ->
     exists e, func i = Retry.Err e /\ Retry.is_retryable_exception e = true) ->
  (forall i, (i < k)%nat -> power_in_range cfg (1 + Z.of_nat i)) ->
  func k = Retry.Ok v ->
  fst (Retry.retry_async func cfg rnd) = Retry.Ok v /\
  Retry.calls (snd (Retry.retry_async func cfg rnd)) = S k /\
  length (Retry.slept (snd (Retry.retry_async func cfg rnd))) = k.
Proof.
  intros Hk Hfail Hpow Hok. unfold Retry.retry_async.
  destruct (attempts_until_success A func cfg rnd v k
              (Z.to_nat (Retry.max_attempts cfg)) 1
              (Retry.mkTrace 0 [] []) None) as (H1 & H2 & H3);
    try lia; try assumption.
  cbn [Retry.calls Retry.slept] in H2, H3. simpl in H2, H3.
  repeat split; [exact H1|lia|lia].
Qed.

Lemma retry_async_returns_first_success_witness :
  fst (Retry.retry_async third_time_lucky Retry.STANDARD_RETRY (fun _ => 0.5))
    = Retry.Ok 200%Z /\
  Retry.calls (snd (Retry.retry_async third_time_lucky Retry.STANDARD_RETRY
                      (fun _ => 0.5))) = 3%nat /\
  length (Retry.slept (snd (Retry.retry_async third_time_lucky
                              Retry.STANDARD_RETRY (fun _ => 0.5)))) = 2%nat.
Proof.
  apply (retry_async_returns_first_success third_time_lucky
           Retry.STANDARD_RETRY (fun _ => 0.5) 2 200%Z).
  - vm_compute. reflexivity.
  - intros i Hi. destruct i as [|[|i]]; [| |lia];
      (eexists; split; reflexivity).
  - intros i Hi. destruct i as [|[|i]]; [| |lia];
      split; split; vm_compute; reflexivity.
  - reflexivity.
Defined.

Lemma calculate_delay_in_range (k : Z) (cfg : Retry.RetryConfig) (u d : Q) :
  0 <= u -> u < 1 -> 0 <= Retry.max_delay cfg ->
  Retry.calculate_delay k cfg u = Retry.Ok d ->
  delay_in_range cfg d.
Proof.
  intros Hu0 Hu1 Hmax. unfold Retry.calculate_delay, delay_in_range.
  destruct (Retry.py_pow _ _) as [p|raised]; [|discriminate].
  set (d' := py_min (Retry.base_delay cfg * p * Retry.backoff_multiplier cfg)
                    (Retry.max_delay cfg)).
  assert (d' <= Retry.max_delay cfg) as Hd by apply py_min_le_r.
  intros H. injection H as <-. split; [apply py_max_ge_l|].
  apply py_max_lub; [lra|].
  destruct (Retry.jitter cfg); [|lra].
  unfold Retry.uniform.
  assert (d' + (- (d' * 0.1) + (d' * 0.1 - - (d' * 0.1)) * u)
          == d' * 0.9 + 0.2 * (d' * u)) as -> by ring.
  destruct (Qlt_le_dec d' 0) as [Hneg|Hpos].
  - destruct (Qmult_unit_interval_neg d' u) as [H1 H2]; lra.
  - destruct (Qmult_unit_interval_nonneg d' u) as [H1 H2]; lra.
Qed.

Lemma attempts_sleeps_in_range (A : Type) (func : nat -> Retry.Result A)
    (cfg : Retry.RetryConfig) (rnd : nat -> Q) :
  (forall i, 0 <= rnd i /\ rnd i < 1) ->
  0 <= Retry.max_delay cfg ->
  forall (n : nat) (a : Z) (tr : Retry.Trace) (last : option Retry.PyException),
    Forall (delay_in_range cfg) (Retry.slept tr) ->
    Forall (delay_in_range cfg)
           (Retry.slept (snd (Retry.attempts func cfg rnd n a tr last))).
Proof.
  intros Hrnd Hmax. induction n as [|n IH]; intros a tr last Hall; simpl.
  - destruct last; exact Hall.
  - destruct (func (Retry.calls tr)) as [v|e]; simpl; [exact Hall|].
    destruct (Retry.is_retryable_exception e); simpl; [|exact Hall].
    destruct (a =? Retry.max_attempts cfg)%Z; simpl; [exact Hall|].
    destruct (Retry.calculate_delay a cfg (rnd (length (Retry.slept tr))))
      as [d|raised] eqn:Hd; simpl; [|exact Hall].
    apply IH. simpl. apply Forall_app. split; [exact Hall|].
    constructor; [|constructor].
    destruct (Hrnd (length (Retry.slept tr))) as [H0 H1].
    eapply calculate_delay_in_range; eassumption.
Qed.

(** X12: with a non-negative [max_delay] and draws in [0, 1), every delay
    that [retry_async] sleeps lies between 0 and 1.1 * max_delay, whatever
    the other settings and whatever the operation does. *)
Theorem retry_async_sleeps_in_range {A : Type} (func : nat -> Retry.Result A)
    (cfg : Retry.RetryConfig) (rnd : nat -> Q) :
  (forall i, 0 <= rnd i /\ rnd i < 1) ->
  0 <= Retry.max_delay cfg ->
  Forall (delay_in_range cfg)
         (Retry.slept (snd (Retry.retry_async func cfg rnd))).
Proof.
  intros Hrnd Hmax. unfold Retry.retry_async.
  apply attempts_sleeps_in_range; [exact Hrnd|exact Hmax|constructor].
Qed.

Lemma retry_async_sleeps_in_range_witness :
  Forall (delay_in_range Retry.AGGRESSIVE_RETRY)
         (Retry.slept (snd (Retry.retry_async (always_status 503)
                              Retry.AGGRESSIVE_RETRY (fun _ => 0.25)))).
Proof.
  apply retry_async_sleeps_in_range.
  - intros i. split; vm_compute; [discriminate|reflexivity].
  - vm_compute. discriminate.
Defined.

(** ** User agents: rotation *)

Lemma random_choice_in (draw : nat) (l : list string) :
  l <> [] -> In (UserAgents.random_choice draw l) l.
Proof.
  intros Hne. unfold UserAgents.random_choice. apply nth_In.
  apply Nat.mod_upper_bound. destruct l; [congruence|simpl; lia].
Qed.

Lemma build_agents_pool_nonempty (cfg : UserAgents.UserAgentConfig) :
  UserAgents._build_agents_pool cfg <> [].
Proof.
  destruct cfg as [i rr pc pd im]. unfold UserAgents._build_agents_pool.
  destruct pc, pd, im; vm_compute; discriminate.
Qed.

Lemma str_in_In (x : string) (l : list string) :
  UserAgents.str_in x l = true <-> In x l.
Proof.
  unfold UserAgents.str_in. rewrite existsb_exists. split.
  - intros (y & Hy & He). apply String.eqb_eq in He. subst y. exact Hy.
  - intros H. exists x. split; [exact H|apply String.eqb_refl].
Qed.

Lemma index_of_lt (x : string) (l : list string) :
  In x l -> (UserAgents.index_of x l < length l)%nat.
Proof.
  induction l as [|y l IH]; simpl; [tauto|].
  intros [->|H].
  - rewrite String.eqb_refl. lia.
  - destruct (String.eqb x y); [lia|]. specialize (IH H). lia.
Qed.

(** The agent that a rotation makes active. *)
Lemma rotate_agent_current (draw : nat) (r : UserAgents.UserAgentRotator) :
  UserAgents.agents_pool r <> [] ->
  exists a,
    UserAgents.current_agent (UserAgents._rotate_agent draw r) = Some a /\
    In a (UserAgents.agents_pool r) /\
    UserAgents.agents_pool (UserAgents._rotate_agent draw r)
      = UserAgents.agents_pool r /\
    UserAgents.config (UserAgents._rotate_agent draw r) = UserAgents.config r /\
    UserAgents.request_count (UserAgents._rotate_agent draw r) = 0%Z /\
    (UserAgents.random_rotation (UserAgents.config r) = true ->
     (exists b, In b (UserAgents.agents_pool r) /\
                ~ In b (UserAgents.last_n 5 (UserAgents.used_agents r))) ->
     ~ In a (UserAgents.last_n 5 (UserAgents.used_agents r))).
Proof.
  intros Hne. unfold UserAgents._rotate_agent.
  destruct (UserAgents.random_rotation (UserAgents.config r)) eqn:Err.
  - set (avail := List.filter _ (UserAgents.agents_pool r)).
    eexists. split; [reflexivity|]. cbn [UserAgents.agents_pool
      UserAgents.config UserAgents.request_count].
    destruct avail as [|x avail'] eqn:Ea.
    + repeat split.
      * apply random_choice_in. exact Hne.
      * intros _ (b & Hb & Hnb). exfalso.
        assert (In b avail) as Hin.
        { subst avail. apply filter_In. split; [exact Hb|].
          apply negb_true_iff. apply not_true_is_false.
          intros H. apply Hnb. apply str_in_In. exact H. }
        rewrite Ea in Hin. destruct Hin.
    + assert (In (UserAgents.random_choice draw (x :: avail')) avail) as Hin.
      { rewrite Ea. apply random_choice_in. discriminate. }
      subst avail. apply filter_In in Hin. destruct Hin as [Hp Hf].
      repeat split.
      * exact Hp.
      * intros _ _ H. apply negb_true_iff in Hf.
        apply str_in_In in H. congruence.
  - eexists. split; [reflexivity|]. cbn [UserAgents.agents_pool
      UserAgents.config UserAgents.request_count].
    repeat split.
    + apply nth_In. apply Nat.mod_upper_bound.
      destruct (UserAgents.agents_pool r); [congruence|simpl; lia].
    + intros H. discriminate.
Qed.

Lemma get_user_agent_ok (pool : list string) (draw : nat)
    (r : UserAgents.UserAgentRotator) :
  rotator_ok pool r ->
  In (fst (UserAgents.get_user_agent draw r)) pool /\
  rotator_ok pool (snd (UserAgents.get_user_agent draw r)).
Proof.
  intros (Hp & Hne & Hcur). unfold UserAgents.get_user_agent.
  assert (UserAgents.agents_pool r <> []) as Hne' by (rewrite Hp; exact Hne).
  destruct (rotate_agent_current draw r Hne') as (a & Ha & Hin & Hpool & _).
  rewrite Hp in Hin.
  set (r1 := match UserAgents.current_agent r with
             | None => UserAgents._rotate_agent draw r
             | Some _ =>
                 if (UserAgents.rotation_interval (UserAgents.config r)
                     <=? UserAgents.request_count r)%Z
                 then UserAgents._rotate_agent draw r else r
             end).
  assert (exists b, UserAgents.current_agent r1 = Some b /\ In b pool /\
                    UserAgents.agents_pool r1 = pool) as (b & Hb & Hbin & Hbp).
  { subst r1. destruct (UserAgents.current_agent r) as [c|] eqn:Ec.
    - destruct (_ <=? _)%Z.
      + exists a. rewrite Hpool, Hp. auto.
      + exists c. rewrite Ec. auto.
    - exists a. rewrite Hpool, Hp. auto. }
  clearbody r1.
  cbn [fst snd UserAgents.current_agent]. rewrite Hb. split; [exact Hbin|].
  unfold rotator_ok. cbn [UserAgents.agents_pool UserAgents.current_agent].
  repeat split; [exact Hbp|exact Hne|].
  intros c Hc. injection Hc as <-. exact Hbin.
Qed.

Lemma force_rotate_ok (pool : list string) (draw : nat)
    (r : UserAgents.UserAgentRotator) :
  rotator_ok pool r ->
  In (fst (UserAgents.force_rotate draw r)) pool /\
  rotator_ok pool (snd (UserAgents.force_rotate draw r)).
Proof.
  intros H. unfold UserAgents.force_rotate. apply get_user_agent_ok.
  destruct H as (Hp & Hne & Hcur). repeat split; assumption.
Qed.

(** X13: every user agent that a rotator serves, by [get_user_agent] or by
    [force_rotate], in any order and for any random draws, is an entry of
    the pool built from its configuration; the pool is never empty. *)
Theorem served_agents_come_from_pool (cfg : UserAgents.UserAgentConfig)
    (requests : list (bool * nat)) :
  UserAgents._build_agents_pool cfg <> [] /\
  Forall (fun agent => In agent (UserAgents._build_agents_pool cfg))
         (fst (UserAgents.serve requests (UserAgents.init cfg))).
Proof.
  split; [apply build_agents_pool_nonempty|].
  assert (rotator_ok (UserAgents._build_agents_pool cfg) (UserAgents.init cfg))
    as H0.
  { repeat split; [apply build_agents_pool_nonempty|]. intros a H. discriminate. }
  revert H0. generalize (UserAgents.init cfg).
  induction requests as [|[force draw] rest IH]; intros r Hok; simpl.
  - constructor.
  - destruct force.
    + destruct (force_rotate_ok _ draw r Hok) as [Hin Hok'].
      destruct (UserAgents.force_rotate draw r) as [agent r'].
      specialize (IH r' Hok').
      destruct (UserAgents.serve rest r') as [agents r'']. simpl in *.
      constructor; assumption.
    + destruct (get_user_agent_ok _ draw r Hok) as [Hin Hok'].
      destruct (UserAgents.get_user_agent draw r) as [agent r'].
      specialize (IH r' Hok').
      destruct (UserAgents.serve rest r') as [agents r'']. simpl in *.
      constructor; assumption.
Qed.

Lemma serve_keeps_agent (draws : list nat) :
  forall (r : UserAgents.UserAgentRotator) (a : string),
    UserAgents.current_agent r = Some a ->
    (UserAgents.request_count r + Z.of_nat (length draws)
     <= UserAgents.rotation_interval (UserAgents.config r))%Z ->
    let out := UserAgents.serve (plain_requests draws) r in
    fst out = repeat a (length draws) /\
    UserAgents.current_agent (snd out) = Some a /\
    UserAgents.used_agents (snd out) = UserAgents.used_agents r /\
    UserAgents.config (snd out) = UserAgents.config r /\
    UserAgents.request_count (snd out)
      = (UserAgents.request_count r + Z.of_nat (length draws))%Z.
Proof.
  induction draws as [|d draws IH]; intros r a Ha Hcount out; subst out.
  - simpl. repeat split; try assumption. lia.
  - cbn [plain_requests map UserAgents.serve].
    fold (plain_requests draws).
    assert (UserAgents.get_user_agent d r
            = (a, UserAgents.mkRotator (UserAgents.config r) (Some a)
                    (UserAgents.request_count r + 1)
                    (UserAgents.agents_pool r) (UserAgents.used_agents r)))
      as ->.
    { unfold UserAgents.get_user_agent. rewrite Ha.
      assert ((UserAgents.rotation_interval (UserAgents.config r)
               <=? UserAgents.request_count r)%Z = false) as ->.
      { apply Z.leb_gt. simpl length in Hcount. lia. }
      simpl. rewrite Ha. reflexivity. }
    specialize (IH (UserAgents.mkRotator (UserAgents.config r) (Some a)
                      (UserAgents.request_count r + 1)
                      (UserAgents.agents_pool r) (UserAgents.used_agents r)) a).
    cbv zeta in IH.
    destruct (UserAgents.serve (plain_requests draws) _) as [agents r'].
    cbn [fst snd UserAgents.current_agent UserAgents.request_count
         UserAgents.config UserAgents.used_agents length] in *.
    destruct IH as (H1 & H2 & H3 & H4 & H5); [reflexivity|lia|].
    simpl. rewrite H1. repeat split; try assumption. lia.
Qed.

(** X14: a rotator with [rotation_interval = n >= 1] serves the agent of
    its first rotation to the first [n] requests; the request after these
    rotates again. *)
Theorem agent_kept_for_rotation_interval (cfg : UserAgents.UserAgentConfig)
    (d0 : nat) (draws : list nat) (d1 : nat) :
  Z.of_nat (S (length draws)) = UserAgents.rotation_interval cfg ->
  let out := UserAgents.serve (plain_requests (d0 :: draws)) (UserAgents.init cfg) in
  exists a,
    fst out = repeat a (S (length draws)) /\
    UserAgents.used_agents (snd out) = [a] /\
    length (UserAgents.used_agents
              (snd (UserAgents.get_user_agent d1 (snd out)))) = 2%nat.
Proof.
  intros Hn out. subst out.
  cbn [plain_requests map UserAgents.serve]. fold (plain_requests draws).
  destruct (rotate_agent_current d0 (UserAgents.init cfg)) as
    (a & Ha & _ & Hpool & Hcfg & Hcnt & _);
    [apply build_agents_pool_nonempty|].
  assert (UserAgents.used_agents (UserAgents._rotate_agent d0 (UserAgents.init cfg))
          = [a]) as Hused.
  { revert Ha. unfold UserAgents._rotate_agent. cbn [UserAgents.current_agent
      UserAgents.used_agents UserAgents.init app].
    intros H. injection H as <-. reflexivity. }
  set (rot := UserAgents._rotate_agent d0 (UserAgents.init cfg)) in *.
  set (r1 := UserAgents.mkRotator (UserAgents.config rot) (Some a)
               (UserAgents.request_count rot + 1)
               (UserAgents.agents_pool rot) (UserAgents.used_agents rot)).
  assert (UserAgents.get_user_agent d0 (UserAgents.init cfg) = (a, r1)) as ->.
  { unfold UserAgents.get_user_agent.
    cbn [UserAgents.current_agent UserAgents.init]. fold rot.
    cbn [fst snd UserAgents.current_agent]. rewrite Ha. reflexivity. }
  pose proof (serve_keeps_agent draws r1 a eq_refl) as H.
  cbv zeta in H.
  destruct (UserAgents.serve (plain_requests draws) r1) as [agents r'].
  cbn [fst snd] in *.
  destruct H as (H1 & H2 & H3 & H4 & H5).
  { subst r1. cbn [UserAgents.request_count UserAgents.config].
    rewrite Hcnt, Hcfg. cbn [UserAgents.config UserAgents.init]. lia. }
  exists a. rewrite H1. split; [reflexivity|]. split.
  { rewrite H3. subst r1. cbn [UserAgents.used_agents]. exact Hused. }
  unfold UserAgents.get_user_agent. rewrite H2.
  assert ((UserAgents.rotation_interval (UserAgents.config r')
           <=? UserAgents.request_count r')%Z = true) as ->.
  { apply Z.leb_le. rewrite H4, H5. subst r1.
    cbn [UserAgents.request_count UserAgents.config].
    rewrite Hcnt, Hcfg. cbn [UserAgents.config UserAgents.init]. lia. }
  cbn [snd UserAgents.used_agents].
  unfold UserAgents._rotate_agent. cbn [UserAgents.used_agents].
  rewrite H3. subst r1. cbn [UserAgents.used_agents]. rewrite Hused.
  reflexivity.
Qed.

Lemma agent_kept_for_rotation_interval_witness :
  exists a,
    fst (UserAgents.serve (plain_requests [7; 8; 9]%nat)
           (UserAgents.init three_request_config)) = [a; a; a] /\
    UserAgents.used_agents
      (snd (UserAgents.serve (plain_requests [7; 8; 9]%nat)
              (UserAgents.init three_request_config))) = [a].
Proof.
  destruct (agent_kept_for_rotation_interval three_request_config 7
              [8; 9]%nat 4 eq_refl) as (a & H1 & H2 & _).
  exists a. split; assumption.
Defined.

(** ** User agents: which agent a rotation picks *)

Lemma last_n_snoc {A} (n : nat) (l : list A) (a : A) :
  (0 < n)%nat -> exists l', UserAgents.last_n n (l ++ [a]) = l' ++ [a].
Proof.
  intros Hn. unfold UserAgents.last_n. rewrite length_app. simpl length.
  rewrite skipn_app.
  replace (length l + 1 - n - length l)%nat with O by lia.
  exists (skipn (length l + 1 - n) l). reflexivity.
Qed.

Lemma last_n_length {A} (n : nat) (l : list A) :
  (length (UserAgents.last_n n l) <= n)%nat.
Proof. unfold UserAgents.last_n. rewrite length_skipn. lia. Qed.

Lemma rotate_agent_rotator_of (cfg : UserAgents.UserAgentConfig) (draw : nat)
    (r : UserAgents.UserAgentRotator) :
  rotator_of cfg r -> rotator_of cfg (UserAgents._rotate_agent draw r).
Proof.
  intros (Hc & Hp & _). unfold UserAgents._rotate_agent.
  set (current := if UserAgents.random_rotation (UserAgents.config r)
                  then _ else _).
  unfold rotator_of.
  cbn [UserAgents.config UserAgents.agents_pool UserAgents.current_agent
       UserAgents.used_agents].
  split; [exact Hc|]. split; [exact Hp|].
  intros a H. injection H as <-.
  destruct (20 <? length (UserAgents.used_agents r ++ [current]))%nat.
  - apply last_n_snoc. lia.
  - exists (UserAgents.used_agents r). reflexivity.
Qed.

Lemma get_user_agent_rotator_of (cfg : UserAgents.UserAgentConfig) (draw : nat)
    (r : UserAgents.UserAgentRotator) :
  rotator_of cfg r -> rotator_of cfg (snd (UserAgents.get_user_agent draw r)).
Proof.
  intros H. pose proof (rotate_agent_rotator_of cfg draw r H) as H'.
  unfold UserAgents.get_user_agent.
  set (r1 := match UserAgents.current_agent r with
             | None => _
             | Some _ => _
             end).
  assert (rotator_of cfg r1) as (Hc & Hp & Hu).
  { subst r1. destruct (UserAgents.current_agent r); [|exact H'].
    destruct (_ <=? _)%Z; assumption. }
  clearbody r1. repeat split; assumption.
Qed.

Lemma force_rotate_rotator_of (cfg : UserAgents.UserAgentConfig) (draw : nat)
    (r : UserAgents.UserAgentRotator) :
  rotator_of cfg r -> rotator_of cfg (snd (UserAgents.force_rotate draw r)).
Proof.
  intros (Hc & Hp & Hu). unfold UserAgents.force_rotate.
  apply get_user_agent_rotator_of. repeat split; assumption.
Qed.

Lemma serve_rotator_of (cfg : UserAgents.UserAgentConfig)
    (requests : list (bool * nat)) :
  forall r, rotator_of cfg r ->
            rotator_of cfg (snd (UserAgents.serve requests r)).
Proof.
  induction requests as [|[force draw] rest IH]; intros r H; [exact H|].
  cbn [UserAgents.serve]. destruct force.
  - pose proof (force_rotate_rotator_of cfg draw r H) as H'.
    destruct (UserAgents.force_rotate draw r) as [agent r'].
    specialize (IH r' H').
    destruct (UserAgents.serve rest r') as [agents r'']. exact IH.
  - pose proof (get_user_agent_rotator_of cfg draw r H) as H'.
    destruct (UserAgents.get_user_agent draw r) as [agent r'].
    specialize (IH r' H').
    destruct (UserAgents.serve rest r') as [agents r'']. exact IH.
Qed.

Lemma init_rotator_of (cfg : UserAgents.UserAgentConfig) :
  rotator_of cfg (UserAgents.init cfg).
Proof. repeat split. intros a H. discriminate. Qed.

(** Every pool holds six different agents. *)
Lemma build_agents_pool_six (cfg : UserAgents.UserAgentConfig) :
  exists l, NoDup l /\ length l = 6%nat /\
            incl l (UserAgents._build_agents_pool cfg).
Proof.
  destruct cfg as [i rr pc pd im].
  destruct (pc || negb pd) eqn:E.
  - exists (firstn 6 UserAgents.DESKTOP_CHROME_AGENTS).
    split; [apply (bool_decide_unpack _); vm_compute; reflexivity|].
    split; [reflexivity|].
    intros a Ha. unfold UserAgents._build_agents_pool.
    cbn [UserAgents.prefer_chrome UserAgents.prefer_desktop
         UserAgents.include_mobile]. rewrite E.
    assert (In a UserAgents.DESKTOP_CHROME_AGENTS) as Hin.
    { rewrite <- (firstn_skipn 6 UserAgents.DESKTOP_CHROME_AGENTS).
      apply in_or_app. left. exact Ha. }
    destruct pd, im; cbn [app]; repeat (apply in_or_app; left); try exact Hin;
      rewrite ?app_nil_l; apply in_or_app; left; exact Hin.
  - exists UserAgents.DESKTOP_FIREFOX_AGENTS.
    split; [apply (bool_decide_unpack _); vm_compute; reflexivity|].
    split; [reflexivity|].
    destruct pc, pd; try discriminate.
    intros a Ha. unfold UserAgents._build_agents_pool.
    cbn [UserAgents.prefer_chrome UserAgents.prefer_desktop
         UserAgents.include_mobile orb negb app].
    destruct im; cbn; repeat (apply in_app_or in Ha); cbn in Ha; tauto.
Qed.

Lemma fresh_agent_exists (cfg : UserAgents.UserAgentConfig)
    (used : list string) :
  exists b, In b (UserAgents._build_agents_pool cfg) /\
            ~ In b (UserAgents.last_n 5 used).
Proof.
  destruct (build_agents_pool_six cfg) as (l & Hnd & Hlen & Hincl).
  destruct (existsb (fun b => negb (UserAgents.str_in b
                                      (UserAgents.last_n 5 used))) l) eqn:E.
  - apply existsb_exists in E. destruct E as (b & Hb & Hf).
    exists b. split; [apply Hincl; exact Hb|].
    intros H. apply str_in_In in H. rewrite H in Hf. discriminate.
  - exfalso.
    assert (incl l (UserAgents.last_n 5 used)) as Hi.
    { intros b Hb. apply str_in_In.
      destruct (UserAgents.str_in b (UserAgents.last_n 5 used)) eqn:Eb;
        [reflexivity|].
      assert (existsb (fun b => negb (UserAgents.str_in b
                                        (UserAgents.last_n 5 used))) l = true)
        as Hex.
      { apply existsb_exists. exists b. rewrite Eb. split; [exact Hb|reflexivity]. }
      congruence. }
    apply NoDup_ListNoDup in Hnd.
    pose proof (NoDup_incl_length Hnd Hi) as Hle.
    pose proof (last_n_length 5 used). lia.
Qed.

Lemma force_rotate_agent (draw : nat) (r : UserAgents.UserAgentRotator) :
  let r0 := UserAgents.mkRotator (UserAgents.config r)
              (UserAgents.current_agent r)
              (UserAgents.rotation_interval (UserAgents.config r))
              (UserAgents.agents_pool r) (UserAgents.used_agents r) in
  UserAgents.current_agent (UserAgents._rotate_agent draw r0)
  = Some (fst (UserAgents.force_rotate draw r)).
Proof.
  intros r0. unfold UserAgents.force_rotate. fold r0.
  unfold UserAgents.get_user_agent.
  assert (match UserAgents.current_agent r0 with
          | None => UserAgents._rotate_agent draw r0
          | Some _ =>
              if (UserAgents.rotation_interval (UserAgents.config r0)
                  <=? UserAgents.request_count r0)%Z
              then UserAgents._rotate_agent draw r0 else r0
          end = UserAgents._rotate_agent draw r0) as ->.
  { destruct (UserAgents.current_agent r0); [|reflexivity].
    subst r0. cbn [UserAgents.config UserAgents.request_count].
    rewrite Z.leb_refl. reflexivity. }
  reflexivity.
Qed.

(** X15: with random rotation, a forced rotation after any history of
    requests picks an agent that is none of the five used last; so the
    agent changes. *)
Theorem forced_rotation_changes_agent (cfg : UserAgents.UserAgentConfig)
    (requests : list (bool * nat)) (draw : nat) :
  UserAgents.random_rotation cfg = true ->
  let r := snd (UserAgents.serve requests (UserAgents.init cfg)) in
  let agent := fst (UserAgents.force_rotate draw r) in
  ~ In agent (UserAgents.last_n 5 (UserAgents.used_agents r)) /\
  UserAgents.current_agent r <> Some agent.
Proof.
  intros Hrr r agent.
  pose proof (serve_rotator_of cfg requests _ (init_rotator_of cfg)) as Hok.
  fold r in Hok. destruct Hok as (Hc & Hp & Hu).
  pose proof (force_rotate_agent draw r) as Hcur. cbv zeta in Hcur.
  fold agent in Hcur.
  set (r0 := UserAgents.mkRotator _ _ _ _ _) in Hcur.
  assert (UserAgents.agents_pool r0 <> []) as Hne.
  { subst r0. cbn [UserAgents.agents_pool]. rewrite Hp.
    apply build_agents_pool_nonempty. }
  destruct (rotate_agent_current draw r0 Hne) as (a & Ha & _ & _ & _ & _ & Hfresh).
  rewrite Hcur in Ha. injection Ha as <-.
  assert (~ In agent (UserAgents.last_n 5 (UserAgents.used_agents r))) as Hnot.
  { apply Hfresh.
    - subst r0. cbn [UserAgents.config]. rewrite Hc. exact Hrr.
    - subst r0. cbn [UserAgents.agents_pool UserAgents.used_agents].
      rewrite Hp. apply fresh_agent_exists. }
  split; [exact Hnot|].
  intros Hsame. apply Hnot. destruct (Hu _ Hsame) as (l & ->).
  unfold UserAgents.last_n. rewrite skipn_app. apply in_or_app. right.
  rewrite length_app. simpl length.
  replace (length l + 1 - 5 - length l)%nat with O by lia. left. reflexivity.
Qed.

Lemma forced_rotation_changes_agent_witness :
  let r := snd (UserAgents.serve [(false, 1%nat); (true, 2%nat)]
                  (UserAgents.init UserAgents.default_config)) in
  UserAgents.current_agent r
  <> Some (fst (UserAgents.force_rotate 3 r)).
Proof.
  exact (proj2 (forced_rotation_changes_agent UserAgents.default_config
                  [(false, 1%nat); (true, 2%nat)] 3 eq_refl)).
Defined.

(** ** User agents: sequential rotation *)

Lemma rotate_sequential_chrome (cfg : UserAgents.UserAgentConfig) (draw : nat)
    (r : UserAgents.UserAgentRotator) :
  UserAgents.random_rotation cfg = false ->
  UserAgents.prefer_chrome cfg || negb (UserAgents.prefer_desktop cfg) = true ->
  UserAgents.config r = cfg ->
  UserAgents.agents_pool r = UserAgents._build_agents_pool cfg ->
  (forall a, UserAgents.current_agent r = Some a ->
             In a UserAgents.DESKTOP_CHROME_AGENTS) ->
  exists a,
    UserAgents.current_agent (UserAgents._rotate_agent draw r) = Some a /\
    In a UserAgents.DESKTOP_CHROME_AGENTS.
Proof.
  intros Hrr Hcond Hc Hp Hcur. unfold UserAgents._rotate_agent.
  rewrite Hc, Hrr, Hp. cbn [UserAgents.current_agent].
  eexists. split; [reflexivity|]. apply str_in_In.
  destruct cfg as [i rr pc pd im].
  cbn [UserAgents.prefer_chrome UserAgents.prefer_desktop] in Hcond.
  destruct (UserAgents.current_agent r) as [a|].
  - specialize (Hcur a eq_refl).
    unfold UserAgents.DESKTOP_CHROME_AGENTS in Hcur. cbn [In] in Hcur.
    destruct pc, pd, im; try discriminate Hcond;
      repeat (destruct Hcur as [<-|Hcur]); try contradiction;
      vm_compute; reflexivity.
  - destruct pc, pd, im; try discriminate Hcond; vm_compute; reflexivity.
Qed.

Lemma get_user_agent_sequential_chrome (cfg : UserAgents.UserAgentConfig)
    (draw : nat) (r : UserAgents.UserAgentRotator) :
  UserAgents.random_rotation cfg = false ->
  UserAgents.prefer_chrome cfg || negb (UserAgents.prefer_desktop cfg) = true ->
  UserAgents.config r = cfg ->
  UserAgents.agents_pool r = UserAgents._build_agents_pool cfg ->
  (forall a, UserAgents.current_agent r = Some a ->
             In a UserAgents.DESKTOP_CHROME_AGENTS) ->
  let out := UserAgents.get_user_agent draw r in
  In (fst out) UserAgents.DESKTOP_CHROME_AGENTS /\
  UserAgents.config (snd out) = cfg /\
  UserAgents.agents_pool (snd out) = UserAgents._build_agents_pool cfg /\
  (forall a, UserAgents.current_agent (snd out) = Some a ->
             In a UserAgents.DESKTOP_CHROME_AGENTS).
Proof.
  intros Hrr Hcond Hc Hp Hcur out. subst out.
  destruct (rotate_sequential_chrome cfg draw r Hrr Hcond Hc Hp Hcur)
    as (a & Ha & Hin).
  unfold UserAgents.get_user_agent.
  set (r1 := match UserAgents.current_agent r with
             | None => _
             | Some _ => _
             end).
  assert (exists b, UserAgents.current_agent r1 = Some b /\
                    In b UserAgents.DESKTOP_CHROME_AGENTS /\
                    UserAgents.config r1 = cfg /\
                    UserAgents.agents_pool r1
                    = UserAgents._build_agents_pool cfg)
    as (b & Hb & Hbin & Hbc & Hbp).
  { subst r1. destruct (UserAgents.current_agent r) as [c|] eqn:Ec.
    - destruct (_ <=? _)%Z.
      + exists a. auto.
      + exists c. auto.
    - exists a. auto. }
  clearbody r1.
  cbn [fst snd UserAgents.current_agent UserAgents.config
       UserAgents.agents_pool].
  rewrite Hb. repeat split; try assumption.
  intros c Hc'. injection Hc' as <-. exact Hbin.
Qed.

(** X16: with sequential rotation and a pool that starts with the Chrome
    agents, every agent served is one of the eight desktop Chrome agents,
    whatever else the pool holds: the Chrome agents are in the pool twice,
    and the successor of an agent is looked up from its first place. *)
Theorem sequential_rotation_stays_in_chrome (cfg : UserAgents.UserAgentConfig)
    (requests : list (bool * nat)) :
  UserAgents.random_rotation cfg = false ->
  UserAgents.prefer_chrome cfg || negb (UserAgents.prefer_desktop cfg) = true ->
  Forall (fun agent => In agent UserAgents.DESKTOP_CHROME_AGENTS)
         (fst (UserAgents.serve requests (UserAgents.init cfg))).
Proof.
  intros Hrr Hcond.
  assert (UserAgents.config (UserAgents.init cfg) = cfg) as Hc by reflexivity.
  assert (UserAgents.agents_pool (UserAgents.init cfg)
          = UserAgents._build_agents_pool cfg) as Hp by reflexivity.
  assert (forall a, UserAgents.current_agent (UserAgents.init cfg) = Some a ->
                    In a UserAgents.DESKTOP_CHROME_AGENTS) as Hcur
    by (intros a H; discriminate).
  revert Hc Hp Hcur. generalize (UserAgents.init cfg).
  induction requests as [|[force draw] rest IH]; intros r Hc Hp Hcur.
  - constructor.
  - cbn [UserAgents.serve]. destruct force.
    + unfold UserAgents.force_rotate.
      set (r0 := UserAgents.mkRotator _ _ _ _ _).
      destruct (get_user_agent_sequential_chrome cfg draw r0 Hrr Hcond)
        as (Hin & Hc' & Hp' & Hcur'); try assumption.
      destruct (UserAgents.get_user_agent draw r0) as [agent r'].
      specialize (IH r' Hc' Hp' Hcur').
      destruct (UserAgents.serve rest r') as [agents r''].
      constructor; assumption.
    + destruct (get_user_agent_sequential_chrome cfg draw r Hrr Hcond)
        as (Hin & Hc' & Hp' & Hcur'); try assumption.
      destruct (UserAgents.get_user_agent draw r) as [agent r'].
      specialize (IH r' Hc' Hp' Hcur').
      destruct (UserAgents.serve rest r') as [agents r''].
      constructor; assumption.
Qed.

Lemma sequential_rotation_stays_in_chrome_witness :
  incl UserAgents.MOBILE_AGENTS
       (UserAgents._build_agents_pool sequential_config) /\
  Forall (fun agent => In agent UserAgents.DESKTOP_CHROME_AGENTS)
         (fst (UserAgents.serve [(false, 0%nat); (true, 0%nat); (false, 0%nat)]
                 (UserAgents.init sequential_config))).
Proof.
  split.
  - intros a Ha. unfold UserAgents._build_agents_pool. cbn.
    cbn in Ha. tauto.
  - exact (sequential_rotation_stays_in_chrome sequential_config
             [(false, 0%nat); (true, 0%nat); (false, 0%nat)] eq_refl eq_refl).
Defined.

(** ** User agents: browser profiles *)

Ltac lookup_headers :=
  unfold UserAgents.update; cbn [fold_left fst snd];
  repeat (rewrite lookup_insert_ne by discriminate);
  first [apply lookup_insert_eq | apply lookup_empty].

(** X17: the headers of a [BrowserProfile] agree with what it detects in
    the user agent, for every user agent: the agent itself is sent, the
    client hints are sent for Chrome and Edge only, and the platform hint
    names the detected operating system, or is absent when that is none
    of Windows, macOS and Linux. *)
Theorem profile_headers_follow_detection (ua : string) :
  let p := UserAgents.profile ua in
  let headers := UserAgents.profile_get_headers p in
  headers !! "User-Agent"%string = Some ua /\
  headers !! "sec-ch-ua-mobile"%string
  = (if sends_client_hints (UserAgents._detect_browser_type ua)
     then Some "?0"%string else None) /\
  headers !! "sec-ch-ua-platform"%string
  = (if sends_client_hints (UserAgents._detect_browser_type ua)
     then platform_hint (UserAgents._detect_os_type ua) else None).
Proof.
  intros p headers. subst headers p.
  unfold UserAgents.profile_get_headers, UserAgents.profile.
  cbn [UserAgents.user_agent UserAgents._browser_type UserAgents._os_type].
  destruct (UserAgents._detect_browser_type ua);
    destruct (UserAgents._detect_os_type ua);
    cbn [sends_client_hints platform_hint];
    (split; [|split]); lookup_headers.
Qed.

(** ** User agents: generated agents *)

Ltac each_choice :=
  repeat match goal with
  | |- context [UserAgents.random_choice ?d ?l] =>
      let x := fresh "x" in
      let H := fresh "H" in
      assert (In (UserAgents.random_choice d l) l) as H
        by (apply random_choice_in; discriminate);
      set (x := UserAgents.random_choice d l) in *; clearbody x;
      cbv [UserAgents.chrome_versions UserAgents.firefox_versions
           UserAgents.WINDOWS_VERSIONS UserAgents.MACOS_VERSIONS
           UserAgents.LINUX_VERSIONS UserAgents.DESKTOP_CHROME_AGENTS In] in H;
      repeat match goal with
      | H' : _ \/ _ |- _ => destruct H' as [<-|H']
      | H' : False |- _ => destruct H'
      end
  end.

(** X18: a user agent generated without a version is recognised by
    [BrowserProfile] as what was asked for, whatever the generator draws:
    as Firefox for the name firefox and as Chrome for every other browser
    name, and, for the names chrome and firefox, on Windows or macOS when
    asked so and on Linux for every other system name. *)
Theorem generated_agent_is_detected_as_requested (browser os_type : string)
    (draw_version draw_os : nat) :
  let ua := UserAgents.generate_dynamic_user_agent browser os_type None
              draw_version draw_os in
  UserAgents._detect_browser_type ua = requested_browser browser /\
  (String.eqb browser "chrome" || String.eqb browser "firefox" = true ->
   UserAgents._detect_os_type ua = requested_os os_type).
Proof.
  intros ua. subst ua.
  unfold UserAgents.generate_dynamic_user_agent, requested_browser,
    requested_os, UserAgents.version_or_choice.
  destruct (String.eqb browser "chrome") eqn:Ec.
  - apply String.eqb_eq in Ec. subst browser. cbn [String.eqb Ascii.eqb Bool.eqb].
    destruct (String.eqb os_type "windows");
      [|destruct (String.eqb os_type "macos")];
      each_choice; (split; [|intros _]); vm_compute; reflexivity.
  - destruct (String.eqb browser "firefox") eqn:Ef.
    + destruct (String.eqb os_type "windows");
        [|destruct (String.eqb os_type "macos")];
        each_choice; (split; [|intros _]); vm_compute; reflexivity.
    + each_choice; (split; [|intros H; discriminate H]); vm_compute; reflexivity.
Qed.

Lemma generated_agent_is_detected_as_requested_witness :
  UserAgents._detect_os_type
    (UserAgents.generate_dynamic_user_agent "firefox" "macos" None 5 7)
  = UserAgents.macos.
Proof.
  exact (proj2 (generated_agent_is_detected_as_requested "firefox" "macos" 5 7)
               eq_refl).
Defined.

(** ** Parser: prices and numbers *)

Lemma span_run (f : N -> bool) (s : PyStr.pystr) :
  List.Forall (fun c => f c = true) (fst (PyStr.span f s)).
Proof.
  induction s as [|c s IH]; simpl; [constructor|].
  destruct (f c) eqn:E; [|constructor].
  destruct (PyStr.span f s) as [run rest]. simpl in *.
  constructor; assumption.
Qed.

Lemma digits_value_from (ds : PyStr.pystr) (acc : Z) :
  List.Forall (fun c => PyStr.is_digit c = true) ds -> (0 <= acc)%Z ->
  (0 <= fold_left (fun acc c => (acc * 10 + (Z.of_N c - 48))%Z) ds acc)%Z.
Proof.
  intros H. revert acc. induction H as [|c ds Hc _ IH]; intros acc Hacc;
    simpl; [exact Hacc|].
  apply IH. unfold PyStr.is_digit in Hc.
  apply andb_true_iff in Hc. destruct Hc as [Hc _].
  apply N.leb_le in Hc. lia.
Qed.

Lemma digits_value_nonneg (ds : PyStr.pystr) :
  List.Forall (fun c => PyStr.is_digit c = true) ds ->
  (0 <= PyStr.digits_value ds)%Z.
Proof. intros H. apply digits_value_from; [exact H|lia]. Qed.

Lemma float_of_str_nonneg (s : PyStr.pystr) (q : Q) :
  PyStr.float_of_str s = Some q -> 0 <= q.
Proof.
  unfold PyStr.float_of_str.
  pose proof (span_run PyStr.is_digit (PyStr.strip s)) as Hint.
  destruct (PyStr.span PyStr.is_digit (PyStr.strip s)) as [int_part rest].
  cbn [fst] in Hint.
  destruct rest as [|c after].
  - destruct int_part; [discriminate|]. intros H. injection H as <-.
    unfold Qle. cbn [Qnum Qden inject_Z].
    pose proof (digits_value_nonneg _ Hint). lia.
  - destruct (c =? 46)%N; [|discriminate].
    pose proof (span_run PyStr.is_digit after) as Hfrac.
    destruct (PyStr.span PyStr.is_digit after) as [frac_part rest'].
    cbn [fst] in Hfrac.
    destruct rest'; [|discriminate].
    destruct (int_part ++ frac_part) eqn:E; [discriminate|].
    intros H. injection H as <-.
    unfold Qle. cbn [Qnum Qden].
    assert (0 <= PyStr.digits_value (int_part ++ frac_part))%Z as Hv.
    { apply digits_value_nonneg. apply List.Forall_app. split; assumption. }
    rewrite E in Hv. lia.
Qed.

(** X19: [_parse_price] returns a price exactly when the price type is
    not NEGOTIABLE, for every text, and a price it returns is never
    negative. *)
Theorem parse_price_priced_or_negotiable (price_text : PyStr.pystr) :
  let result := Parser._parse_price price_text in
  (fst result = None <-> snd result = Parser.NEGOTIABLE) /\
  (forall price, fst result = Some price -> 0 <= price).
Proof.
  intros result. subst result. unfold Parser._parse_price.
  destruct price_text as [|c0 text0]; [cbn; split; [tauto|discriminate]|].
  set (text := PyStr.strip (PyStr.lower (c0 :: text0))).
  destruct (existsb _ Parser.negotiable_keywords);
    [cbn; split; [tauto|discriminate]|].
  destruct (PyStr.search_run Parser.price_char text) as [price_match|];
    [|cbn; split; [tauto|discriminate]].
  destruct (PyStr.float_of_str _) as [price|] eqn:Ef;
    [|cbn; split; [tauto|discriminate]].
  apply float_of_str_nonneg in Ef.
  destruct (_ || _);
    [|destruct (_ || _)];
    cbn [fst snd];
    (split; [split; discriminate|intros q H; injection H as <-; exact Ef]).
Qed.

(** ** Parser: pagination *)

Lemma first_positive_number_positive (soup : Dom.Tag)
    (selectors : list string) (n : Z) :
  Parser.first_positive_number soup selectors = Some n -> (1 <= n)%Z.
Proof.
  induction selectors as [|sel rest IH];
    cbn [Parser.first_positive_number]; [discriminate|].
  destruct (Dom.select_one soup sel) as [el|]; [|exact IH].
  cbv zeta.
  generalize (Parser._parse_number (Parser._extract_text_safe (Some el) [])).
  intros m. destruct (0 <? m)%Z eqn:E; [|exact IH].
  intros H. injection H as <-. apply Z.ltb_lt in E. lia.
Qed.

Lemma fold_left_max_ge (ns : list Z) (n : Z) :
  (n <= fold_left Z.max ns n)%Z.
Proof.
  revert n. induction ns as [|m ns IH]; intros n; simpl; [lia|].
  specialize (IH (Z.max n m)). lia.
Qed.

Lemma first_page_count_positive (soup : Dom.Tag) (selectors : list string)
    (n : Z) :
  Parser.first_page_count soup selectors = Some n -> (1 <= n)%Z.
Proof.
  induction selectors as [|sel rest IH]; cbn [Parser.first_page_count];
    [discriminate|].
  destruct (Dom.select soup sel) as [|el els]; [exact IH|].
  set (numbers := List.filter _ _).
  assert (List.Forall (fun n => (0 <? n)%Z = true) numbers) as Hall.
  { subst numbers. apply List.Forall_forall. intros x Hx.
    apply filter_In in Hx. tauto. }
  clearbody numbers.
  destruct numbers as [|m ms]; [exact IH|].
  intros H. injection H as <-.
  apply List.Forall_inv in Hall. apply Z.ltb_lt in Hall.
  pose proof (fold_left_max_ge ms m). lia.
Qed.

(** X20: whatever the page holds, the pagination information has a
    current page and a page count of at least 1 and a project count of
    at least 0, and it announces a next page exactly when a link to one
    was found or the current page is below the page count. *)
Theorem pagination_info_is_sane
    (urljoin : PyStr.pystr -> PyStr.pystr -> PyStr.pystr) (soup : Dom.Tag) :
  let info := Parser._extract_pagination_info urljoin soup in
  (1 <= Parser.current_page info)%Z /\
  (1 <= Parser.total_pages info)%Z /\
  (0 <= Parser.total_projects info)%Z /\
  (Parser.has_next info = true <->
   Parser.next_page_url info <> None \/
   (Parser.current_page info < Parser.total_pages info)%Z).
Proof.
  intros info. subst info. unfold Parser._extract_pagination_info.
  cbn [Parser.current_page Parser.total_pages Parser.total_projects
       Parser.has_next Parser.next_page_url].
  repeat apply conj.
  - destruct (Parser.first_positive_number soup _) as [n|] eqn:E; [|lia].
    apply first_positive_number_positive in E. exact E.
  - destruct (Parser.first_page_count soup _) as [n|] eqn:E; [|lia].
    apply first_page_count_positive in E. exact E.
  - destruct (Parser.first_positive_number soup
                [".wants-found-count"; ".total-count"; ".results-count"]%string)
      as [n|] eqn:E; [|lia].
    apply first_positive_number_positive in E. lia.
  - destruct (Parser.first_next_link urljoin soup _); [intros _; left; discriminate|].
    intros H. right. apply Z.ltb_lt. exact H.
  - destruct (Parser.first_next_link urljoin soup _); [reflexivity|].
    intros [H|H]; [congruence|]. apply Z.ltb_lt. exact H.
Qed.

(** ** Selectors: resolution order *)

(** X21: on a document that the matcher has not seen, [test_selector]
    returns a selector that matches the document; it is the primary
    selector of the field when that one matches, the fallback selector
    only when the primary one does not, and nothing only when no selector
    of the field matches. *)
Theorem test_selector_primary_first (_cached_selectors : gmap string string)
    (soup : Dom.Tag) (field_name : string) :
  _cached_selectors !! Selectors.cache_key field_name soup = None ->
  match fst (Selectors.test_selector _cached_selectors soup field_name) with
  | Some selector =>
      Dom.select soup selector <> [] /\
      (Selectors.get_selector field_name false = Some selector \/
       Selectors.get_selector field_name true = Some selector /\
       forall primary, Selectors.get_selector field_name false = Some primary ->
                       Dom.select soup primary = [])
  | None =>
      forall selector use_fallback,
        Selectors.get_selector field_name use_fallback = Some selector ->
        Dom.select soup selector = []
  end.
Proof.
  intros Hmiss. unfold Selectors.test_selector. rewrite Hmiss.
  unfold Selectors.get_all_selectors.
  destruct (Selectors.get_selector field_name false) as [p|] eqn:Ep;
    destruct (Selectors.get_selector field_name true) as [f|] eqn:Ef;
    cbn [app existsb orb].
  - destruct (String.eqb f p) eqn:Efp; cbn [orb app Selectors.first_matching].
    + apply String.eqb_eq in Efp. subst f.
      destruct (Dom.select soup p) as [|e es] eqn:Es; cbn [fst].
      * intros s [|] H; congruence.
      * split; [congruence|]. left. reflexivity.
    + destruct (Dom.select soup p) as [|e es] eqn:Es.
      * destruct (Dom.select soup f) as [|e' es'] eqn:Es'; cbn [fst].
        -- intros s [|] H; congruence.
        -- split; [congruence|]. right. split; [reflexivity|].
           intros p' H. congruence.
      * cbn [fst]. split; [congruence|]. left. reflexivity.
  - cbn [Selectors.first_matching].
    destruct (Dom.select soup p) as [|e es] eqn:Es; cbn [fst].
    + intros s [|] H; congruence.
    + split; [congruence|]. left. reflexivity.
  - cbn [Selectors.first_matching].
    destruct (Dom.select soup f) as [|e es] eqn:Es; cbn [fst].
    + intros s [|] H; congruence.
    + split; [congruence|]. right. split; [reflexivity|].
      intros p' H. discriminate.
  - cbn [Selectors.first_matching fst]. intros s [|] H; congruence.
Qed.

Lemma test_selector_primary_first_witness :
  fst (Selectors.test_selector ∅ new_layout_container "project_card")
  = Some "[data-want-id]"%string /\
  Dom.select new_layout_container ".want-card" = [].
Proof.
  pose proof (test_selector_primary_first ∅ new_layout_container
                "project_card" (lookup_empty _)) as H.
  assert (fst (Selectors.test_selector ∅ new_layout_container "project_card")
          = Some "[data-want-id]"%string) as E by (vm_compute; reflexivity).
  rewrite E in H. split; [exact E|].
  destruct H as [_ [H|[_ H]]].
  - vm_compute in H. discriminate H.
  - apply H. reflexivity.
Defined.

(** ** Parser: the selector caches *)

Lemma test_selector_again (cache : gmap string string) (soup : Dom.Tag)
    (field_name : string) :
  let out := Selectors.test_selector cache soup field_name in
  Selectors.test_selector (snd out) soup field_name = out.
Proof.
  intros out. subst out. unfold Selectors.test_selector.
  destruct (cache !! Selectors.cache_key field_name soup) as [s|] eqn:E.
  - cbn [snd]. rewrite E. reflexivity.
  - destruct (Selectors.first_matching soup _) as [s|] eqn:Ef; cbn [snd].
    + rewrite lookup_insert_eq. reflexivity.
    + rewrite E. reflexivity.
Qed.

(** X22: asking the parser a second time for the working selector of the
    same field on the same document gives the same answer and changes
    neither cache, whether the first answer was a selector or none. *)
Theorem get_working_selector_again (soup : Dom.Tag) (field_name : string)
    (st : Parser.ParserState) :
  let out := Parser._get_working_selector soup field_name st in
  Parser._get_working_selector soup field_name (snd out) = out.
Proof.
  intros out. subst out. unfold Parser._get_working_selector.
  destruct (Parser._selector_cache st !! Selectors.cache_key field_name soup)
    as [s|] eqn:E.
  - cbn [snd]. rewrite E. reflexivity.
  - pose proof (test_selector_again (Parser._cached_selectors st) soup
                  field_name) as Hagain. cbv zeta in Hagain.
    destruct (Selectors.test_selector (Parser._cached_selectors st) soup
                field_name) as [[s|] cache'] eqn:Et; cbn [snd] in Hagain.
    + destruct (String.eqb s EmptyString) eqn:Es;
        cbn [snd Parser._selector_cache Parser._cached_selectors].
      * rewrite E, Hagain, Es. reflexivity.
      * rewrite lookup_insert_eq. reflexivity.
    + cbn [snd Parser._selector_cache Parser._cached_selectors].
      rewrite E, Hagain. reflexivity.
Qed.

(** ** Parser: where the process shows in a project *)

(** X23: what [extract_project_data] returns for a card, a validated
    project or nothing, and the selector caches it leaves, are the same in
    every process, except for a card without a [data-want-id] whose link
    has no slash followed by a digit: only there the external id of the
    project is the hash of the link under the secret of the process. *)
Theorem extract_project_data_process_dependence
    (secret1 secret2 : PyHash.HashSecret)
    (urljoin : PyStr.pystr -> PyStr.pystr -> PyStr.pystr)
    (HttpUrl : PyStr.pystr -> option PyStr.pystr) (utcnow : Z)
    (project_element : Dom.Tag) (page_url : PyStr.pystr)
    (st : Parser.ParserState) :
  Parser.extract_project_data secret1 urljoin HttpUrl utcnow project_element
    page_url st
  = Parser.extract_project_data secret2 urljoin HttpUrl utcnow project_element
      page_url st
  \/
  exists project project_link,
    fst (Parser.extract_project_data secret1 urljoin HttpUrl utcnow
           project_element page_url st) = Some project /\
    (Dom.get project_element "data-want-id" = None \/
     Dom.get project_element "data-want-id" = Some []) /\
    Parser.search_slash_digits project_link = None /\
    HttpUrl project_link = Some (Parser.link project) /\
    Parser.external_id project
    = PyStr.str_of_Z (PyHash.hash secret1 project_link).
Proof.
  unfold Parser.extract_project_data.
  destruct (Parser._get_working_selector project_element "project_title" st)
    as [title_selector st1].
  destruct (Parser.select_one_if project_element title_selector)
    as [title_element|]; [|left; reflexivity].
  destruct (Parser._extract_link_safe urljoin (Some title_element)
              (Some Parser.base_url)) as [project_link|];
    [|left; reflexivity].
  repeat match goal with
  | |- context [Parser._get_working_selector ?e ?f ?s] =>
      destruct (Parser._get_working_selector e f s) as [? ?]
  end.
  destruct (Parser._parse_price _) as [price price_type].
  destruct (Dom.get project_element "data-want-id") as [[|c cs]|] eqn:Eid;
    try (left; reflexivity);
    (destruct (Parser.search_slash_digits project_link) as [digits|] eqn:Ed;
     [left; reflexivity|]);
    unfold Parser.Project_new; rewrite !validate_external_id_str_of_Z;
    (destruct (if Parser.min_length 1 _ && Parser.max_length 500 _
               then Parser.validate_title _ else None);
     [|left; reflexivity]);
    (destruct (if Parser.min_length 1 _
               then Parser.validate_description _ else None);
     [|left; reflexivity]);
    (destruct (if Parser.max_length 255 _
               then Parser.validate_author _ else None);
     [|left; reflexivity]);
    (destruct (HttpUrl project_link) as [url|] eqn:Eurl;
     [|left; reflexivity]);
    (destruct (Parser.max_length 255 _ && _ && _);
     [|left; reflexivity]);
    right; eexists; exists project_link; cbn [fst Parser.link Parser.external_id];
    (split; [reflexivity|]); cbn [Parser.link Parser.external_id]; auto.
Qed.

(** ** Parser: the pagination walker *)

Section WalkerProperties.
Variable parse_single_page :
  Z -> list Parser.Project * option Parser.PaginationInfo.
Variable project_repository : option (PyStr.pystr -> bool).

Lemma parse_all_pages_from_limit (n : Z) (fuel : nat) :
  forall current_page,
    (1 <= current_page)%Z -> (0 < n)%Z ->
    let out := Parser.parse_all_pages_from (Some n) parse_single_page
                 project_repository fuel current_page in
    (length (fst out) <= Z.to_nat (n + 1 - current_page))%nat /\
    (Z.to_nat (n + 1 - current_page) < fuel -> snd out = true)%nat.
Proof.
  induction fuel as [|fuel IH]; intros current_page Hpage Hn out; subst out.
  - cbn. split; lia.
  - cbn [Parser.parse_all_pages_from]. unfold Parser.limit_reached.
    destruct (n =? 0)%Z eqn:E0; [apply Z.eqb_eq in E0; lia|].
    cbn [negb andb].
    destruct (n <? current_page)%Z eqn:El; [cbn; split; [lia|reflexivity]|].
    apply Z.ltb_ge in El.
    destruct (parse_single_page current_page) as [projects pagination_info].
    specialize (IH (current_page + 1)%Z ltac:(lia) Hn). cbv zeta in IH.
    replace (n + 1 - (current_page + 1))%Z with (n - current_page)%Z in IH
      by lia.
    destruct (Parser.parse_all_pages_from (Some n) parse_single_page
                project_repository fuel (current_page + 1))
      as [batches ended].
    cbn [fst snd] in IH. destruct IH as [IH1 IH2].
    assert (Z.to_nat (n + 1 - current_page)
            = S (Z.to_nat (n - current_page))) as -> by lia.
    destruct projects as [|project projects];
      [destruct (current_page =? 1)%Z; [cbn; split; [lia|reflexivity]|]|];
      (destruct (negb (Parser.get_has_next pagination_info));
       cbn [fst snd length];
       (split; [lia|first [reflexivity|intros H; apply IH2; lia]])).
Qed.

Lemma parse_all_pages_from_zero_limit (fuel : nat) :
  forall current_page,
    Parser.parse_all_pages_from (Some 0%Z) parse_single_page
      project_repository fuel current_page
    = Parser.parse_all_pages_from None parse_single_page
        project_repository fuel current_page.
Proof.
  induction fuel as [|fuel IH]; intros current_page; [reflexivity|].
  cbn [Parser.parse_all_pages_from Parser.limit_reached Z.eqb negb andb].
  rewrite IH. reflexivity.
Qed.

Lemma parse_all_pages_from_batches (max_pages : option Z) (fuel : nat) :
  forall current_page (i : nat) (batch : list Parser.Project),
    nth_error (fst (Parser.parse_all_pages_from max_pages parse_single_page
                      project_repository fuel current_page)) i = Some batch ->
    batch = Parser.filter_new project_repository
              (fst (parse_single_page (current_page + Z.of_nat i)%Z)).
Proof.
  induction fuel as [|fuel IH]; intros current_page i batch.
  - cbn. destruct i; discriminate.
  - cbn [Parser.parse_all_pages_from].
    destruct (Parser.limit_reached max_pages current_page);
      [cbn; destruct i; discriminate|].
    destruct (parse_single_page current_page) as [projects pagination_info]
      eqn:Ep.
    specialize (IH (current_page + 1)%Z).
    destruct (Parser.parse_all_pages_from max_pages parse_single_page
                project_repository fuel (current_page + 1))
      as [batches ended].
    cbn [fst] in IH.
    assert (forall rest : list (list Parser.Project),
              (rest = [] \/ rest = batches) ->
              nth_error (Parser.filter_new project_repository projects :: rest)
                        i = Some batch ->
              batch = Parser.filter_new project_repository
                        (fst (parse_single_page (current_page + Z.of_nat i)%Z)))
      as Hcons.
    { intros rest Hrest. destruct i as [|i]; cbn [nth_error].
      - intros H. injection H as <-.
        replace (current_page + Z.of_nat 0)%Z with current_page by lia.
        rewrite Ep. reflexivity.
      - destruct Hrest as [->| ->]; [destruct i; discriminate|].
        intros H. apply IH in H.
        replace (current_page + Z.of_nat (S i))%Z
          with (current_page + 1 + Z.of_nat i)%Z by lia.
        exact H. }
    destruct projects as [|project projects];
      [destruct (current_page =? 1)%Z; [cbn; destruct i; discriminate|]|];
      (destruct (negb (Parser.get_has_next pagination_info)); cbn [fst];
       apply Hcons; auto).
Qed.

Lemma filter_new_unknown (exists_project : PyStr.pystr -> bool)
    (projects : list Parser.Project) :
  List.Forall (fun project =>
                 exists_project (Parser.external_id project) = false)
              (Parser.filter_new (Some exists_project) projects).
Proof.
  unfold Parser.filter_new. apply List.Forall_forall. intros p Hp.
  apply filter_In in Hp. destruct Hp as [_ Hp].
  apply negb_true_iff in Hp. exact Hp.
Qed.

End WalkerProperties.

(** X24: with a page limit [n >= 1] the walker yields at most [n]
    batches, and it ends within [n + 1] turns of its loop, whatever the
    pages say about a next page. *)
Theorem parse_all_pages_respects_limit (n : Z)
    (parse_single_page : Z -> list Parser.Project * option Parser.PaginationInfo)
    (project_repository : option (PyStr.pystr -> bool)) (fuel : nat) :
  (0 < n)%Z ->
  let out := Parser.parse_all_pages (Some n) parse_single_page
               project_repository fuel in
  (length (fst out) <= Z.to_nat n)%nat /\
  (Z.to_nat n < fuel -> snd out = true)%nat.
Proof.
  intros Hn out. subst out. unfold Parser.parse_all_pages.
  pose proof (parse_all_pages_from_limit parse_single_page project_repository
                n fuel 1%Z ltac:(lia) Hn) as H.
  cbv zeta in H. replace (n + 1 - 1)%Z with n in H by lia. exact H.
Qed.

Lemma parse_all_pages_respects_limit_witness :
  (length (fst (Parser.parse_all_pages (Some 2%Z) endless_site None 10)) <= 2)%nat /\
  snd (Parser.parse_all_pages (Some 2%Z) endless_site None 10) = true.
Proof.
  destruct (parse_all_pages_respects_limit 2 endless_site None 10 eq_refl)
    as [H1 H2].
  split; [exact H1|]. apply H2. cbn. lia.
Defined.

(** X25: a page limit of 0 is no limit: the walker does what it does
    without one.  A negative limit stops it before the first page. *)
Theorem parse_all_pages_zero_and_negative_limit (n : Z)
    (parse_single_page : Z -> list Parser.Project * option Parser.PaginationInfo)
    (project_repository : option (PyStr.pystr -> bool)) (fuel : nat) :
  Parser.parse_all_pages (Some 0%Z) parse_single_page project_repository fuel
  = Parser.parse_all_pages None parse_single_page project_repository fuel /\
  ((n < 0)%Z ->
   Parser.parse_all_pages (Some n) parse_single_page project_repository
     (S fuel) = ([], true)).
Proof.
  split.
  - apply parse_all_pages_from_zero_limit.
  - intros Hn. unfold Parser.parse_all_pages.
    cbn [Parser.parse_all_pages_from]. unfold Parser.limit_reached.
    assert ((n =? 0)%Z = false) as -> by (apply Z.eqb_neq; lia).
    assert ((n <? 1)%Z = true) as -> by (apply Z.ltb_lt; lia).
    reflexivity.
Qed.

Lemma parse_all_pages_zero_and_negative_limit_witness :
  Parser.parse_all_pages (Some (-1)%Z) endless_site None 5 = ([], true).
Proof.
  exact (proj2 (parse_all_pages_zero_and_negative_limit (-1) endless_site
                  None 4) eq_refl).
Defined.

(** X26: the batches come in page order, one for each page from the
    first on, and the [i]-th batch is what [parse_single_page] found on
    page [i + 1] without the projects that the repository knows; so no
    batch holds a project that the repository knows. *)
Theorem parse_all_pages_batches (max_pages : option Z)
    (parse_single_page : Z -> list Parser.Project * option Parser.PaginationInfo)
    (exists_project : PyStr.pystr -> bool) (fuel : nat) (i : nat)
    (batch : list Parser.Project) :
  nth_error (fst (Parser.parse_all_pages max_pages parse_single_page
                    (Some exists_project) fuel)) i = Some batch ->
  batch = List.filter (fun project =>
                         negb (exists_project (Parser.external_id project)))
            (fst (parse_single_page (1 + Z.of_nat i)%Z)) /\
  List.Forall (fun project =>
                 exists_project (Parser.external_id project) = false) batch.
Proof.
  intros H. unfold Parser.parse_all_pages in H.
  apply parse_all_pages_from_batches in H. subst batch.
  split; [reflexivity|]. apply filter_new_unknown.
Qed.

Lemma parse_all_pages_batches_witness :
  List.Forall (fun project =>
                 PyStr.str_eqb (Parser.external_id project) (PyStr.U "101")
                 = false)
              [sample_project "102"].
Proof.
  refine (proj2 (parse_all_pages_batches None single_page_site
                   (fun id => PyStr.str_eqb id (PyStr.U "101")) 5 0
                   [sample_project "102"] _)).
  vm_compute. reflexivity.
Defined.

(** ** Retry: HTTP sessions *)

Lemma attempts_returns_a_result (A : Type) (func : nat -> Retry.Result A)
    (cfg : Retry.RetryConfig) (rnd : nat -> Q) (remaining : nat) :
  forall attempt tr last a,
    fst (Retry.attempts func cfg rnd remaining attempt tr last) = Retry.Ok a ->
    exists i, func i = Retry.Ok a.
Proof.
  induction remaining as [|remaining IH]; intros attempt tr last a.
  - cbn [Retry.attempts]. destruct last; discriminate.
  - cbn [Retry.attempts].
    destruct (func (Retry.calls tr)) as [result|e] eqn:Ef.
    + cbn [fst]. intros H. injection H as <-. eauto.
    + destruct (negb (Retry.is_retryable_exception e)); [discriminate|].
      destruct (attempt =? Retry.max_attempts cfg)%Z; [discriminate|].
      destruct (Retry.calculate_delay _ _ _) as [d|raised]; [|discriminate].
      apply IH.
Qed.

(** X27: a response that [RetrySession.request] returns never has a
    status that calls for a retry (429, 500, 502, 503, 504, 521 to 524),
    its body has been read without error, and it is a response that the
    session handed over to one of the attempts. *)
Theorem request_returns_final_responses
    (session : nat -> Retry.Result Retry.Response)
    (config : option Retry.RetryConfig) (rnd : nat -> Q)
    (response : Retry.Response) :
  fst (Retry.request session config rnd) = Retry.Ok response ->
  Retry.is_retryable_http_status (Retry.response_status response) = false /\
  Retry.read response = None /\
  exists i, session i = Retry.Ok response.
Proof.
  unfold Retry.request, Retry.retry_async. intros H.
  apply attempts_returns_a_result in H. destruct H as (i & H).
  unfold Retry._make_request in H.
  destruct (session i) as [r|e] eqn:Es; [|discriminate].
  destruct (Retry.is_retryable_http_status (Retry.response_status r)) eqn:Er;
    [discriminate|].
  destruct (Retry.read r) eqn:Eread; [discriminate|].
  injection H as <-. eauto.
Qed.

Lemma request_returns_final_responses_witness :
  Retry.is_retryable_http_status 404 = false /\
  exists i, recovering_server i
            = Retry.Ok (Retry.mkResponse 404 "Not Found" None).
Proof.
  destruct (request_returns_final_responses recovering_server None
              (fun _ => 0) (Retry.mkResponse 404 "Not Found" None))
    as (H1 & _ & H3).
  - vm_compute. reflexivity.
  - split; [exact H1|exact H3].
Defined.

(** ** Rate limiter: reset *)

Lemma limit_delay_empty_window (h c now : Q) (ds : list Q) (w : World) :
  0 < c -> limit_delay h c [] now ds w = (Returned ds, w).
Proof.
  intros Hc. unfold limit_delay. case_Qle c (len ([] : list Q)).
  - apply len_nil_le in E. lra.
  - reflexivity.
Qed.

(** X28: the request after a [reset] is not held back by what came
    before, be it a full window or a block after a 429: it returns after
    the minimal delay of the configuration, and it is the only request in
    the windows. *)
Theorem acquire_after_reset (w : World) :
  0 < requests_per_second (config (self w)) ->
  0 < requests_per_minute (config (self w)) ->
  0 < requests_per_hour (config (self w)) ->
  let w' := snd (acquire (snd (reset w))) in
  fst (acquire (snd (reset w))) = Returned tt /\
  clock w' = (if Qlt_bool 0 (min_delay (config (self w)))
              then clock w + min_delay (config (self w)) else clock w) /\
  second_window (self w') = [clock w] /\
  minute_window (self w') = [clock w] /\
  hour_window (self w') = [clock w] /\
  is_blocked (self w') = false /\
  current_delay (self w') = min_delay (config (self w)).
Proof.
  intros Hs Hm Hh w'. subst w'.
  destruct w as [st t]. destruct st as [cfg sw mw hw cd ce le ib bu].
  cbn [self clock config] in *.
  set (w1 := snd (reset _)).
  assert (acquire w1
          = (Returned tt,
             mkWorld (set_windows [t] [t] [t] (self w1))
                     (if Qlt_bool 0 (min_delay cfg) then t + min_delay cfg
                      else t))) as ->.
  { rewrite (acquire_unfold w1 w1 w1); [reflexivity|reflexivity|].
    subst w1. unfold reset, modify. cbn [snd].
    rewrite enforce_unfold. unfold bind.
    cbn [cleaned set_block set_errors set_current_delay set_windows
         second_window minute_window hour_window config drop_old].
    rewrite !limit_delay_empty_window by assumption.
    reflexivity. }
  cbn. repeat split.
Qed.

Lemma acquire_after_reset_witness :
  clock (snd (acquire (snd (reset
           (mkWorld (set_block true 500 (init default_config)) 10)))))
  = 10 + min_delay default_config.
Proof.
  exact (proj1 (proj2 (acquire_after_reset
                  (mkWorld (set_block true 500 (init default_config)) 10)
                  eq_refl eq_refl eq_refl))).
Defined.
